(** * Bunjang / Shopify bridge: ledger, locks, sold status, orders, cancellation

    A shallow embedding of the synchronisation ledger
    ([src/models/syncedProduct.model.js]), the periodic clean-up job
    ([src/jobs/cleanupJob.js]), the inventory service
    ([src/services/inventoryService.js]), the order orchestrator
    ([src/services/orderService.js]), the cancellation service and its hooks
    ([src/services/orderCancellationService.js],
    [src/hooks/orderCancellationHooks.js]).

    Conventions.
    - Instants are milliseconds since the epoch, in [Z]; a nullable [Date]
      field is an [option Z].
    - A MongoDB collection is the list of its documents in scan order.  The
      unique index on [bunjangPid] is not assumed: the clean-up job exists
      because duplicates occur.
    - The [createdAt]/[updatedAt] stamps are maintained by Mongoose's
      [timestamps] option, outside the functions embedded here; the record
      carries them as data.  The stamp is written out where a statement
      speaks of the whole state that an operation leaves: the sweeps set
      [updatedAt] of the entries they match.  The other operations leave the
      stamps as they are, and what is stated of them does not read
      [updatedAt].
    - Remote collaborators (Shopify, Bunjang) are scripted: every call site
      of a function receives its outcome ([Returns v] or [Throws]) from an
      environment record, and every call that is sent is appended to a log. *)

From Stdlib Require Import ZArith List String Ascii Bool Lia DecimalString.
From Stdlib Require Import Sorted Permutation.
Import ListNotations.

Local Open Scope string_scope.
Local Open Scope Z_scope.

(** ** MongoDB operations used by the model *)

Module Mongo.
Section Collection.
Context {Doc : Type}.

(** [Model.findOne(filter)]: the first matching document in scan order. *)
Definition findOne (filter : Doc -> bool) (c : list Doc) : option Doc :=
  find filter c.

(** [Model.findOneAndUpdate(filter, update, {new: true})]: updates the first
    matching document and returns it as updated; [null] and no write when
    nothing matches. *)
Fixpoint findOneAndUpdate (filter : Doc -> bool) (update : Doc -> Doc)
    (c : list Doc) : option Doc * list Doc :=
  match c with
  | [] => (None, [])
  | d :: c' =>
      if filter d then (Some (update d), update d :: c')
      else let r := findOneAndUpdate filter update c' in (fst r, d :: snd r)
  end.

(** [Model.findOneAndUpdate(filter, update)] without [new]: the document is
    returned as it was before the write. *)
Fixpoint findOneAndUpdate_old (filter : Doc -> bool) (update : Doc -> Doc)
    (c : list Doc) : option Doc * list Doc :=
  match c with
  | [] => (None, [])
  | d :: c' =>
      if filter d then (Some d, update d :: c')
      else let r := findOneAndUpdate_old filter update c' in (fst r, d :: snd r)
  end.

(** [Model.updateOne(filter, update)]. *)
Definition updateOne (filter : Doc -> bool) (update : Doc -> Doc)
    (c : list Doc) : list Doc :=
  snd (findOneAndUpdate filter update c).

(** [Model.updateMany(filter, update)]. *)
Definition updateMany (filter : Doc -> bool) (update : Doc -> Doc)
    (c : list Doc) : list Doc :=
  map (fun d => if filter d then update d else d) c.

(** [Model.deleteMany(filter)]. *)
Definition deleteMany (filter : Doc -> bool) (c : list Doc) : list Doc :=
  List.filter (fun d => negb (filter d)) c.
End Collection.

(** [{ field: { $lt: bound } }] on a [Date] field: a missing or [null] field
    does not match. *)
Definition date_lt (field : option Z) (bound : Z) : bool :=
  match field with
  | Some d => d <? bound
  | None => false
  end.
End Mongo.

(** ** The ledger entry: [src/models/syncedProduct.model.js] *)

Module SyncedProduct.

Inductive ProcessingStatus := idle | processing | completed | failed.

Inductive ShopifyStatus := ACTIVE | DRAFT | ARCHIVED | SOLD_OUT.

Inductive SoldFrom := shopify | bunjang | both.

Definition ProcessingStatus_eqb (a b : ProcessingStatus) : bool :=
  match a, b with
  | idle, idle | processing, processing
  | completed, completed | failed, failed => true
  | _, _ => false
  end.

(** The fields of the schema that the embedded functions read or write. *)
Record t := mk {
  _id : nat;
  bunjangPid : string;
  shopifyGid : option string;
  shopifyStatus : option ShopifyStatus;
  bunjangQuantity : Z;
  lastInventorySyncAt : option Z;
  syncErrorMessage : option string;
  processingStatus : ProcessingStatus;
  processingStartedAt : option Z;
  processingJobId : option string;
  processingLockExpiry : option Z;
  soldFrom : option SoldFrom;
  soldAt : option Z;
  shopifySoldAt : option Z;
  bunjangSoldAt : option Z;
  pendingBunjangOrder : bool;
  bunjangOrderIds : list string;
  createdAt : Z;
  updatedAt : Z
}.

(** [$set] of the lock fields, as in [acquireLock]. *)
Definition set_lock (st : ProcessingStatus) (started : option Z)
    (job : option string) (expiry : option Z) (d : t) : t :=
  mk (_id d) (bunjangPid d) (shopifyGid d) (shopifyStatus d)
     (bunjangQuantity d) (lastInventorySyncAt d) (syncErrorMessage d)
     st started job expiry
     (soldFrom d) (soldAt d) (shopifySoldAt d) (bunjangSoldAt d)
     (pendingBunjangOrder d) (bunjangOrderIds d) (createdAt d) (updatedAt d).

(** [$set: { processingStatus, processingLockExpiry }], as in [releaseLock]. *)
Definition set_release (st : ProcessingStatus) (d : t) : t :=
  set_lock st (processingStartedAt d) (processingJobId d) None d.

(** [$set: { processingStatus: 'failed', syncErrorMessage }], as in the
    sweepers.  The schema has [timestamps: true]: [updateMany] also sets
    [updatedAt] of every document it matches, to the instant [updated] at
    which the update is built. *)
Definition set_failed (updated : Z) (msg : string) (d : t) : t :=
  mk (_id d) (bunjangPid d) (shopifyGid d) (shopifyStatus d)
     (bunjangQuantity d) (lastInventorySyncAt d) (Some msg)
     failed (processingStartedAt d) (processingJobId d)
     (processingLockExpiry d)
     (soldFrom d) (soldAt d) (shopifySoldAt d) (bunjangSoldAt d)
     (pendingBunjangOrder d) (bunjangOrderIds d) (createdAt d) updated.

(** [$set: { bunjangQuantity, lastInventorySyncAt }]. *)
Definition set_inventory (q : Z) (at_ : Z) (d : t) : t :=
  mk (_id d) (bunjangPid d) (shopifyGid d) (shopifyStatus d)
     q (Some at_) (syncErrorMessage d)
     (processingStatus d) (processingStartedAt d) (processingJobId d)
     (processingLockExpiry d)
     (soldFrom d) (soldAt d) (shopifySoldAt d) (bunjangSoldAt d)
     (pendingBunjangOrder d) (bunjangOrderIds d) (createdAt d) (updatedAt d).

(** The assignments of [handleProductSoldStatus] before [save()]: only the
    paths that were assigned are written back. *)
Definition set_sold (st : ShopifyStatus) (from : SoldFrom) (at_ : Z)
    (bunjangAt : option Z) (d : t) : t :=
  mk (_id d) (bunjangPid d) (shopifyGid d) (Some st)
     (bunjangQuantity d) (lastInventorySyncAt d) (syncErrorMessage d)
     (processingStatus d) (processingStartedAt d) (processingJobId d)
     (processingLockExpiry d)
     (Some from) (Some at_) (shopifySoldAt d)
     (match bunjangAt with Some x => Some x | None => bunjangSoldAt d end)
     (pendingBunjangOrder d) (bunjangOrderIds d) (createdAt d) (updatedAt d).

Definition set_pending (at_ : Z) (d : t) : t :=
  mk (_id d) (bunjangPid d) (shopifyGid d) (shopifyStatus d)
     (bunjangQuantity d) (lastInventorySyncAt d) (syncErrorMessage d)
     (processingStatus d) (processingStartedAt d) (processingJobId d)
     (processingLockExpiry d)
     (soldFrom d) (soldAt d) (Some at_) (bunjangSoldAt d)
     true (bunjangOrderIds d) (createdAt d) (updatedAt d).

Definition has_pid (pid : string) (d : t) : bool :=
  (bunjangPid d =? pid)%string.

(** [methods.isLocked], evaluated at instant [now]. *)
Definition isLocked (now : Z) (d : t) : bool :=
  if negb (ProcessingStatus_eqb (processingStatus d) processing) then false
  else match processingLockExpiry d with
       | None => false
       | Some expiry => now <? expiry
       end.

(** The filter of [acquireLock]:
    [{ bunjangPid, $or: [ {processingStatus: {$ne: 'processing'}},
                          {processingLockExpiry: {$lt: new Date()}} ] }]. *)
Definition lock_free (now : Z) (d : t) : bool :=
  negb (ProcessingStatus_eqb (processingStatus d) processing)
  || Mongo.date_lt (processingLockExpiry d) now.

(** The clock is read three times in [acquireLock]: [Date.now()] for the
    expiry, [new Date()] in the filter, [new Date()] for
    [processingStartedAt]. *)
Record LockClock := { at_expiry : Z; at_filter : Z; at_started : Z }.

(** [statics.acquireLock(bunjangPid, jobId, lockDurationMs = 60000)]. *)
Definition acquireLock (clock : LockClock) (pid jobId : string)
    (lockDurationMs : Z) (c : list t) : option t * list t :=
  let lockExpiry := at_expiry clock + lockDurationMs in
  Mongo.findOneAndUpdate
    (fun d => has_pid pid d && lock_free (at_filter clock) d)
    (set_lock processing (Some (at_started clock)) (Some jobId)
       (Some lockExpiry))
    c.

Definition default_lockDurationMs : Z := 60000.

(** [statics.releaseLock(bunjangPid, status = 'idle')]. *)
Definition releaseLock (pid : string) (status : ProcessingStatus)
    (c : list t) : option t * list t :=
  Mongo.findOneAndUpdate_old (has_pid pid) (set_release status) c.

(** One group of a [$group] stage keyed by [$bunjangPid]: the key, the
    [$sum] and what [$push] collected. *)
Record Group (A : Type) := {
  g_id : string;
  g_count : nat;
  g_pushed : list A
}.
Arguments g_id {A} _.
Arguments g_count {A} _.
Arguments g_pushed {A} _.

(** A document enters the stage: pushed at the end of its group, or at the
    end of the groups when its key is new. *)
Fixpoint group_push {A : Type} (pid : string) (x : A) (gs : list (Group A))
    : list (Group A) :=
  match gs with
  | [] => [ {| g_id := pid; g_count := 1; g_pushed := [x] |} ]
  | g :: gs' =>
      if (g_id g =? pid)%string
      then {| g_id := pid; g_count := S (g_count g);
              g_pushed := g_pushed g ++ [x] |} :: gs'
      else g :: group_push pid x gs'
  end.

(** [$group: { _id: '$bunjangPid', count: {$sum: 1}, <field>: {$push: ...} }]:
    the documents are fed in scan order. *)
Definition group_by_pid {A : Type} (pushed : t -> A) (c : list t)
    : list (Group A) :=
  fold_left (fun gs d => group_push (bunjangPid d) (pushed d) gs) c [].

(** [$match: { count: { $gt: 1 } }]. *)
Definition match_duplicates {A : Type} (gs : list (Group A))
    : list (Group A) :=
  List.filter (fun g => (1 <? g_count g)%nat) gs.

(** [$sort: { count: -1 }]; groups of equal count are left in the order
    they had. *)
Fixpoint insert_by_count {A : Type} (g : Group A) (gs : list (Group A))
    : list (Group A) :=
  match gs with
  | [] => [g]
  | h :: gs' =>
      if (g_count h <=? g_count g)%nat then g :: h :: gs'
      else h :: insert_by_count g gs'
  end.

Definition sort_by_count {A : Type} (gs : list (Group A)) : list (Group A) :=
  fold_right insert_by_count [] gs.

(** [statics.findDuplicates()]: the groups of more than one row, each with
    the [{ _id, createdAt }] of its rows. *)
Definition findDuplicates (c : list t) : list (Group (nat * Z)) :=
  sort_by_count
    (match_duplicates (group_by_pid (fun d => (_id d, createdAt d)) c)).

(** The sweeper filter:
    [{ processingStatus: 'processing', processingStartedAt: { $lt: bound } }]. *)
Definition stuck (bound : Z) (d : t) : bool :=
  ProcessingStatus_eqb (processingStatus d) processing
  && Mongo.date_lt (processingStartedAt d) bound.

Definition default_timeoutMs : Z := 30 * 60 * 1000.

(** [statics.cleanupStuckProcessing(timeoutMs = 30 * 60 * 1000)]; [now] is
    what [Date.now()] reads for the filter, [updated] the instant of the
    [updatedAt] stamp. *)
Definition cleanupStuckProcessing (now updated timeoutMs : Z) (c : list t)
    : list t :=
  let timeout := now - timeoutMs in
  Mongo.updateMany (stuck timeout)
    (set_failed updated "Processing timeout - cleaned up by system") c.

(** [methods.isSoldOut]. *)
Definition isSoldOut (d : t) : bool :=
  match shopifyStatus d with Some SOLD_OUT => true | _ => false end
  || match soldFrom d with Some both => true | _ => false end.

(** [methods.needsBunjangOrder]:
    [this.pendingBunjangOrder && !this.bunjangOrderIds?.length]. *)
Definition needsBunjangOrder (d : t) : bool :=
  pendingBunjangOrder d
  && match bunjangOrderIds d with [] => true | _ :: _ => false end.

(** The text of a [shopifyStatus] value. *)
Definition ShopifyStatus_text (s : ShopifyStatus) : string :=
  match s with
  | ACTIVE => "ACTIVE"
  | DRAFT => "DRAFT"
  | ARCHIVED => "ARCHIVED"
  | SOLD_OUT => "SOLD_OUT"
  end.

(** The virtual [displayStatus]. *)
Definition displayStatus (d : t) : string :=
  match soldFrom d with
  | Some both => "SOLD OUT (Both Platforms)"
  | Some shopify => "Sold on Shopify"
  | Some bunjang => "Sold on Bunjang"
  | None =>
      match shopifyStatus d with
      | Some SOLD_OUT => "SOLD OUT"
      | Some s => ShopifyStatus_text s
      | None => "UNKNOWN"
      end
  end.

End SyncedProduct.

(** ** The periodic clean-up: [src/jobs/cleanupJob.js] *)

Module CleanupJob.
Import SyncedProduct.

(** [cleanupStuckProcessing()] of the job file; [now] and [updated] as in
    the static method. *)
Definition cleanupStuckProcessing (now updated : Z) (c : list t) : list t :=
  let timeout := 30 * 60 * 1000 in
  Mongo.updateMany (stuck (now - timeout))
    (set_failed updated "Processing timeout") c.

(** [{ _id: { $in: remove } }]. *)
Definition id_in (ids : list nat) (d : t) : bool :=
  existsb (Nat.eqb (_id d)) ids.

(** The body of the loop: [const [keep, ...remove] = dup.ids;
    deleteMany({ _id: { $in: remove } })]. *)
Definition remove_group (c : list t) (dup : Group nat) : list t :=
  let remove := tl (g_pushed dup) in
  Mongo.deleteMany (id_in remove) c.

(** [findAndRemoveDuplicates()]. *)
Definition findAndRemoveDuplicates (c : list t) : list t :=
  let duplicates := match_duplicates (group_by_pid _id c) in
  fold_left remove_group duplicates c.

End CleanupJob.

(** ** JavaScript values and strings *)

Module JS.

(** The outcome of an awaited call: it returns, or it throws an error whose
    [errorCode] property (when it has one) is kept. *)
Inductive call (A : Type) : Type :=
| Returns (a : A)
| Throws (errorCode : option string).
Arguments Returns {A} a.
Arguments Throws {A} errorCode.

(** Strings are sequences of 8-bit characters: a JavaScript string is
    carried as its UTF-8 bytes, so ASCII text (ids, skus, the configured
    patterns) is itself and any other character is two to four bytes, each
    of them 128 or more. *)

(** Truthiness of a string. *)
Definition truthy (s : string) : bool :=
  match s with EmptyString => false | String _ _ => true end.

(** [s.startsWith(p)]. *)
Definition startsWith (s p : string) : bool := String.prefix p s.

(** [s.includes(sub)]. *)
Fixpoint includes (s sub : string) : bool :=
  String.prefix sub s
  || match s with
     | EmptyString => false
     | String _ s' => includes s' sub
     end.

(** [s.substring(n)] for [0 <= n]. *)
Fixpoint substring_from (n : nat) (s : string) : string :=
  match n, s with
  | O, _ => s
  | S n', String _ s' => substring_from n' s'
  | S _, EmptyString => EmptyString
  end.

(** [arr.includes(x)] on an array of strings. *)
Definition array_includes (arr : list string) (x : string) : bool :=
  existsb (String.eqb x) arr.

(** [arr.some(callback)] where the callback also writes to captured state:
    the scan stops at the first element for which the callback is true. *)
Fixpoint Array_some {A S : Type} (callback : A -> S -> bool * S)
    (arr : list A) (s : S) : bool * S :=
  match arr with
  | [] => (false, s)
  | a :: arr' =>
      let r := callback a s in
      if fst r then (true, snd r) else Array_some callback arr' (snd r)
  end.

(** [a ?? b]. *)
Definition nullish {A : Type} (a : option A) (b : A) : A :=
  match a with Some x => x | None => b end.

(** *** Regular expressions built from the error-tag patterns

    [new RegExp(pattern.replace(/\*/g, '.*'))]: every [*] of the pattern
    becomes [.*]; the other characters of the configured patterns (letters,
    [-], [_]) stand for themselves. *)
Inductive token := Lit (c : ascii) | AnyStar.

Fixpoint compile (pattern : string) : list token :=
  match pattern with
  | EmptyString => []
  | String c p =>
      (if (c =? "*")%char then AnyStar else Lit c) :: compile p
  end.

(** [.] matches every character but a line terminator: line feed, carriage
    return, and the line and paragraph separators U+2028 and U+2029, which
    are the three bytes [226 128 168] and [226 128 169] here.  The text
    starts with a line terminator: *)
Definition line_terminator_at (s : string) : bool :=
  match s with
  | String c s' =>
      (c =? "010")%char || (c =? "013")%char
      || (c =? "226")%char
         && match s' with
            | String d (String e _) =>
                (d =? "128")%char && ((e =? "168")%char || (e =? "169")%char)
            | _ => false
            end
  | EmptyString => false
  end.

(** Match of the whole token list at the start of the string.  [.*] steps
    over the bytes of a character one at a time, and does not step into a
    line terminator. *)
Fixpoint match_here (p : list token) : string -> bool :=
  match p with
  | [] => fun _ => true
  | Lit c :: p' =>
      fun s =>
        match s with
        | String c' s' => (c =? c')%char && match_here p' s'
        | EmptyString => false
        end
  | AnyStar :: p' =>
      fix star (s : string) : bool :=
        match_here p' s
        || match s with
           | String _ s' => negb (line_terminator_at s) && star s'
           | EmptyString => false
           end
  end.

(** [regex.test(s)]: the expression is not anchored, a match may start at any
    position. *)
Fixpoint search (p : list token) (s : string) : bool :=
  match_here p s
  || match s with
     | String _ s' => search p s'
     | EmptyString => false
     end.

Definition RegExp_test (pattern : string) (s : string) : bool :=
  search (compile pattern) s.

End JS.

(** ** Calls sent to the storefront and to the source marketplace *)

Module Remote.

Record Metafield := {
  mf_namespace : string; mf_key : string; mf_value : string; mf_type : string
}.

Record RefundLineItem := {
  lineItemId : string; rl_quantity : Z; restockType : string
}.

Record ProductInput := {
  pi_id : string; pi_title : string; pi_status : string; pi_tags : list string
}.

Inductive event :=
| OrderCancel (orderId : string) (notifyCustomer : bool) (reason : string)
    (refund restock : bool)
| RefundCreate (orderId note : string) (notify : bool)
    (refundLineItems : list RefundLineItem)
| UpdateOrder (id : string) (tags : list string) (metafields : list Metafield)
| UpdateProduct (input : ProductInput)
    (* the call [shopifyService.updateProduct(input)]; the requests which
       that function sends in turn (the existence check, [productUpdate],
       tracking and a quantity of 1 for every variant, publication) are not
       entered in the log *)
| InventoryActivate (inventoryItemId locationId : string)
| InventorySetOnHandQuantities (inventoryItemId locationId : string)
    (quantity : Z)
| CreateBunjangOrderV2 (bunjangPid payload : string)
    (answer : JS.call (option string))
| HandleProductSoldStatus (bunjangPid : string) (shopifyGid : option string)
    (soldFrom : string).

End Remote.

(** ** The cancellation service: [src/services/orderCancellationService.js] *)

Module OrderCancellationService.
Import JS Remote.

Definition errorTagPatterns : list string :=
  [ "BunjangOrder-*_Error";
    "PID-*-NotAvailable";
    "PID-*-InsufficientStock";
    "PID-*-NotFound";
    "PID-*-CreateFail";
    "PID-*-Exception";
    "URGENT-InsufficientPoints";
    "URGENT-AuthenticationError" ].

(** [CANCELLATION_CONFIG]; [notifyCustomer] is read from the process
    environment. *)
Record Config := { notifyCustomer : bool; autoRefund : bool }.

Definition CANCELLATION_CONFIG (NOTIFY_CUSTOMER_ON_CANCEL : bool) : Config :=
  {| notifyCustomer := NOTIFY_CUSTOMER_ON_CANCEL; autoRefund := true |}.

Record ErrorCheck := { hasError : bool; errorTypes : list string }.

(** The callback of [tags.some]: the [for] loop over the patterns pushes the
    tag and returns [true] at its first matching pattern. *)
Fixpoint match_and_push (patterns : list string) (tag : string)
    (errors : list string) : bool * list string :=
  match patterns with
  | [] => (false, errors)
  | pattern :: rest =>
      if RegExp_test pattern tag then (true, (errors ++ [tag])%list)
      else match_and_push rest tag errors
  end.

(** [checkBunjangOrderErrors(tags)]. *)
Definition checkBunjangOrderErrors (tags : list string) : ErrorCheck :=
  let r := Array_some (match_and_push errorTagPatterns) tags [] in
  {| hasError := fst r; errorTypes := snd r |}.

(** A tag matches one of the configured patterns. *)
Definition matches_error_pattern (tag : string) : bool :=
  existsb (fun pattern => RegExp_test pattern tag) errorTagPatterns.

(** The order as returned by the [getOrderDetails] query. *)
Record LineItem := {
  li_id : string; li_title : string; li_quantity : Z;
  li_sku : option string        (* [lineItem.variant?.sku] *)
}.

Record Order := {
  o_id : string;
  o_name : string;
  cancelledAt : option string;
  o_tags : list string;
  lineItems : list LineItem;    (* [order.lineItems.edges], node by node *)
  metafield : option string     (* [order.metafield?.value] *)
}.

Record Options := {
  opt_notifyCustomer : option bool;
  opt_autoRefund : option bool
}.

Record Job := { job_id : string; job_done : bool }.
Record CancelResponse := {
  orderCancelUserErrors : list string; job : option Job
}.
Record Refund := { refund_id : string; refund_amount : option string }.
Record RefundResponse := { userErrors : list string; refund : option Refund }.

(** The outcomes of the remote calls of one run. *)
Record Env := {
  r_order : call (option Order);
  r_orderCancel : call CancelResponse;
  r_refundCreate : call RefundResponse;
  r_updateOrder : call unit;
  now_iso : string              (* [new Date().toISOString()] *)
}.

Inductive Outcome :=
| AlreadyCancelled              (* [{ success: true, alreadyCancelled: true }] *)
| NoErrors                      (* [{ success: true, noErrors: true }] *)
| NoFailedItems                 (* [{ success: false, reason: 'NO_FAILED_ITEMS' }] *)
| Cancelled (jobId orderName : string)
| Refunded (refundId : string) (refundedAmount : option string)
    (itemsRefunded : nat)
| Undefined.                    (* the function ends without a [return] *)

Definition nonempty {A : Type} (l : list A) : bool :=
  match l with [] => false | _ :: _ => true end.

(** [order.tags.some(tag => tag.includes(`PID-${bunjangPid}-`) &&
    tag.includes('Error'))]. *)
Definition hasErrorTag (tags : list string) (bunjangPid : string) : bool :=
  existsb (fun tag => includes tag ("PID-" ++ bunjangPid ++ "-")
                      && includes tag "Error") tags.

(** One turn of the loop over [order.lineItems.edges]. *)
Definition classify (tags : list string) (hasSuccessfulBunjangOrders : bool)
    (acc : list LineItem * list LineItem) (lineItem : LineItem)
    : list LineItem * list LineItem :=
  match li_sku lineItem with
  | Some sku =>
      if truthy sku && startsWith sku "BJ-" then
        let bunjangPid := substring_from 3 sku in
        if hasErrorTag tags bunjangPid
        then ((fst acc ++ [lineItem])%list, snd acc)
        else if hasSuccessfulBunjangOrders
             then (fst acc, (snd acc ++ [lineItem])%list)
             else acc
      else acc
  | None => acc
  end.

(** [(failedLineItems, successfulLineItems)] after the loop. *)
Definition partition_items (order : Order) (hasSuccessfulBunjangOrders : bool)
    : list LineItem * list LineItem :=
  fold_left (classify (o_tags order) hasSuccessfulBunjangOrders)
    (lineItems order) ([], []).

(** [order.cancelledAt] is set. *)
Definition isCancelled (order : Order) : bool :=
  match cancelledAt order with
  | Some instant => truthy instant
  | None => false
  end.

Section Cancellation.
(** [JSON.parse] and the [.length > 0] test on its result are not part of
    the repository: [JSON_parse] is [None] where the text is rejected,
    [length_positive] is [None] where reading [.length] throws (on
    [null]). *)
Variable json : Type.
Variable JSON_parse : string -> option json.
Variable length_positive : json -> option bool.

Variable config : Config.

(** [cancelEntireOrder(order, options)]. *)
Definition cancelEntireOrder (env : Env) (order : Order) (options : Options)
    : call Outcome * list event :=
  let sent :=
    OrderCancel (o_id order)
      (nullish (opt_notifyCustomer options) (notifyCustomer config))
      "OTHER"
      (nullish (opt_autoRefund options) (autoRefund config))
      false in
  match r_orderCancel env with
  | Throws e => (Throws e, [sent])
  | Returns response =>
      if nonempty (orderCancelUserErrors response)
      then (Throws (Some "ORDER_CANCEL_ERROR"), [sent])
      else match job response with
           | Some j =>
               let upd :=
                 UpdateOrder (o_id order)
                   (o_tags order ++ ["auto-cancelled"; "bunjang-order-failed"])
                   [ {| mf_namespace := "bunjang";
                        mf_key := "cancellation_reason";
                        mf_value := "Bunjang order creation failed";
                        mf_type := "single_line_text_field" |};
                     {| mf_namespace := "bunjang";
                        mf_key := "cancelled_at";
                        mf_value := now_iso env;
                        mf_type := "date_time" |} ] in
               match r_updateOrder env with
               | Throws e => (Throws e, [sent; upd])
               | Returns _ =>
                   (Returns (Cancelled (job_id j) (o_name order)),
                    [sent; upd])
               end
           | None => (Returns Undefined, [sent])
           end
  end.

(** [cancelFailedLineItems(order, lineItemsToCancel, options)]. *)
Definition cancelFailedLineItems (env : Env) (order : Order)
    (lineItemsToCancel : list LineItem) (options : Options)
    : call Outcome * list event :=
  let refundLineItems :=
    map (fun item => {| lineItemId := li_id item;
                        rl_quantity := li_quantity item;
                        restockType := "NO_RESTOCK" |}) lineItemsToCancel in
  let sent :=
    RefundCreate (o_id order)
      "Automatic refund due to Bunjang order creation failure"
      (nullish (opt_notifyCustomer options) (notifyCustomer config))
      refundLineItems in
  match r_refundCreate env with
  | Throws e => (Throws e, [sent])
  | Returns response =>
      if nonempty (userErrors response)
      then (Throws (Some "REFUND_CREATE_ERROR"), [sent])
      else match refund response with
           | Some r =>
               let upd :=
                 UpdateOrder (o_id order)
                   (o_tags order ++ ["partial-refund"; "bunjang-items-refunded"])
                   [] in
               match r_updateOrder env with
               | Throws e => (Throws e, [sent; upd])
               | Returns _ =>
                   (Returns (Refunded (refund_id r) (refund_amount r)
                               (List.length lineItemsToCancel)),
                    [sent; upd])
               end
           | None => (Returns Undefined, [sent])
           end
  end.

(** [const bunjangOrderIds = order.metafield?.value ?
    JSON.parse(order.metafield.value) : []; bunjangOrderIds.length > 0]:
    [None] when one of the two steps throws. *)
Definition hasSuccessfulBunjangOrders (order : Order) : option bool :=
  match metafield order with
  | Some value =>
      if truthy value then
        match JSON_parse value with
        | Some ids => length_positive ids
        | None => None
        end
      else Some false
  | None => Some false
  end.

(** [processCancellationForOrder(orderId, options)]; the order is the one
    the query returns for [orderId]. *)
Definition processCancellationForOrder (env : Env) (options : Options)
    : call Outcome * list event :=
  match r_order env with
  | Throws e => (Throws e, [])
  | Returns None => (Throws None, [])          (* [NotFoundError] *)
  | Returns (Some order) =>
      if isCancelled order then (Returns AlreadyCancelled, [])
      else
        let errorCheck := checkBunjangOrderErrors (o_tags order) in
        if negb (hasError errorCheck) then (Returns NoErrors, [])
        else
          match hasSuccessfulBunjangOrders order with
          | None => (Throws None, [])
          | Some hasSuccessful =>
              let parts := partition_items order hasSuccessful in
              let failedLineItems := fst parts in
              let successfulLineItems := snd parts in
              if nonempty failedLineItems && nonempty successfulLineItems
              then cancelFailedLineItems env order failedLineItems options
              else if nonempty failedLineItems
                   then cancelEntireOrder env order options
                   else (Returns NoFailedItems, [])
          end
  end.

(** A run on the order that the [getOrderDetails] query answers for
    [gid]. *)
Definition for_order (getOrderDetails : string -> call (option Order))
    (env : Env) (gid : string) : Env :=
  {| r_order := getOrderDetails gid;
     r_orderCancel := r_orderCancel env;
     r_refundCreate := r_refundCreate env;
     r_updateOrder := r_updateOrder env;
     now_iso := now_iso env |}.

(** [manualCancelOrder(orderId, options)]. *)
Definition manualCancelOrder
    (getOrderDetails : string -> call (option Order)) (env : Env)
    (orderId : string) (options : Options) : call Outcome * list event :=
  let gid :=
    if startsWith orderId "gid://" then orderId
    else "gid://shopify/Order/" ++ orderId in
  processCancellationForOrder (for_order getOrderDetails env gid) options.

(** A node of the search for failed orders, and a page of it:
    [response.data?.orders?.edges || []] and
    [response.data?.orders?.pageInfo?.hasNextPage || false]. *)
Record OrderNode := { n_id : string; n_name : string; n_tags : list string }.
Record Page := { edges : list OrderNode; hasNextPage : bool }.

(** The two counters of [processFailedOrders]. *)
Record Batch := { processedCount : nat; cancelledCount : nat }.

(** [result.cancelled || result.refunded]: [None] when reading the
    property throws, the run having ended without a [return]. *)
Definition cancelled_or_refunded (result : Outcome) : option bool :=
  match result with
  | Cancelled _ _ | Refunded _ _ _ => Some true
  | Undefined => None
  | AlreadyCancelled | NoErrors | NoFailedItems => Some false
  end.

(** [for (const edge of orders)]: the counters and the calls sent so far are
    carried along; [runs k] scripts the mutations of the run on the order
    that is processed after [k] others.  The pause for rate limiting writes
    nothing. *)
Fixpoint process_edges
    (getOrderDetails : string -> call (option Order)) (runs : nat -> Env)
    (options : Options) (orders : list OrderNode)
    (acc : Batch * list event) : Batch * list event :=
  match orders with
  | [] => acc
  | order :: rest =>
      let errorCheck := checkBunjangOrderErrors (n_tags order) in
      if hasError errorCheck then
        let r :=
          processCancellationForOrder
            (for_order getOrderDetails (runs (processedCount (fst acc)))
               (n_id order))
            options in
        let counted :=
          match fst r with
          | Returns result =>
              match cancelled_or_refunded result with
              | Some true => S (cancelledCount (fst acc))
              | Some false | None => cancelledCount (fst acc)
              end
          | Throws _ => cancelledCount (fst acc)
          end in
        process_edges getOrderDetails runs options rest
          ({| processedCount := S (processedCount (fst acc));
              cancelledCount := counted |},
           (snd acc ++ snd r)%list)
      else process_edges getOrderDetails runs options rest acc
  end.

(** [while (hasNextPage)]: [pages n] is the answer to the request made
    after [n] others; a failed request ends the loop.  [None] when [fuel]
    requests did not reach the last page. *)
Fixpoint fetch_pages (fuel : nat) (pages : nat -> call Page)
    (getOrderDetails : string -> call (option Order)) (runs : nat -> Env)
    (options : Options) (n : nat) (acc : Batch * list event)
    : option (Batch * list event) :=
  match fuel with
  | O => None
  | S fuel' =>
      match pages n with
      | Throws _ => Some acc
      | Returns page =>
          let acc' :=
            process_edges getOrderDetails runs options (edges page) acc in
          if hasNextPage page
          then fetch_pages fuel' pages getOrderDetails runs options (S n) acc'
          else Some acc'
      end
  end.

(** [processFailedOrders(options)]. *)
Definition processFailedOrders (fuel : nat) (pages : nat -> call Page)
    (getOrderDetails : string -> call (option Order)) (runs : nat -> Env)
    (options : Options) : option (Batch * list event) :=
  fetch_pages fuel pages getOrderDetails runs options 0
    ({| processedCount := 0; cancelledCount := 0 |}, []).
End Cancellation.

End OrderCancellationService.

(** ** The webhook hooks: [src/hooks/orderCancellationHooks.js] *)

Module OrderCancellationHooks.
Import JS.

(** The fields of the webhook order that [handleOrderUpdate] reads. *)
Record UpdatedOrder := {
  admin_graphql_api_id : string;
  id : string;
  tags : list string
}.

(** The job handed to [scheduleOrderCancellation]. *)
Record Scheduled := {
  s_orderId : string;
  s_errorTypes : list string;
  s_isUrgent : bool;
  s_delay : Z
}.

Definition urgent_tag (tag : string) : bool :=
  includes tag "URGENT-"
  || includes tag "InsufficientPoints"
  || includes tag "AuthenticationError".

(** [handleOrderUpdate(updatedOrder, previousTags = [])]: [None] is
    [{ scheduled: false }]. *)
Definition handleOrderUpdate (updatedOrder : UpdatedOrder)
    (previousTags : list string) : option Scheduled :=
  let orderId :=
    if truthy (admin_graphql_api_id updatedOrder)
    then admin_graphql_api_id updatedOrder
    else "gid://shopify/Order/" ++ id updatedOrder in
  let newTags :=
    filter (fun tag => negb (array_includes previousTags tag))
      (tags updatedOrder) in
  let errorCheck := OrderCancellationService.checkBunjangOrderErrors newTags in
  if OrderCancellationService.hasError errorCheck then
    let isUrgent :=
      existsb urgent_tag (OrderCancellationService.errorTypes errorCheck) in
    let delay := if isUrgent then 0 else 60000 in
    Some {| s_orderId := orderId;
            s_errorTypes := OrderCancellationService.errorTypes errorCheck;
            s_isUrgent := isUrgent;
            s_delay := delay |}
  else None.

(** The fields of the webhook order that [handleOrderCreationResult]
    reads; [c_tags] is [None] when [order.tags] is missing. *)
Record CreatedOrder := {
  c_admin_graphql_api_id : string;
  c_id : string;
  c_tags : option (list string)
}.

(** What the hook reads of [bunjangResult]: [success] and
    [bunjangOrderIds?.length]. *)
Record BunjangResult := {
  br_success : bool;
  br_length : option Z
}.

(** The job handed to [scheduleOrderCancellation] by
    [handleOrderCreationResult]. *)
Record CreationSchedule := {
  cs_orderId : string;
  cs_reason : string;
  cs_partialCancel : bool;
  cs_delay : Z
}.

(** [handleOrderCreationResult(order, bunjangResult)]: [None] is
    [{ scheduled: false }]. *)
Definition handleOrderCreationResult (order : CreatedOrder)
    (bunjangResult : BunjangResult) : option CreationSchedule :=
  let orderId :=
    if truthy (c_admin_graphql_api_id order)
    then c_admin_graphql_api_id order
    else "gid://shopify/Order/" ++ c_id order in
  if negb (br_success bunjangResult)
     && match br_length bunjangResult with
        | Some n => n =? 0
        | None => false
        end
  then Some {| cs_orderId := orderId;
               cs_reason := "bunjang_order_failed";
               cs_partialCancel := false;
               cs_delay := 5000 |}
  else
    let hasErrors :=
      match c_tags order with
      | Some tags =>
          existsb OrderCancellationService.matches_error_pattern tags
      | None => false
      end in
    if hasErrors
    then Some {| cs_orderId := orderId;
                 cs_reason := "partial_bunjang_failure";
                 cs_partialCancel := true;
                 cs_delay := 5000 |}
    else None.

Section Manual.
Variable json : Type.
Variable JSON_parse : string -> option json.
Variable length_positive : json -> option bool.
Variable config : OrderCancellationService.Config.

(** [triggerManualCancellation(orderNameOrId, options)]; [findOrderByName]
    is the id of the first edge of the search by name, when there is one. *)
Definition triggerManualCancellation
    (findOrderByName : call (option string))
    (getOrderDetails : string -> call (option OrderCancellationService.Order))
    (env : OrderCancellationService.Env) (orderNameOrId : string)
    (options : OrderCancellationService.Options)
    : call OrderCancellationService.Outcome * list Remote.event :=
  if startsWith orderNameOrId "#" then
    match findOrderByName with
    | Returns (Some orderId) =>
        OrderCancellationService.manualCancelOrder json JSON_parse
          length_positive config getOrderDetails env orderId options
    | Returns None => (Throws None, [])
    | Throws e => (Throws e, [])
    end
  else
    OrderCancellationService.manualCancelOrder json JSON_parse
      length_positive config getOrderDetails env orderNameOrId options.
End Manual.

End OrderCancellationHooks.

(** ** Sequencing of awaited calls over a mutable state

    A computation reads and writes a state and either returns or throws;
    what was written before a throw stays written. *)

Module Eff.
Import JS.

Definition M (St A : Type) : Type := St -> call A * St.

Definition ret {St A : Type} (a : A) : M St A := fun s => (Returns a, s).

Definition throw {St A : Type} (errorCode : option string) : M St A :=
  fun s => (Throws errorCode, s).

Definition bind {St A B : Type} (m : M St A) (k : A -> M St B) : M St B :=
  fun s =>
    match m s with
    | (Returns a, s') => k a s'
    | (Throws e, s') => (Throws e, s')
    end.

(** [try { m } catch (error) { handler(error.errorCode) }]. *)
Definition try_catch {St A : Type} (m : M St A)
    (handler : option string -> M St A) : M St A :=
  fun s =>
    match m s with
    | (Returns a, s') => (Returns a, s')
    | (Throws e, s') => handler e s'
    end.

Definition get {St : Type} : M St St := fun s => (Returns s, s).

Definition modify {St : Type} (f : St -> St) : M St unit :=
  fun s => (Returns tt, f s).

(** The scripted outcome of an awaited call. *)
Definition await {St A : Type} (outcome : call A) : M St A :=
  fun s => (outcome, s).

End Eff.

Declare Scope eff_scope.
Delimit Scope eff_scope with eff.
Notation "x <- m ;; k" := (Eff.bind m (fun x => k))
  (at level 61, m at next level, right associativity) : eff_scope.
Notation "m ;; k" := (Eff.bind m (fun _ => k))
  (at level 61, right associativity) : eff_scope.

(** ** The inventory service: [src/services/inventoryService.js] *)

Module InventoryService.
Import JS Remote Eff.
Local Open Scope eff_scope.

Record World := {
  ledger : list SyncedProduct.t;
  log : list event
}.

Definition send (ev : event) : M World unit :=
  modify (fun w => {| ledger := ledger w; log := (log w ++ [ev])%list |}).

Definition write (f : list SyncedProduct.t -> list SyncedProduct.t)
    : M World unit :=
  modify (fun w => {| ledger := f (ledger w); log := log w |}).

Record Product := {
  p_title : string;
  p_tags : option (list string)
}.

(** The outcomes of the remote calls of one invocation of
    [handleProductSoldStatus], one field per call site, and the instants read
    by [new Date()]. *)
Record Env := {
  (* [getProductVariants]: [null] product, or for each variant its
     [inventoryItem?.id] *)
  r_variants : call (option (list (option string)));
  (* [checkInventoryLevels]: the location ids of the current levels *)
  r_levels : call (list string);
  (* [inventoryActivate] and [inventorySetOnHandQuantities]: whether the
     answer carries [userErrors] *)
  r_activate : call bool;
  r_setQuantity : call bool;
  (* [getProduct] *)
  r_product : call (option Product);
  (* [shopifyService.updateProduct(updateInput)] *)
  r_updateProduct : call unit;
  at_inventorySync : Z;
  at_soldAt : Z;
  at_bunjangSoldAt : Z;
  at_shopifySoldAt : Z
}.

Section Service.
(** [process.env.SHOPIFY_DEFAULT_LOCATION_ID]. *)
Variable BUNJANG_WAREHOUSE_GID : string.

(** [shopifyService.updateInventoryLevel(inventoryItemId, locationId,
    availableQuantity)]: the quantity that is sent is [forcedQuantity]. *)
Definition updateInventoryLevel (env : Env) (inventoryItemId : string)
    (locationId : string) (availableQuantity : Z) : M World (option Z) :=
  let forcedQuantity := 1 in
  if negb (truthy inventoryItemId) then ret None
  else
    let targetLocationId :=
      if truthy locationId then locationId else BUNJANG_WAREHOUSE_GID in
    currentLevels <- await (r_levels env) ;;
    (if array_includes currentLevels targetLocationId then ret tt
     else
       send (InventoryActivate inventoryItemId targetLocationId) ;;
       errors <- await (r_activate env) ;;
       if (errors : bool) then throw None else ret tt) ;;
    send (InventorySetOnHandQuantities inventoryItemId targetLocationId
            forcedQuantity) ;;
    errors <- await (r_setQuantity env) ;;
    if (errors : bool) then throw None else ret (Some forcedQuantity).

(** [syncBunjangInventoryToShopify(bunjangPid, quantity)]. *)
Definition syncBunjangInventoryToShopify (env : Env) (bunjangPid : string)
    (quantity : Z) : M World bool :=
  w <- get ;;
  match Mongo.findOne (SyncedProduct.has_pid bunjangPid) (ledger w) with
  | None => ret false
  | Some syncedProduct =>
      match SyncedProduct.shopifyGid syncedProduct with
      | None => ret false
      | Some gid =>
          if negb (truthy gid) then ret false
          else
            product <- await (r_variants env) ;;
            match product with
            | None | Some [] => ret false
            | Some (first :: _) =>
                match first with
                | None => ret false
                | Some inventoryItemId =>
                    if negb (truthy inventoryItemId) then ret false
                    else
                      updateInventoryLevel env inventoryItemId
                        BUNJANG_WAREHOUSE_GID quantity ;;
                      write (Mongo.updateOne
                               (SyncedProduct.has_pid bunjangPid)
                               (SyncedProduct.set_inventory quantity
                                  (at_inventorySync env))) ;;
                      ret true
                end
            end
      end
  end.

(** [[...new Set(tags)]]: the first occurrence of each tag, in order. *)
Fixpoint dedupe (seen tags : list string) : list string :=
  match tags with
  | [] => []
  | t :: rest =>
      if array_includes seen t then dedupe seen rest
      else t :: dedupe (t :: seen) rest
  end.

Definition sold_bunjang_marker : string := "[번개장터 판매완료]".

(** [markProductAsDraft(shopifyGid, bunjangPid, platform)].  The call of
    [shopifyService.updateProduct] is one entry of the log, and
    [r_updateProduct] is the outcome of the whole call. *)
Definition markProductAsDraft (env : Env) (shopifyGid bunjangPid : string)
    (platform : string) : M World unit :=
  syncBunjangInventoryToShopify env bunjangPid 0 ;;
  product <- await (r_product env) ;;
  match product with
  | Some p =>
      let title := p_title p in
      let tags := match p_tags p with Some l => l | None => [] end in
      let mark :=
        (platform =? "bunjang")%string
        && negb (includes title sold_bunjang_marker) in
      let newTitle :=
        if mark then sold_bunjang_marker ++ " " ++ title else title in
      let tags := if mark then (tags ++ ["sold_bunjang_only"])%list else tags in
      send (UpdateProduct {| pi_id := shopifyGid; pi_title := newTitle;
                             pi_status := "DRAFT";
                             pi_tags := dedupe [] tags |}) ;;
      await (r_updateProduct env)
  | None => ret tt
  end.

(** [markProductAsSoldOut(shopifyGid, bunjangPid)].  The call of
    [shopifyService.updateProduct] is one entry of the log, and
    [r_updateProduct] is the outcome of the whole call. *)
Definition markProductAsSoldOut (env : Env) (shopifyGid bunjangPid : string)
    : M World unit :=
  syncBunjangInventoryToShopify env bunjangPid 0 ;;
  product <- await (r_product env) ;;
  match product with
  | Some p =>
      let newTitle :=
        if negb (includes (p_title p) "[SOLD OUT]")
        then "[SOLD OUT] " ++ p_title p else p_title p in
      send (UpdateProduct {| pi_id := shopifyGid; pi_title := newTitle;
                             pi_status := "DRAFT";
                             pi_tags := ["sold_out"; "sold_both_platforms"] |}) ;;
      await (r_updateProduct env)
  | None => ret tt
  end.

Record Result := {
  action : option string;
  success : bool;
  message : string
}.

(** [syncedProduct.save()]: the assigned paths are written to the document
    that was read. *)
Definition save (syncedProduct : SyncedProduct.t)
    (assignments : SyncedProduct.t -> SyncedProduct.t) : M World unit :=
  write (Mongo.updateOne
           (fun d => Nat.eqb (SyncedProduct._id d)
                       (SyncedProduct._id syncedProduct))
           assignments).

(** [handleProductSoldStatus(bunjangPid, shopifyGid, soldFrom)]. *)
Definition handleProductSoldStatus (env : Env)
    (bunjangPid shopifyGid soldFrom : string) : M World Result :=
  w <- get ;;
  match Mongo.findOne (SyncedProduct.has_pid bunjangPid) (ledger w) with
  | None => ret {| action := None; success := false; message := EmptyString |}
  | Some syncedProduct =>
      if (soldFrom =? "both")%string then
        markProductAsSoldOut env shopifyGid bunjangPid ;;
        save syncedProduct
          (SyncedProduct.set_sold SyncedProduct.SOLD_OUT SyncedProduct.both
             (at_soldAt env) None) ;;
        ret {| action := Some "marked_sold_out"; success := true;
               message :=
                 "Product marked as SOLD OUT (sold on both platforms)" |}
      else if (soldFrom =? "bunjang")%string then
        markProductAsDraft env shopifyGid bunjangPid "bunjang" ;;
        save syncedProduct
          (SyncedProduct.set_sold SyncedProduct.DRAFT SyncedProduct.bunjang
             (at_soldAt env) (Some (at_bunjangSoldAt env))) ;;
        ret {| action := Some "marked_draft_bunjang"; success := true;
               message := "Product marked as DRAFT (sold only on Bunjang)" |}
      else if (soldFrom =? "shopify")%string then
        syncBunjangInventoryToShopify env bunjangPid 0 ;;
        save syncedProduct
          (SyncedProduct.set_pending (at_shopifySoldAt env)) ;;
        ret {| action := Some "pending_bunjang_order"; success := true;
               message := "Waiting for Bunjang order creation" |}
      else
        ret {| action := None; success := false;
               message := "Unknown sold source" |}
  end.

(** [processOrderCompletion(bunjangPid, bunjangOrderCreated)].  A missing
    [shopifyGid] is handed on as it is; the handler only forwards it (query
    variable, [updateInput.id]), where it is written as the empty string. *)
Definition processOrderCompletion (env : Env) (bunjangPid : string)
    (bunjangOrderCreated : bool) : M World Result :=
  w <- get ;;
  match Mongo.findOne (SyncedProduct.has_pid bunjangPid) (ledger w) with
  | None =>
      ret {| action := None; success := false;
             message := "Product not found" |}
  | Some syncedProduct =>
      let soldFrom :=
        if bunjangOrderCreated then "both"
        else match SyncedProduct.bunjangSoldAt syncedProduct with
             | Some _ => "bunjang"
             | None => "shopify"
             end in
      handleProductSoldStatus env bunjangPid
        (nullish (SyncedProduct.shopifyGid syncedProduct) EmptyString)
        soldFrom
  end.

(** What [checkAndSyncBunjangInventory] reads of the answer of
    [getBunjangProductDetails]. *)
Record Listing := {
  l_status : option string;
  l_quantity : option Z
}.

(** The outcomes of the calls of one invocation of
    [checkAndSyncBunjangInventory]. *)
Record StockEnv := {
  r_productDetails : call (option Listing);
  sync_env : Env
}.

(** [checkAndSyncBunjangInventory(bunjangPid)]. *)
Definition checkAndSyncBunjangInventory (env : StockEnv)
    (bunjangPid : string) : M World Z :=
  try_catch
    (productDetails <- await (r_productDetails env) ;;
     match productDetails with
     | None => ret (-1)
     | Some d =>
         let isAvailable :=
           match l_status d with
           | Some s => (s =? "SELLING")%string
           | None => false
           end
           && match l_quantity d with
              | Some q => 0 <? q
              | None => false
              end in
         let currentStock := if isAvailable then 1 else 0 in
         syncBunjangInventoryToShopify (sync_env env) bunjangPid
           currentStock ;;
         ret currentStock
     end)
    (fun _ => ret (-1)).

(** An entry of [results.errors]: the fixed text, or the message of the
    error that was caught (kept as its code). *)
Inductive BatchError :=
| CouldNotFetchStock
| ErrorMessage (errorCode : option string).

Record BatchResults := {
  b_success : Z;
  b_failed : Z;
  b_errors : list (string * BatchError)
}.

(** One turn of [for (const pid of bunjangPids)]; the pause for rate
    limiting writes nothing. *)
Definition batch_turn (env : StockEnv) (pid : string)
    (results : BatchResults) : M World BatchResults :=
  try_catch
    (stock <- checkAndSyncBunjangInventory env pid ;;
     if 0 <=? stock
     then ret {| b_success := b_success results + 1;
                 b_failed := b_failed results;
                 b_errors := b_errors results |}
     else ret {| b_success := b_success results;
                 b_failed := b_failed results + 1;
                 b_errors :=
                   (b_errors results ++ [(pid, CouldNotFetchStock)])%list |})
    (fun errorCode =>
       ret {| b_success := b_success results;
              b_failed := b_failed results + 1;
              b_errors :=
                (b_errors results ++ [(pid, ErrorMessage errorCode)])%list |}).

(** The loop, from position [i] on; [envs i] scripts the calls made for the
    pid at position [i]. *)
Fixpoint batch_turns (envs : nat -> StockEnv) (i : nat)
    (bunjangPids : list string) (results : BatchResults)
    : M World BatchResults :=
  match bunjangPids with
  | [] => ret results
  | pid :: rest =>
      results' <- batch_turn (envs i) pid results ;;
      batch_turns envs (S i) rest results'
  end.

(** [batchSyncInventory(bunjangPids)]. *)
Definition batchSyncInventory (envs : nat -> StockEnv)
    (bunjangPids : list string) : M World BatchResults :=
  batch_turns envs 0 bunjangPids
    {| b_success := 0; b_failed := 0; b_errors := [] |}.
End Service.

End InventoryService.

(** ** The order orchestrator: [src/services/orderService.js] *)

Module OrderService.
Import JS Remote Eff.
Local Open Scope eff_scope.

(** [config.bunjang.*] and [SKIP_BUNJANG_STATUS_CHECK]. *)
Record Config := {
  orderIdentifierPrefix : option string;
  lowBalanceThreshold : option Z;
  SKIP_STATUS_CHECK : bool
}.

Record LineItem := { product_id : string }.

(** The webhook order; [id] is the REST id as template literals print it. *)
Record ShopifyOrder := {
  id : string;
  admin_graphql_api_id : string;
  line_items : list LineItem
}.

(** What the loop reads of the ledger row (or of the stand-in built from the
    [bunjang_pid:] tag). *)
Record Linked := {
  l_bunjangPid : string;
  l_shopifyGid : option string
}.

Record Details := {
  status : option string;
  saleStatus : option string;
  quantity : option Z
}.

(** The outcomes of the calls made while one line item is processed, one
    field per call site of the loop body. *)
Record ItemEnv := {
  r_findOne : call (option Linked);           (* [SyncedProduct.findOne] *)
  r_productTags : call (option (list string)); (* [response.data?.product?.tags] *)
  r_details : call (option Details);          (* [getBunjangProductDetails] *)
  (* [updateOrder] with the NotFound, NotSelling, NoStock or InvalidResponse
     tags: at most one of these calls is made per item *)
  r_updateOrder_tag : call unit;
  r_payload : call string;                    (* [mapShopifyItemToBunjangOrderPayload] *)
  (* [createBunjangOrderV2]: the [id] of the answer, as [String(id)] *)
  r_createOrder : call (option string);
  r_updateOrder_success : call unit;
  r_pointBalance : call (option Z);           (* [getBunjangPointBalance]: [balance] *)
  r_updateOrder_lowBalance : call unit;
  r_handleSold : call unit;                   (* [inventoryService.handleProductSoldStatus] *)
  r_updateOrder_errorTag : call unit;         (* in the inner [catch] *)
  r_updateOrder_exception : call unit         (* in the outer [catch] *)
}.

(** The outcomes of the calls made once per run. *)
Record RunEnv := {
  r_metafieldQuery : call unit;   (* the GraphQL read inside [getOrderMetafield] *)
  r_updateOrder_final : call unit;
  now_iso : string;
  item_env : nat -> ItemEnv       (* by position in [line_items] *)
}.

(** The storefront order as the orchestrator sees it across runs: the value
    of its [bunjang]/[order_ids] metafield, and the calls sent so far. *)
Record Shop := {
  order_ids : option string;
  sent : list event
}.

(** The state of one run: the storefront side and the two locals
    [createdBunjangOrderIds] and [bunjangOrderSuccessfullyCreatedOverall]. *)
Record Run := {
  shop : Shop;
  createdBunjangOrderIds : list string;
  bunjangOrderSuccessfullyCreatedOverall : bool
}.

Definition send (ev : event) : M Run unit :=
  modify (fun s =>
    {| shop := {| order_ids := order_ids (shop s);
                  sent := (sent (shop s) ++ [ev])%list |};
       createdBunjangOrderIds := createdBunjangOrderIds s;
       bunjangOrderSuccessfullyCreatedOverall :=
         bunjangOrderSuccessfullyCreatedOverall s |}).

(** [createdBunjangOrderIds.push(String(bunjangOrderId));
    bunjangOrderSuccessfullyCreatedOverall = true]. *)
Definition record_created (bunjangOrderId : string) : M Run unit :=
  modify (fun s =>
    {| shop := shop s;
       createdBunjangOrderIds :=
         (createdBunjangOrderIds s ++ [bunjangOrderId])%list;
       bunjangOrderSuccessfullyCreatedOverall := true |}).

(** The storefront stores the [bunjang]/[order_ids] metafield of an accepted
    update. *)
Definition store_order_ids (metafields : list Metafield) : M Run unit :=
  match find (fun m => (mf_namespace m =? "bunjang")%string
                       && (mf_key m =? "order_ids")%string) metafields with
  | Some m =>
      modify (fun s =>
        {| shop := {| order_ids := Some (mf_value m);
                      sent := sent (shop s) |};
           createdBunjangOrderIds := createdBunjangOrderIds s;
           bunjangOrderSuccessfullyCreatedOverall :=
             bunjangOrderSuccessfullyCreatedOverall s |})
  | None => ret tt
  end.

(** [shopifyService.updateOrder({ id, tags, metafields })]. *)
Definition updateOrder (gid : string) (tags : list string)
    (metafields : list Metafield) (outcome : call unit) : M Run unit :=
  send (UpdateOrder gid tags metafields) ;;
  await outcome ;;
  store_order_ids metafields.

(** [shopifyService.getOrderMetafield(gid, "bunjang", "order_ids")]: [null]
    when the read fails. *)
Definition getOrderMetafield (outcome : call unit) : M Run (option string) :=
  try_catch
    (await outcome ;; s <- get ;; ret (order_ids (shop s)))
    (fun _ => ret None).

Definition string_of_Z (z : Z) : string := NilZero.string_of_int (Z.to_int z).
Definition string_of_nat (n : nat) : string :=
  NilZero.string_of_uint (Nat.to_uint n).

(** [a || b] on strings that may be missing. *)
Definition or_else (a : option string) (b : string) : string :=
  match a with
  | Some x => if truthy x then x else b
  | None => b
  end.

(** [tag.split(':')[1]] for a tag that starts with [bunjang_pid:]. *)
Fixpoint until_colon (s : string) : string :=
  match s with
  | EmptyString => EmptyString
  | String c s' => if (c =? ":")%char then EmptyString else String c (until_colon s')
  end.

Definition pid_of_tag (tag : string) : string :=
  until_colon (substring_from 12 tag).

(** How a value prints inside a template literal. *)
Definition print (v : option string) : string :=
  match v with Some x => x | None => "undefined" end.

Inductive Result (json : Type) :=
| AlreadyProcessed (bunjangOrderIds : json)
| Created (bunjangOrderIds : list string)
| NoneCreated.
Arguments AlreadyProcessed {json} bunjangOrderIds.
Arguments Created {json} bunjangOrderIds.
Arguments NoneCreated {json}.

(** The [success] field of the returned object. *)
Definition success {json : Type} (r : Result json) : bool :=
  match r with
  | AlreadyProcessed _ | Created _ => true
  | NoneCreated => false
  end.

Section Orchestrator.
(** [JSON.parse] ([None] where it throws) and [JSON.stringify] on an array
    of strings are not part of the repository. *)
Variable json : Type.
Variable JSON_parse : string -> option json.
Variable JSON_stringify : list string -> string.

Variable config : Config.

Definition bunjangOrderIdentifier (order : ShopifyOrder) : string :=
  or_else (orderIdentifierPrefix config) "BunjangOrder-" ++ id order.

(** Steps 1 and 2 of the loop body: the ledger row of the product, or the
    stand-in built from the product's [bunjang_pid:] tag. *)
Definition resolve (e : ItemEnv) (item : LineItem) : M Run (option Linked) :=
  syncedProduct <- await (r_findOne e) ;;
  match syncedProduct with
  | Some l => ret (Some l)
  | None =>
      try_catch
        (tags <- await (r_productTags e) ;;
         match tags with
         | Some tags =>
             match find (fun tag => startsWith tag "bunjang_pid:") tags with
             | Some bunjangPidTag =>
                 ret (Some {| l_bunjangPid := pid_of_tag bunjangPidTag;
                              l_shopifyGid :=
                                Some ("gid://shopify/Product/"
                                      ++ product_id item) |})
             | None => ret None
             end
         | None => ret None
         end)
        (fun _ => ret None)
  end.

(** Steps 7 to 9, after an order id came back and was recorded. *)
Definition after_created (gid : string) (e : ItemEnv) (l : Linked)
    (bunjangOrderId : string) : M Run unit :=
  let bunjangPid := l_bunjangPid l in
  updateOrder gid
    ["BunjangOrder-" ++ bunjangOrderId; "PID-" ++ bunjangPid ++ "-Success"]
    [] (r_updateOrder_success e) ;;
  try_catch
    (pointBalance <- await (r_pointBalance e) ;;
     match pointBalance with
     | Some balance =>
         let LOW_BALANCE_THRESHOLD :=
           match lowBalanceThreshold config with
           | Some t => if t =? 0 then 1000000 else t
           | None => 1000000
           end in
         if balance <? LOW_BALANCE_THRESHOLD then
           updateOrder gid
             ["LowPointBalance"; "Balance-" ++ string_of_Z balance]
             [] (r_updateOrder_lowBalance e)
         else ret tt
     | None => ret tt
     end)
    (fun _ => ret tt) ;;
  send (HandleProductSoldStatus bunjangPid (l_shopifyGid l) "shopify") ;;
  await (r_handleSold e).

(** Steps 3 to 9: the outer [try] of the loop body. *)
Definition order_item (order : ShopifyOrder) (e : ItemEnv) (l : Linked)
    : M Run unit :=
  let gid := admin_graphql_api_id order in
  let error_tag := bunjangOrderIdentifier order ++ "_Error" in
  let bunjangPid := l_bunjangPid l in
  try_catch
    (bunjangProductDetails <- await (r_details e) ;;
     match bunjangProductDetails with
     | None =>
         updateOrder gid
           [error_tag; "PID-" ++ bunjangPid ++ "-NotFound"]
           [] (r_updateOrder_tag e)
     | Some d =>
         let productStatus :=
           match status d with
           | Some x => if truthy x then Some x else saleStatus d
           | None => saleStatus d
           end in
         let productQuantity :=
           match quantity d with Some q => q | None => 0 end in
         if negb (SKIP_STATUS_CHECK config)
            && negb (match productStatus with
                     | Some x => (x =? "SELLING")%string
                     | None => false
                     end)
         then
           updateOrder gid
             [error_tag;
              "PID-" ++ bunjangPid ++ "-NotSelling-" ++ print productStatus]
             [] (r_updateOrder_tag e)
         else if negb (SKIP_STATUS_CHECK config) && (productQuantity =? 0)
         then
           updateOrder gid
             [error_tag; "PID-" ++ bunjangPid ++ "-NoStock"]
             [] (r_updateOrder_tag e)
         else
           bunjangOrderPayload <- await (r_payload e) ;;
           try_catch
             (send (CreateBunjangOrderV2 bunjangPid bunjangOrderPayload
                      (r_createOrder e)) ;;
              bunjangApiResponse <- await (r_createOrder e) ;;
              match bunjangApiResponse with
              | Some bunjangOrderId =>
                  if truthy bunjangOrderId
                  then
                    record_created bunjangOrderId ;;
                    after_created gid e l bunjangOrderId
                  else
                    updateOrder gid
                      [error_tag; "PID-" ++ bunjangPid ++ "-InvalidResponse"]
                      [] (r_updateOrder_tag e)
              | None =>
                  updateOrder gid
                    [error_tag; "PID-" ++ bunjangPid ++ "-InvalidResponse"]
                    [] (r_updateOrder_tag e)
              end)
             (fun errorCode =>
                updateOrder gid
                  [error_tag;
                   "PID-" ++ bunjangPid ++ "-"
                     ++ or_else errorCode "UNKNOWN_ERROR"]
                  [] (r_updateOrder_errorTag e))
     end)
    (fun _ =>
       updateOrder gid
         [error_tag; "PID-" ++ bunjangPid ++ "-Exception"]
         [] (r_updateOrder_exception e)).

(** One turn of [for (const item of shopifyOrder.line_items)]. *)
Definition process_item (order : ShopifyOrder) (e : ItemEnv)
    (item : LineItem) : M Run unit :=
  syncedProduct <- resolve e item ;;
  match syncedProduct with
  | None => ret tt
  | Some l =>
      if negb (truthy (l_bunjangPid l)) then ret tt
      else order_item order e l
  end.

(** The loop, from position [i] on. *)
Fixpoint process_items (order : ShopifyOrder) (env : RunEnv) (i : nat)
    (items : list LineItem) : M Run unit :=
  match items with
  | [] => ret tt
  | item :: rest =>
      process_item order (item_env env i) item ;;
      process_items order env (S i) rest
  end.

(** The marker check at the head of the function: [Some ids] when the
    function returns early. *)
Definition already_processed (env : RunEnv) : M Run (option json) :=
  try_catch
    (existingMetafield <- getOrderMetafield (r_metafieldQuery env) ;;
     match existingMetafield with
     | Some value =>
         if truthy value then
           match JSON_parse value with
           | Some ids => ret (Some ids)
           | None => throw None
           end
         else ret None
     | None => ret None
     end)
    (fun _ => ret None).

(** The metafield update after the loop. *)
Definition record_order_ids (order : ShopifyOrder) (env : RunEnv)
    : M Run unit :=
  s <- get ;;
  let ids := createdBunjangOrderIds s in
  match ids with
  | [] => ret tt
  | _ :: _ =>
      updateOrder (admin_graphql_api_id order)
        ["BunjangOrderPlaced"; bunjangOrderIdentifier order;
         "Orders-" ++ string_of_nat (List.length ids)]
        [ {| mf_namespace := "bunjang"; mf_key := "order_ids";
             mf_value := JSON_stringify ids; mf_type := "json" |};
          {| mf_namespace := "bunjang"; mf_key := "order_created_at";
             mf_value := now_iso env; mf_type := "date_time" |};
          {| mf_namespace := "bunjang"; mf_key := "order_count";
             mf_value := string_of_nat (List.length ids);
             mf_type := "single_line_text_field" |} ]
        (r_updateOrder_final env)
  end.

Definition run (order : ShopifyOrder) (env : RunEnv)
    : M Run (Result json) :=
  if negb (truthy (id order))
     || negb (truthy (admin_graphql_api_id order))
     || match line_items order with [] => true | _ :: _ => false end
  then throw None                                  (* [ValidationError] *)
  else
    existing <- already_processed env ;;
    match existing with
    | Some ids => ret (AlreadyProcessed ids)
    | None =>
        process_items order env 0 (line_items order) ;;
        record_order_ids order env ;;
        s <- get ;;
        if bunjangOrderSuccessfullyCreatedOverall s
        then ret (Created (createdBunjangOrderIds s))
        else ret NoneCreated
    end.

(** [processShopifyOrderForBunjang(shopifyOrder, jobId)], run against the
    storefront state [before]. *)
Definition processShopifyOrderForBunjang (order : ShopifyOrder)
    (env : RunEnv) (before : Shop) : call (Result json) * Shop :=
  let r := run order env
             {| shop := before; createdBunjangOrderIds := [];
                bunjangOrderSuccessfullyCreatedOverall := false |} in
  (fst r, shop (snd r)).
End Orchestrator.

(** What [testBunjangProductOrder] reads of the product: the listing and
    its prices. *)
Record PricedProduct := {
  listing : Details;
  price : option Z;
  shippingFee : option Z
}.

(** The result of [testBunjangProductOrder]: [{ success: true, ... }], or
    [{ success: false, reason }]. *)
Inductive TestResult := Orderable | Refused (reason : string).

(** [testBunjangProductOrder(bunjangPid)]; [r_product] and [r_balance] are
    the outcomes of [getBunjangProductDetails] and of
    [getBunjangPointBalance] (its [balance]).  A sum with a missing price is
    not a number and compares false. *)
Definition testBunjangProductOrder (r_product : call (option PricedProduct))
    (r_balance : call (option Z)) : TestResult :=
  match r_product with
  | Throws _ => Refused "ERROR"
  | Returns None => Refused "PRODUCT_NOT_FOUND"
  | Returns (Some product) =>
      let status_ :=
        match status (listing product) with
        | Some x => if truthy x then Some x else saleStatus (listing product)
        | None => saleStatus (listing product)
        end in
      if negb (match status_ with
               | Some x => (x =? "SELLING")%string
               | None => false
               end)
      then Refused "NOT_SELLING"
      else if match quantity (listing product) with
              | Some q => q =? 0
              | None => false
              end
      then Refused "NO_STOCK"
      else
        match r_balance with
        | Throws _ => Refused "ERROR"
        | Returns balance =>
            let fee :=
              match shippingFee product with
              | Some f => f
              | None => 0
              end in
            if match balance, price product with
               | Some b, Some p => b <? p + fee
               | _, _ => false
               end
            then Refused "INSUFFICIENT_POINTS"
            else Orderable
        end
  end.

(** The counters of [checkSoldProductsStatus], and the ledger. *)
Record SoldCheck := {
  sc_ledger : list SyncedProduct.t;
  checkedCount : Z;
  needsUpdateCount : Z
}.

(** [inventoryService.restoreProductStatus(bunjangPid, shopifyGid)]: the
    inventory service exports no function of that name, the call throws a
    [TypeError]. *)
Definition restoreProductStatus {St : Type} (bunjangPid : string)
    (shopifyGid : option string) : M St unit :=
  throw None.

(** [shopifyService.updateProductStatus(shopifyGid, status)]: the storefront
    service exports no function of that name, the call throws a
    [TypeError]. *)
Definition updateProductStatus {St : Type} (shopifyGid : option string)
    (status : string) : M St unit :=
  throw None.

(** [SyncedProduct.find({ soldFrom: 'bunjang', shopifyStatus: 'DRAFT' })
    .limit(100)]. *)
Definition sold_on_bunjang_in_draft (c : list SyncedProduct.t)
    : list SyncedProduct.t :=
  firstn 100
    (filter (fun d =>
               match SyncedProduct.soldFrom d, SyncedProduct.shopifyStatus d with
               | Some SyncedProduct.bunjang, Some SyncedProduct.DRAFT => true
               | _, _ => false
               end) c).

(** One turn of the loop of [checkSoldProductsStatus]; [r_details] is the
    outcome of [getBunjangProductDetails] for the product. *)
Definition check_sold_product (r_details : call (option Details))
    (product : SyncedProduct.t) : M SoldCheck unit :=
  try_catch
    (bunjangDetails <- await r_details ;;
     (match bunjangDetails with
      | Some d =>
          if match status d with
             | Some x => (x =? "SELLING")%string
             | None => false
             end
          then
            modify (fun s =>
              {| sc_ledger := sc_ledger s;
                 checkedCount := checkedCount s;
                 needsUpdateCount := needsUpdateCount s + 1 |}) ;;
            restoreProductStatus (SyncedProduct.bunjangPid product)
              (SyncedProduct.shopifyGid product)
          else ret tt
      | None => ret tt
      end) ;;
     modify (fun s =>
       {| sc_ledger := sc_ledger s;
          checkedCount := checkedCount s + 1;
          needsUpdateCount := needsUpdateCount s |}))
    (fun _ => ret tt).

Fixpoint check_sold_products (details : nat -> call (option Details))
    (i : nat) (soldProducts : list SyncedProduct.t) : M SoldCheck unit :=
  match soldProducts with
  | [] => ret tt
  | product :: rest =>
      check_sold_product (details i) product ;;
      check_sold_products details (S i) rest
  end.

(** [checkSoldProductsStatus(jobId)]: the two counters, and the ledger as
    it is left; [details i] scripts the lookup of the product at position
    [i] of the query result. *)
Definition checkSoldProductsStatus (details : nat -> call (option Details))
    (c : list SyncedProduct.t) : call (Z * Z) * list SyncedProduct.t :=
  let r :=
    check_sold_products details 0 (sold_on_bunjang_in_draft c)
      {| sc_ledger := c; checkedCount := 0; needsUpdateCount := 0 |} in
  (match fst r with
   | Returns _ => Returns (checkedCount (snd r), needsUpdateCount (snd r))
   | Throws e => Throws e
   end,
   sc_ledger (snd r)).

(** The result of [archiveOldSoldProducts]. *)
Record Archived := { found : Z; archived : Z; failed : Z }.

(** The ledger and [archivedCount]. *)
Record ArchiveRun := {
  ar_ledger : list SyncedProduct.t;
  archivedCount : Z
}.

(** [soldFrom: { $exists: true }]: the stored document has the key, with a
    value or with [null].  The entry record does not tell a stored [null]
    from a missing key: for an entry without a value, [has_key] says whether
    the stored document has the key (the schema default writes [null] when
    Mongoose creates a document; a document written past the schema may
    lack it). *)
Definition soldFrom_exists (has_key : SyncedProduct.t -> bool)
    (d : SyncedProduct.t) : bool :=
  match SyncedProduct.soldFrom d with
  | Some _ => true
  | None => has_key d
  end.

(** [SyncedProduct.find({ soldFrom: { $exists: true },
    soldAt: { $lt: cutoffDate }, shopifyStatus: 'DRAFT' }).limit(100)]. *)
Definition old_sold_in_draft (has_key : SyncedProduct.t -> bool)
    (cutoffDate : Z) (c : list SyncedProduct.t) : list SyncedProduct.t :=
  firstn 100
    (filter (fun d =>
               soldFrom_exists has_key d
               && Mongo.date_lt (SyncedProduct.soldAt d) cutoffDate
               && match SyncedProduct.shopifyStatus d with
                  | Some SyncedProduct.DRAFT => true
                  | _ => false
                  end) c).

(** [product.shopifyStatus = 'ARCHIVED'] ([archivedAt] is no path of the
    schema). *)
Definition set_archived (d : SyncedProduct.t) : SyncedProduct.t :=
  SyncedProduct.mk (SyncedProduct._id d) (SyncedProduct.bunjangPid d)
    (SyncedProduct.shopifyGid d) (Some SyncedProduct.ARCHIVED)
    (SyncedProduct.bunjangQuantity d) (SyncedProduct.lastInventorySyncAt d)
    (SyncedProduct.syncErrorMessage d) (SyncedProduct.processingStatus d)
    (SyncedProduct.processingStartedAt d) (SyncedProduct.processingJobId d)
    (SyncedProduct.processingLockExpiry d) (SyncedProduct.soldFrom d)
    (SyncedProduct.soldAt d) (SyncedProduct.shopifySoldAt d)
    (SyncedProduct.bunjangSoldAt d) (SyncedProduct.pendingBunjangOrder d)
    (SyncedProduct.bunjangOrderIds d) (SyncedProduct.createdAt d)
    (SyncedProduct.updatedAt d).

(** One turn of the loop of [archiveOldSoldProducts]. *)
Definition archive_product (product : SyncedProduct.t) : M ArchiveRun unit :=
  try_catch
    (updateProductStatus (SyncedProduct.shopifyGid product) "ARCHIVED" ;;
     modify (fun s =>
       {| ar_ledger :=
            Mongo.updateOne
              (fun d => Nat.eqb (SyncedProduct._id d)
                          (SyncedProduct._id product))
              set_archived (ar_ledger s);
          archivedCount := archivedCount s |}) ;;
     modify (fun s =>
       {| ar_ledger := ar_ledger s;
          archivedCount := archivedCount s + 1 |}))
    (fun _ => ret tt).

Fixpoint archive_products (oldProducts : list SyncedProduct.t)
    : M ArchiveRun unit :=
  match oldProducts with
  | [] => ret tt
  | product :: rest => archive_product product ;; archive_products rest
  end.

(** [archiveOldSoldProducts(daysOld)]; [cutoffDate] is the instant that the
    calendar arithmetic on [new Date()] gives, and [has_key] tells which
    stored documents have a [soldFrom] key. *)
Definition archiveOldSoldProducts (has_key : SyncedProduct.t -> bool)
    (cutoffDate : Z) (c : list SyncedProduct.t)
    : call Archived * list SyncedProduct.t :=
  let oldProducts := old_sold_in_draft has_key cutoffDate c in
  let r := archive_products oldProducts
             {| ar_ledger := c; archivedCount := 0 |} in
  (match fst r with
   | Returns _ =>
       Returns {| found := Z.of_nat (List.length oldProducts);
                  archived := archivedCount (snd r);
                  failed := Z.of_nat (List.length oldProducts)
                            - archivedCount (snd r) |}
   | Throws e => Throws e
   end,
   ar_ledger (snd r)).

(** The order ids for which [createBunjangOrderV2] answered with an id,
    among the calls of a log. *)
Fixpoint created_orders (events : list event) : list string :=
  match events with
  | [] => []
  | CreateBunjangOrderV2 _ _ (Returns (Some bunjangOrderId)) :: rest =>
      if truthy bunjangOrderId then bunjangOrderId :: created_orders rest
      else created_orders rest
  | _ :: rest => created_orders rest
  end.

End OrderService.

(** ** [JSON] on arrays of plain strings

    A concrete reading of [JSON.stringify] and [JSON.parse] on the texts the
    orchestrator writes into the [order_ids] metafield: arrays of strings
    that hold no quote, no backslash and no control character (order ids are
    such strings).  It is used to run the functions above on examples; any
    text outside this fragment is answered [None]. *)

Module JsonIds.

Definition quote : ascii := "034"%char.
Definition backslash : ascii := "092"%char.

Definition plain_char (c : ascii) : bool :=
  negb (c =? quote)%char && negb (c =? backslash)%char
  && (32 <=? nat_of_ascii c)%nat.

Fixpoint join (parts : list string) : string :=
  match parts with
  | [] => EmptyString
  | [p] => p
  | p :: rest => p ++ "," ++ join rest
  end.

Definition quoted (s : string) : string :=
  String quote (s ++ String quote EmptyString).

Definition stringify (ids : list string) : string :=
  "[" ++ join (map quoted ids) ++ "]".

Inductive state :=
| Start                                   (* expects the opening bracket *)
| Open                                    (* after the bracket *)
| InString (done : list string) (current : string)
| AfterString (done : list string)
| AfterComma (done : list string)
| Closed (done : list string).

Fixpoint rev_string (s acc : string) : string :=
  match s with
  | EmptyString => acc
  | String c s' => rev_string s' (String c acc)
  end.

Definition step (st : state) (c : ascii) : option state :=
  match st with
  | Start => if (c =? "[")%char then Some Open else None
  | Open =>
      if (c =? "]")%char then Some (Closed [])
      else if (c =? quote)%char then Some (InString [] EmptyString)
      else None
  | InString done current =>
      if (c =? quote)%char
      then Some (AfterString (done ++ [rev_string current EmptyString])%list)
      else if plain_char c then Some (InString done (String c current))
      else None
  | AfterString done =>
      if (c =? ",")%char then Some (AfterComma done)
      else if (c =? "]")%char then Some (Closed done)
      else None
  | AfterComma done =>
      if (c =? quote)%char then Some (InString done EmptyString) else None
  | Closed _ => None
  end.

Fixpoint scan (st : state) (s : string) : option (list string) :=
  match s with
  | EmptyString => match st with Closed done => Some done | _ => None end
  | String c s' =>
      match step st c with
      | Some st' => scan st' s'
      | None => None
      end
  end.

Definition parse (text : string) : option (list string) := scan Start text.

(** [ids.length > 0] on a parsed array. *)
Definition length_positive (ids : list string) : option bool :=
  Some (match ids with [] => false | _ :: _ => true end).

End JsonIds.

(** ** A worked order

    Order 77 with three line items; the listing of the second one is not
    found on the source marketplace, the other two are bought.  Used to run
    the orchestrator on concrete inputs. *)

Module Scenario.
Import JS OrderService.

Definition config : Config :=
  {| orderIdentifierPrefix := None;
     lowBalanceThreshold := None;
     SKIP_STATUS_CHECK := false |}.

Definition order : ShopifyOrder :=
  {| id := "77";
     admin_graphql_api_id := "gid://shopify/Order/77";
     line_items :=
       [ {| product_id := "1" |}; {| product_id := "2" |};
         {| product_id := "3" |} ] |}.

(** The product is linked to [pid]; the listing is the one given; an order
    is created with id [bunjangOrderId]; every other call succeeds. *)
Definition item (pid : string) (listing : option Details)
    (bunjangOrderId : string) : ItemEnv :=
  {| r_findOne :=
       Returns (Some {| l_bunjangPid := pid;
                        l_shopifyGid := Some ("gid://shopify/Product/" ++ pid) |});
     r_productTags := Returns None;
     r_details := Returns listing;
     r_updateOrder_tag := Returns tt;
     r_payload := Returns "payload";
     r_createOrder := Returns (Some bunjangOrderId);
     r_updateOrder_success := Returns tt;
     r_pointBalance := Returns (Some 5000000);
     r_updateOrder_lowBalance := Returns tt;
     r_handleSold := Returns tt;
     r_updateOrder_errorTag := Returns tt;
     r_updateOrder_exception := Returns tt |}.

Definition selling : option Details :=
  Some {| status := Some "SELLING"; saleStatus := None; quantity := Some 1 |}.

(** A delivery of the order event: whether the read of the marker goes
    through, and the order ids the source marketplace hands out for the
    first and the third item. *)
Definition delivery (metafieldQuery : call unit) (first third : string)
    : RunEnv :=
  {| r_metafieldQuery := metafieldQuery;
     r_updateOrder_final := Returns tt;
     now_iso := "2026-01-01T00:00:00.000Z";
     item_env := fun i =>
       match i with
       | 0%nat => item "101" selling first
       | 1%nat => item "102" None "unused"
       | _ => item "103" selling third
       end |}.

Definition fresh : Shop := {| order_ids := None; sent := [] |}.

Definition process : ShopifyOrder -> RunEnv -> Shop
                     -> call (Result (list string)) * Shop :=
  processShopifyOrderForBunjang (list string) JsonIds.parse JsonIds.stringify
    config.

End Scenario.

(** ** Vocabulary of the statements *)

Section LedgerVocabulary.
Import SyncedProduct.

(** The filter of [acquireLock], as the condition it encodes. *)
Definition no_lock_in_the_way (now : Z) (e : t) : Prop :=
  processingStatus e <> processing \/
  exists expiry, processingLockExpiry e = Some expiry /\ expiry < now.

(** The entry is in [processing] and went there before [bound]. *)
Definition started_before (bound : Z) (e : t) : Prop :=
  processingStatus e = processing /\
  exists started, processingStartedAt e = Some started /\ started < bound.

(** An entry without the three fields that a sweep writes. *)
Definition outside_sweep (d : t) :=
  (_id d, bunjangPid d, shopifyGid d, shopifyStatus d, bunjangQuantity d,
   lastInventorySyncAt d,
   (processingStartedAt d, processingJobId d, processingLockExpiry d),
   (soldFrom d, soldAt d, shopifySoldAt d, bunjangSoldAt d),
   (pendingBunjangOrder d, bunjangOrderIds d, createdAt d)).

(** What a sweep does to each entry: an entry that went to [processing]
    before [bound] is failed with the message and stamped, every other
    entry is left as it is. *)
Definition swept (bound updated : Z) (msg : string) (before after : t)
    : Prop :=
  (started_before bound before ->
     processingStatus after = failed /\
     syncErrorMessage after = Some msg /\
     updatedAt after = updated /\
     outside_sweep after = outside_sweep before)
  /\ (~ started_before bound before -> after = before).

(** The rows a scan meets first for their key: a row is dropped when its key
    was seen before. *)
Fixpoint first_per_pid (seen : list string) (c : list t) : list t :=
  match c with
  | [] => []
  | d :: c' =>
      if existsb (String.eqb (bunjangPid d)) seen
      then first_per_pid seen c'
      else d :: first_per_pid (bunjangPid d :: seen) c'
  end.

(** What [$push] collected for a key. *)
Definition pushed_for {A : Type} (k : string) (gs : list (Group A)) : list A :=
  match find (fun g => (g_id g =? k)%string) gs with
  | Some g => g_pushed g
  | None => []
  end.

(** The ids the loop deletes. *)
Definition removed_ids (gs : list (Group nat)) : list nat :=
  flat_map (fun g => tl (g_pushed g)) gs.

(** The row is the first one scanned with its key. *)
Definition first_scanned (c : list t) (d : t) : bool :=
  match filter (has_pid (bunjangPid d)) c with
  | x :: _ => Nat.eqb (_id x) (_id d)
  | [] => false
  end.

(** The groups have distinct keys and count what they pushed. *)
Definition well_grouped {A : Type} (gs : list (Group A)) : Prop :=
  NoDup (map g_id gs) /\
  Forall (fun g => g_count g = List.length (g_pushed g)) gs.

End LedgerVocabulary.

Section CancellationVocabulary.
Import JS Remote OrderCancellationService.

(** The line item is a Bunjang item ([BJ-] sku). *)
Definition bunjang_item (lineItem : LineItem) : bool :=
  match li_sku lineItem with
  | Some sku => truthy sku && startsWith sku "BJ-"
  | None => false
  end.

Definition pid_of_item (lineItem : LineItem) : string :=
  match li_sku lineItem with
  | Some sku => substring_from 3 sku
  | None => EmptyString
  end.

(** The line item is failed: a Bunjang item for which the order carries a
    tag containing [PID-<pid>-] and [Error]. *)
Definition failed_item (tags : list string) (lineItem : LineItem) : bool :=
  bunjang_item lineItem && hasErrorTag tags (pid_of_item lineItem).

(** The line item succeeded: a Bunjang item that is not failed, on an order
    with recorded downstream order ids. *)
Definition succeeded_item (tags : list string) (recorded : bool)
    (lineItem : LineItem) : bool :=
  bunjang_item lineItem && negb (hasErrorTag tags (pid_of_item lineItem))
  && recorded.

(** Following the spec's words (failed: the line items that carry an error
    tag): the line item is a Bunjang item, and a tag of the order names it
    ([PID-<pid>-]) and matches one of the configured error-tag patterns. *)
Definition carries_error_tag (tags : list string) (lineItem : LineItem)
    : bool :=
  bunjang_item lineItem
  && existsb (fun tag => includes tag ("PID-" ++ pid_of_item lineItem ++ "-")
                         && matches_error_pattern tag) tags.

Definition is_OrderCancel (ev : event) : bool :=
  match ev with OrderCancel _ _ _ _ _ => true | _ => false end.

Definition is_RefundCreate (ev : event) : bool :=
  match ev with RefundCreate _ _ _ _ => true | _ => false end.

Definition refund_of (lineItem : LineItem) : RefundLineItem :=
  {| lineItemId := li_id lineItem;
     rl_quantity := li_quantity lineItem;
     restockType := "NO_RESTOCK" |}.

End CancellationVocabulary.

Section InventoryVocabulary.
Import JS Remote Eff InventoryService.

(** What the sale state machine reads of an entry. *)
Definition sale_view (d : SyncedProduct.t)
    : nat * option SyncedProduct.SoldFrom * option SyncedProduct.ShopifyStatus :=
  (SyncedProduct._id d, SyncedProduct.soldFrom d,
   SyncedProduct.shopifyStatus d).

Definition inventory_event (ev : event) : bool :=
  match ev with
  | InventoryActivate _ _ | InventorySetOnHandQuantities _ _ _ => true
  | _ => false
  end.

(** Every quantity sent to [inventorySetOnHandQuantities] is 1. *)
Definition sets_one (ev : event) : bool :=
  match ev with
  | InventorySetOnHandQuantities _ _ q => q =? 1
  | _ => true
  end.

Definition sold_out_input (shopifyGid : string) (p : Product) : ProductInput :=
  {| pi_id := shopifyGid;
     pi_title := if negb (includes (p_title p) "[SOLD OUT]")
                 then "[SOLD OUT] " ++ p_title p else p_title p;
     pi_status := "DRAFT";
     pi_tags := ["sold_out"; "sold_both_platforms"] |}.

End InventoryVocabulary.

Section OrchestratorVocabulary.
Import JS Remote Eff OrderService.

(** The two locals agree with the log: the recorded ids are the ids
    answered by [createBunjangOrderV2] since the run started, and the flag
    is set exactly when there is one. *)
Definition consistent (base : list string) (s : Run) : Prop :=
  created_orders (sent (shop s)) = (base ++ createdBunjangOrderIds s)%list
  /\ bunjangOrderSuccessfullyCreatedOverall s
     = match createdBunjangOrderIds s with [] => false | _ :: _ => true end.

Definition preserves {A : Type} (base : list string) (m : M Run A) : Prop :=
  forall s, consistent base s -> consistent base (snd (m s)).

Definition valid_order (order : ShopifyOrder) : Prop :=
  truthy (id order) = true /\
  truthy (admin_graphql_api_id order) = true /\
  line_items order <> [].

End OrchestratorVocabulary.

Section LockVocabulary.
Import SyncedProduct.

(** What an entry says about the product and its sale, outside the lock
    fields and the error message. *)
Definition outside_lock (d : t) :=
  (_id d, bunjangPid d, shopifyGid d, bunjangQuantity d,
   (soldFrom d, shopifyStatus d, soldAt d, shopifySoldAt d, bunjangSoldAt d),
   (pendingBunjangOrder d, bunjangOrderIds d),
   (displayStatus d, isSoldOut d, needsBunjangOrder d)).

(** The rows of a key, in scan order. *)
Definition rows_of (k : string) (c : list t) : list t := filter (has_pid k) c.

(** Groups in the order of [$sort: { count: -1 }]. *)
Definition by_count_descending {A : Type} (g h : Group A) : Prop :=
  (g_count h <= g_count g)%nat.

End LockVocabulary.

Section StockVocabulary.
Import JS Remote Eff InventoryService.

(** The events appended to the log by a computation started in [w]. *)
Definition appended (w w' : World) (new : list event) : Prop :=
  log w' = (log w ++ new)%list.

(** Only inventory calls, each with quantity 1. *)
Definition inventory_calls_of_one (new : list event) : bool :=
  forallb inventory_event new && forallb sets_one new.

(** The listing is on sale with stock:
    [status === 'SELLING' && quantity > 0]. *)
Definition selling_with_stock (d : Listing) : Prop :=
  l_status d = Some "SELLING" /\ exists q, l_quantity d = Some q /\ 0 < q.

End StockVocabulary.

Section SaleVocabulary.
Import JS Remote Eff InventoryService SyncedProduct.
(** The entry after a sale of the given origin was handled at [env]. *)
Definition sold_state (env : Env) (origin : string) (before after : t)
    : Prop :=
  _id after = _id before /\ bunjangPid after = bunjangPid before /\
  if (origin =? "both")%string then
    soldFrom after = Some both /\ shopifyStatus after = Some SOLD_OUT /\
    soldAt after = Some (at_soldAt env) /\
    bunjangSoldAt after = bunjangSoldAt before /\
    isSoldOut after = true /\
    displayStatus after = "SOLD OUT (Both Platforms)"
  else if (origin =? "bunjang")%string then
    soldFrom after = Some bunjang /\ shopifyStatus after = Some DRAFT /\
    soldAt after = Some (at_soldAt env) /\
    bunjangSoldAt after = Some (at_bunjangSoldAt env) /\
    isSoldOut after = false /\
    displayStatus after = "Sold on Bunjang"
  else
    soldFrom after = soldFrom before /\
    shopifyStatus after = shopifyStatus before /\
    soldAt after = soldAt before /\
    pendingBunjangOrder after = true /\
    shopifySoldAt after = Some (at_shopifySoldAt env) /\
    displayStatus after = displayStatus before /\
    needsBunjangOrder after
    = match bunjangOrderIds before with [] => true | _ :: _ => false end.
End SaleVocabulary.

Section MarkerVocabulary.
Import JS Remote Eff InventoryService.
(** What the product update of a sale says, given the listing [p] that was
    read: the sale marker stands in the title once, and the tags are those
    of the case. *)
Definition marked (origin : string) (p : Product) (input : ProductInput)
    : Prop :=
  let tags := match p_tags p with Some l => l | None => [] end in
  if (origin =? "both")%string then
    includes (pi_title input) "[SOLD OUT]" = true /\
    (includes (p_title p) "[SOLD OUT]" = true -> pi_title input = p_title p) /\
    pi_tags input = ["sold_out"; "sold_both_platforms"]
  else
    includes (pi_title input) sold_bunjang_marker = true /\
    (includes (p_title p) sold_bunjang_marker = true ->
     pi_title input = p_title p) /\
    (forall t, In t (pi_tags input) <->
               In t tags \/
               (t = "sold_bunjang_only" /\
                includes (p_title p) sold_bunjang_marker = false)).

(** What a sale sends: inventory calls of quantity 1, then at most one
    product update, which drafts the listing [shopifyGid]. *)
Definition sale_calls (env : Env) (shopifyGid origin : string)
    (new : list event) : Prop :=
  exists inv rest,
    new = (inv ++ rest)%list /\
    inventory_calls_of_one inv = true /\
    (rest = [] \/
     exists p input,
       r_product env = Returns (Some p) /\
       rest = [UpdateProduct input] /\
       pi_id input = shopifyGid /\ pi_status input = "DRAFT" /\
       NoDup (pi_tags input) /\ marked origin p input).

(** The inputs of the calls of [shopifyService.updateProduct] among the
    calls of a log, in order. *)
Definition product_updates (new : list event) : list ProductInput :=
  flat_map (fun ev => match ev with
                      | UpdateProduct input => [input]
                      | _ => []
                      end) new.

(** The product update that a sale asks for: none, or one call of
    [shopifyService.updateProduct], for the listing [p] that was read, which
    drafts the listing [shopifyGid]. *)
Definition sale_update (env : Env) (shopifyGid origin : string)
    (new : list event) : Prop :=
  product_updates new = [] \/
  exists p input,
    r_product env = Returns (Some p) /\
    product_updates new = [input] /\
    pi_id input = shopifyGid /\ pi_status input = "DRAFT" /\
    NoDup (pi_tags input) /\ marked origin p input.
End MarkerVocabulary.

Section EngineVocabulary.
Import JS Remote OrderCancellationService.

(** The call cancels or refunds. *)
Definition mutation (ev : event) : bool :=
  is_OrderCancel ev || is_RefundCreate ev.

(** The call restocks nothing. *)
Definition no_restock (ev : event) : bool :=
  match ev with
  | OrderCancel _ _ _ _ restock => negb restock
  | RefundCreate _ _ _ refundLineItems =>
      forallb (fun item => (restockType item =? "NO_RESTOCK")%string)
        refundLineItems
  | _ => true
  end.

(** The tagging that follows an accepted mutation: the order's own tags are
    sent again, with the added ones behind them. *)
Definition tagging (order : Order) (rest : list event) : Prop :=
  rest = [] \/
  exists added metafields,
    added <> [] /\
    rest = [UpdateOrder (o_id order) (o_tags order ++ added) metafields].

(** The fields of the object that [processShopifyOrderForBunjang] returns,
    as [handleOrderCreationResult] reads them; [ids_length] is [.length] of
    the parsed marker. *)
Definition result_fields {json : Type} (ids_length : json -> option Z)
    (r : OrderService.Result json) : OrderCancellationHooks.BunjangResult :=
  match r with
  | OrderService.AlreadyProcessed ids =>
      {| OrderCancellationHooks.br_success := true;
         OrderCancellationHooks.br_length := ids_length ids |}
  | OrderService.Created ids =>
      {| OrderCancellationHooks.br_success := true;
         OrderCancellationHooks.br_length := Some (Z.of_nat (List.length ids)) |}
  | OrderService.NoneCreated =>
      {| OrderCancellationHooks.br_success := false;
         OrderCancellationHooks.br_length := None |}
  end.

End EngineVocabulary.

Section PatternVocabulary.
Import JS.

(** No line terminator in the text: none of line feed, carriage return,
    U+2028 and U+2029 starts anywhere in it. *)
Fixpoint one_line (m : string) : bool :=
  match m with
  | EmptyString => true
  | String _ m' => negb (line_terminator_at m) && one_line m'
  end.

(** The character is none of the bytes that continue a line or paragraph
    separator (128, 168, 169); every ASCII character is such. *)
Definition plain (c : ascii) : bool :=
  negb ((c =? "128")%char || (c =? "168")%char || (c =? "169")%char).

(** The text starts with a plain character. *)
Definition plain_start (b : string) : bool :=
  match b with
  | String c _ => plain c
  | EmptyString => false
  end.

(** No [*] in the pattern text. *)
Fixpoint star_free (p : string) : bool :=
  match p with
  | EmptyString => true
  | String c p' => negb (c =? "*")%char && star_free p'
  end.

(** The tag holds [a], and behind it on the same line [b]. *)
Definition between (a b tag : string) : Prop :=
  exists x m y, tag = x ++ a ++ m ++ b ++ y /\ one_line m = true.

(** The tag holds [a]. *)
Definition contains (a tag : string) : Prop :=
  exists x y, tag = x ++ a ++ y.
End PatternVocabulary.

Section RunVocabulary.
Import JS Remote Eff OrderService.

(** What the orchestrator sends while it processes [order]: requests for
    downstream orders, sold-status calls of origin [shopify], and tag
    updates of the order itself; a tag update is a failure tagging that
    carries the error tag of the order, or one of the three taggings of a
    success. *)
Definition orchestrated (config : Config) (order : ShopifyOrder)
    (ev : event) : Prop :=
  match ev with
  | CreateBunjangOrderV2 _ _ _ => True
  | HandleProductSoldStatus _ _ soldFrom => soldFrom = "shopify"
  | UpdateOrder gid tags metafields =>
      gid = admin_graphql_api_id order /\
      ((In (bunjangOrderIdentifier config order ++ "_Error") tags
        /\ metafields = [])
       \/ (exists bunjangOrderId bunjangPid,
             tags = ["BunjangOrder-" ++ bunjangOrderId;
                     "PID-" ++ bunjangPid ++ "-Success"]
             /\ metafields = [])
       \/ (exists balance,
             tags = ["LowPointBalance"; "Balance-" ++ balance]
             /\ metafields = [])
       \/ (exists count,
             tags = ["BunjangOrderPlaced"; bunjangOrderIdentifier config order;
                     "Orders-" ++ count]))
  | _ => False
  end.

(** The computation only adds events that satisfy [P] to the log. *)
Definition sends_only (P : event -> Prop) {A : Type} (m : M Run A) : Prop :=
  forall s, exists new,
    sent (shop (snd (m s))) = (sent (shop s) ++ new)%list /\ Forall P new.

(** The computation returns, whatever the state it starts in. *)
Definition returns {A : Type} (m : M Run A) : Prop :=
  forall s, exists a, fst (m s) = Returns a.
End RunVocabulary.

Section CharVocabulary.
(** The character occurs in the text. *)
Fixpoint has_char (c : ascii) (s : string) : bool :=
  match s with
  | EmptyString => false
  | String c' s' => (c =? c')%char || has_char c s'
  end.
End CharVocabulary.

Section FailureTagVocabulary.
(** The tags of one failure tagging of the orchestrator, for the product
    [fst failure] and the kind of failure [snd failure] ([NotFound],
    [NoStock], [Exception], an error code, ...). *)
Definition failure_tags (config : OrderService.Config)
    (shopifyOrder : OrderService.ShopifyOrder) (failure : string * string)
    : list string :=
  [OrderService.bunjangOrderIdentifier config shopifyOrder ++ "_Error";
   "PID-" ++ fst failure ++ "-" ++ snd failure].
End FailureTagVocabulary.

Section BatchVocabulary.
Import JS Remote OrderCancellationService.

(** The counters agree with the calls sent: every order counted as cancelled
    had its mutation sent, at most one mutation was sent per processed
    order, and nothing is restocked. *)
Definition batch_consistent (acc : Batch * list event) : Prop :=
  (cancelledCount (fst acc) <= List.length (filter mutation (snd acc))
   <= processedCount (fst acc))%nat
  /\ forallb no_restock (snd acc) = true.

(** The search ends with the request made after [last] others: the earlier
    ones were answered with a further page, this one fails or is answered
    with the last page. *)
Definition last_page (pages : nat -> call Page) (last : nat) : Prop :=
  (forall n, (n < last)%nat ->
     exists page, pages n = Returns page /\ hasNextPage page = true)
  /\ ((exists e, pages last = Throws e) \/
      exists page, pages last = Returns page /\ hasNextPage page = false).
End BatchVocabulary.

Section SoldCheckVocabulary.
Import JS OrderService.

(** The lookup answered with a listing whose [status] is [SELLING]. *)
Definition back_on_sale (lookup : call (option Details)) : bool :=
  match lookup with
  | Returns (Some d) =>
      match status d with
      | Some x => (x =? "SELLING")%string
      | None => false
      end
  | _ => false
  end.

(** The lookup was answered, and not with a listing on sale. *)
Definition still_sold (lookup : call (option Details)) : bool :=
  match lookup with
  | Returns _ => negb (back_on_sale lookup)
  | Throws _ => false
  end.

(** The lookups of the first [n] products of the query result. *)
Definition lookups (details : nat -> call (option Details)) (from n : nat)
    : list (call (option Details)) :=
  map details (seq from n).

Definition count {A : Type} (p : A -> bool) (l : list A) : Z :=
  Z.of_nat (List.length (filter p l)).
End SoldCheckVocabulary.

Section FirstCallVocabulary.
Import JS Remote Eff OrderService.
(** The first call that the computation sends is [ev]. *)
Definition sends_first (ev : event) {A : Type} (m : M Run A) : Prop :=
  forall s, exists rest,
    sent (shop (snd (m s))) = List.app (sent (shop s)) (ev :: rest).
End FirstCallVocabulary.

Section IndependenceVocabulary.
Import JS Remote Eff OrderService.







End IndependenceVocabulary.

(** * Properties *)

(** ** Collections *)

Section CollectionFacts.
Context {Doc : Type}.
Variables (filter : Doc -> bool) (update : Doc -> Doc).

Lemma findOneAndUpdate_Some (c : list Doc) (d' : Doc) :
  fst (Mongo.findOneAndUpdate filter update c) = Some d' ->
  exists pre d post,
    c = (pre ++ d :: post)%list /\
    Forall (fun x => filter x = false) pre /\
    filter d = true /\ d' = update d /\
    snd (Mongo.findOneAndUpdate filter update c) = (pre ++ d' :: post)%list.
Proof.
  induction c as [|x c IH]; simpl; [discriminate|].
  destruct (filter x) eqn:Hx; simpl.
  - intros [= <-]. exists [], x, c. simpl. auto.
  - intros H. destruct (IH H) as (pre & d & post & -> & Hpre & Hd & -> & Hs).
    exists (x :: pre), d, post. simpl. rewrite Hs. auto.
Qed.

Lemma findOneAndUpdate_None (c : list Doc) :
  fst (Mongo.findOneAndUpdate filter update c) = None <->
  Forall (fun x => filter x = false) c.
Proof.
  induction c as [|x c IH]; simpl.
  - split; auto.
  - destruct (filter x) eqn:Hx; simpl.
    + split; [discriminate|]. intros H. inversion H; congruence.
    + rewrite IH. split; intros H; [auto | now inversion H].
Qed.

Lemma findOneAndUpdate_None_same (c : list Doc) :
  fst (Mongo.findOneAndUpdate filter update c) = None ->
  snd (Mongo.findOneAndUpdate filter update c) = c.
Proof.
  induction c as [|x c IH]; simpl; auto.
  destruct (filter x); simpl; [discriminate|].
  intros H. now rewrite IH.
Qed.

Lemma NoDup_map_same {A B : Type} (f : A -> B) (l : list A) (a b : A) :
  NoDup (map f l) -> In a l -> In b l -> f a = f b -> a = b.
Proof.
  induction l as [|x l IH]; simpl; [tauto|].
  intros Hnd [->|Ha] [->|Hb] E; inversion Hnd as [|? ? Hx Hnd']; subst; auto.
  - exfalso. apply Hx. rewrite E. now apply in_map.
  - exfalso. apply Hx. rewrite <- E. now apply in_map.
Qed.
End CollectionFacts.

(** ** The lock *)

Section LockFacts.
Import SyncedProduct.

Lemma ProcessingStatus_eqb_eq (a b : ProcessingStatus) :
  ProcessingStatus_eqb a b = true <-> a = b.
Proof. destruct a, b; simpl; split; congruence. Qed.

Lemma date_lt_spec (field : option Z) (bound : Z) :
  Mongo.date_lt field bound = true <->
  exists x, field = Some x /\ x < bound.
Proof.
  destruct field as [d|]; simpl.
  - rewrite Z.ltb_lt. split.
    + intros H. now exists d.
    + now intros (x & [= ->] & H).
  - split; [discriminate | now intros (x & H & _)].
Qed.

Lemma lock_free_spec (now : Z) (e : t) :
  lock_free now e = true <-> no_lock_in_the_way now e.
Proof.
  unfold lock_free, no_lock_in_the_way.
  rewrite orb_true_iff, negb_true_iff, date_lt_spec.
  split; intros [H|H]; auto; left.
  - intros E. apply ProcessingStatus_eqb_eq in E. congruence.
  - destruct (ProcessingStatus_eqb _ _) eqn:E; auto.
    apply ProcessingStatus_eqb_eq in E. contradiction.
Qed.

Lemma lock_free_not_locked (now : Z) (e : t) :
  lock_free now e = true -> isLocked now e = false.
Proof.
  unfold lock_free, isLocked.
  destruct (ProcessingStatus_eqb _ _); simpl; auto.
  destruct (processingLockExpiry e) as [x|]; simpl; auto.
  rewrite Z.ltb_lt. intros H. apply Z.ltb_ge. lia.
Qed.

Lemma has_pid_spec (pid : string) (e : t) :
  has_pid pid e = true <-> bunjangPid e = pid.
Proof. unfold has_pid. apply String.eqb_eq. Qed.
End LockFacts.

(** C1. [acquireLock(sourcePid, jobId, ttl)] returns a ledger entry only when
    no valid lock stands on that entry: its [processingStatus] is not
    [processing], or its stored [processingLockExpiry] is already in the past
    (and then [isLocked] is false).  On success the one entry it selected is
    rewritten in a single conditional update with
    [processingStatus = processing], [processingJobId = jobId] and
    [processingLockExpiry = now + ttl]; the rest of the ledger is untouched.
    Otherwise (no entry for the key passes the condition) it returns [null]
    and writes nothing. *)
Theorem acquireLock_conditional_update :
  forall (clock : SyncedProduct.LockClock) (pid jobId : string) (ttl : Z)
         (c : list SyncedProduct.t),
    let r := SyncedProduct.acquireLock clock pid jobId ttl c in
    (forall e', fst r = Some e' ->
       exists pre e post,
         c = (pre ++ e :: post)%list /\
         snd r = (pre ++ e' :: post)%list /\
         SyncedProduct.bunjangPid e = pid /\
         no_lock_in_the_way (SyncedProduct.at_filter clock) e /\
         SyncedProduct.isLocked (SyncedProduct.at_filter clock) e = false /\
         SyncedProduct.bunjangPid e' = pid /\
         SyncedProduct.processingStatus e' = SyncedProduct.processing /\
         SyncedProduct.processingJobId e' = Some jobId /\
         SyncedProduct.processingLockExpiry e'
           = Some (SyncedProduct.at_expiry clock + ttl))
    /\ (fst r = None <->
        forall e, In e c -> SyncedProduct.bunjangPid e = pid ->
                  ~ no_lock_in_the_way (SyncedProduct.at_filter clock) e)
    /\ (fst r = None -> snd r = c).
Proof.
  intros clock pid jobId ttl c r. subst r. unfold SyncedProduct.acquireLock.
  split; [|split].
  - intros e' H.
    destruct (findOneAndUpdate_Some _ _ _ _ H)
      as (pre & e & post & Hc & _ & Hf & He' & Hs).
    apply andb_true_iff in Hf as [Hpid Hfree].
    apply has_pid_spec in Hpid.
    exists pre, e, post. subst e'. simpl.
    repeat split; auto.
    + now apply lock_free_spec.
    + now apply lock_free_not_locked.
  - rewrite findOneAndUpdate_None, Forall_forall. split.
    + intros H e Hin Hpid Hfree.
      specialize (H e Hin). apply andb_false_iff in H as [H|H].
      * apply has_pid_spec in Hpid. congruence.
      * apply lock_free_spec in Hfree. congruence.
    + intros H e Hin.
      destruct (SyncedProduct.has_pid pid e) eqn:Hpid; simpl; auto.
      destruct (SyncedProduct.lock_free _ e) eqn:Hfree; auto.
      exfalso. apply (H e Hin).
      * now apply has_pid_spec.
      * now apply lock_free_spec.
  - apply findOneAndUpdate_None_same.
Qed.

(** The filter of [acquireLock] is narrower than the negation of [isLocked]:
    a [processing] entry whose expiry is exactly the instant of the call, or
    has no expiry at all, is not locked and still cannot be acquired. *)
Example acquireLock_boundary :
  let at_ := {| SyncedProduct.at_expiry := 1000;
                SyncedProduct.at_filter := 1000;
                SyncedProduct.at_started := 1000 |} in
  let e expiry :=
    SyncedProduct.mk 1 "342351629" None None 1 None None
      SyncedProduct.processing (Some 0) (Some "job-1") expiry
      None None None None false [] 0 0 in
  SyncedProduct.isLocked 1000 (e (Some 1000)) = false /\
  fst (SyncedProduct.acquireLock at_ "342351629" "job-2" 60000 [e (Some 1000)])
    = None /\
  SyncedProduct.isLocked 1000 (e None) = false /\
  fst (SyncedProduct.acquireLock at_ "342351629" "job-2" 60000 [e None]) = None.
Proof. repeat split; reflexivity. Qed.

(** A lock cycle with the default duration: a first job takes the lock, a
    second one is refused while the lock is held, and gets it once the lock
    is released. *)
Example lock_cycle :
  let at_ now := {| SyncedProduct.at_expiry := now;
                    SyncedProduct.at_filter := now;
                    SyncedProduct.at_started := now |} in
  let e :=
    SyncedProduct.mk 1 "342351629" None None 1 None None
      SyncedProduct.idle None None None
      None None None None false [] 0 0 in
  let ttl := SyncedProduct.default_lockDurationMs in
  let first := SyncedProduct.acquireLock (at_ 1000) "342351629" "job-1" ttl [e] in
  let second :=
    SyncedProduct.acquireLock (at_ 2000) "342351629" "job-2" ttl (snd first) in
  let released :=
    SyncedProduct.releaseLock "342351629" SyncedProduct.idle (snd second) in
  let third :=
    SyncedProduct.acquireLock (at_ 3000) "342351629" "job-2" ttl
      (snd released) in
  option_map SyncedProduct.processingLockExpiry (fst first) = Some (Some 61000)
  /\ fst second = None /\ snd second = snd first
  /\ option_map SyncedProduct.processingJobId (fst third)
     = Some (Some "job-2").
Proof. cbv zeta. repeat split; reflexivity. Qed.

(** ** The sweeper *)

Section SweepFacts.
Import SyncedProduct.

Lemma stuck_spec (bound : Z) (e : t) :
  stuck bound e = true <->
  processingStatus e = processing /\
  exists started, processingStartedAt e = Some started /\ started < bound.
Proof.
  unfold stuck.
  now rewrite andb_true_iff, ProcessingStatus_eqb_eq, date_lt_spec.
Qed.

Lemma stuck_started_before (bound : Z) (e : t) :
  stuck bound e = true <-> started_before bound e.
Proof. apply stuck_spec. Qed.

Lemma stuck_set_failed (bound updated : Z) (msg : string) (e : t) :
  stuck bound (set_failed updated msg e) = false.
Proof. reflexivity. Qed.

Lemma stuck_mono (b1 b2 : Z) (e : t) :
  b1 <= b2 -> stuck b1 e = true -> stuck b2 e = true.
Proof.
  intros Hle. rewrite !stuck_spec.
  intros (Hp & s & Hs & Hlt). split; auto. exists s. split; auto. lia.
Qed.

(** A second sweep finds nothing to do, unless an entry has become stuck
    since the first: the entries the first sweep failed are not matched
    again, and keep its stamp. *)
Lemma sweep_again (b1 b2 u1 u2 : Z) (msg1 msg2 : string) (c : list t) :
  (forall e, In e c -> started_before b2 e -> started_before b1 e) ->
  Mongo.updateMany (stuck b2) (set_failed u2 msg2)
    (Mongo.updateMany (stuck b1) (set_failed u1 msg1) c)
  = Mongo.updateMany (stuck b1) (set_failed u1 msg1) c.
Proof.
  intros H. unfold Mongo.updateMany. rewrite map_map.
  apply map_ext_in. intros e Hin.
  destruct (stuck b1 e) eqn:H1.
  - now rewrite stuck_set_failed.
  - destruct (stuck b2 e) eqn:H2; auto.
    apply stuck_started_before in H2. apply (H e Hin) in H2.
    apply stuck_started_before in H2. congruence.
Qed.

Lemma sweep_pointwise (bound updated : Z) (msg : string) (c : list t) :
  Forall2 (swept bound updated msg) c
    (Mongo.updateMany (stuck bound) (set_failed updated msg) c).
Proof.
  induction c as [|e c IH]; simpl; constructor; auto.
  unfold swept. destruct (stuck bound e) eqn:E; split; intros H.
  - repeat split.
  - apply stuck_started_before in E. contradiction.
  - apply stuck_started_before in H. congruence.
  - reflexivity.
Qed.
End SweepFacts.

(** C6, as stated, fails.  With the default 30 minute timeout and the clock
    at 2,000,000 ms: an entry that went [processing] at 0 and whose lock
    expires at 10,000,000 (a lock that [isLocked] still reports as held) is
    rewritten to [failed]; and an entry that went [processing] at 1,990,000
    and whose lock expired at 1,995,000 (no longer valid) is left as it is. *)
Lemma sweeper_ignores_lock_expiry :
  let entry id started expiry :=
    SyncedProduct.mk id "342351629" None None 1 None None
      SyncedProduct.processing (Some started) (Some "job-1") (Some expiry)
      None None None None false [] 0 0 in
  let now := 2000000 in
  let updated := 2000001 in
  let held := entry 1%nat 0 10000000 in
  let expired := entry 2%nat 1990000 1995000 in
  (SyncedProduct.isLocked now held = true /\
   SyncedProduct.cleanupStuckProcessing now updated
     SyncedProduct.default_timeoutMs [held] <> [held] /\
   CleanupJob.cleanupStuckProcessing now updated [held] <> [held])
  /\
  (SyncedProduct.isLocked now expired = false /\
   SyncedProduct.cleanupStuckProcessing now updated
     SyncedProduct.default_timeoutMs [expired] = [expired] /\
   CleanupJob.cleanupStuckProcessing now updated [expired] = [expired]).
Proof.
  cbv zeta. repeat split; try reflexivity; intros H; discriminate H.
Qed.

(** C6, amended.  Both sweepers rewrite to [failed], with their error
    message, exactly the entries whose [processingStatus] is [processing]
    and whose [processingStartedAt] is earlier than [now - timeout]; every
    other entry is left as it is.  They are idempotent: a second run, at the
    same instant or at a later one at which no further entry has become
    stuck, leaves the state as the first run left it.
    [processingLockExpiry] is not read: an entry whose lock expiry is still
    in the future is spared when that expiry lies within [timeout] of the
    start of processing, not otherwise. *)
Theorem sweeper_idempotent_on_start_time :
  forall (now updated now' updated' timeoutMs : Z)
         (c : list SyncedProduct.t),
    (* no entry has become stuck between the first run and the second *)
    (forall e, In e c ->
       started_before (now' - timeoutMs) e ->
       started_before (now - timeoutMs) e) ->
    (* the static method of the model *)
    (SyncedProduct.cleanupStuckProcessing now' updated' timeoutMs
       (SyncedProduct.cleanupStuckProcessing now updated timeoutMs c)
     = SyncedProduct.cleanupStuckProcessing now updated timeoutMs c
     /\ Forall2 (swept (now - timeoutMs) updated
                   "Processing timeout - cleaned up by system")
          c (SyncedProduct.cleanupStuckProcessing now updated timeoutMs c))
    /\
    (* the function of the job file, whose timeout is 30 minutes *)
    (timeoutMs = 30 * 60 * 1000 ->
     CleanupJob.cleanupStuckProcessing now' updated'
       (CleanupJob.cleanupStuckProcessing now updated c)
     = CleanupJob.cleanupStuckProcessing now updated c
     /\ Forall2 (swept (now - timeoutMs) updated "Processing timeout")
          c (CleanupJob.cleanupStuckProcessing now updated c))
    /\
    (* a lock no longer than the timeout, not yet expired, is spared *)
    (forall (e : SyncedProduct.t) (started expiry : Z),
       SyncedProduct.processingStartedAt e = Some started ->
       SyncedProduct.processingLockExpiry e = Some expiry ->
       expiry <= started + timeoutMs ->
       now < expiry ->
       ~ started_before (now - timeoutMs) e).
Proof.
  intros now updated now' updated' timeoutMs c Hquiet.
  unfold SyncedProduct.cleanupStuckProcessing, CleanupJob.cleanupStuckProcessing.
  cbv zeta. split; [split|split].
  - now apply sweep_again.
  - apply sweep_pointwise.
  - intros ->. split.
    + now apply sweep_again.
    + apply sweep_pointwise.
  - intros e started expiry Hs Hx Hshort Hlive (_ & s & Hs' & Hlt).
    rewrite Hs in Hs'. injection Hs' as <-. lia.
Qed.

Lemma sweeper_idempotent_on_start_time_witness :
  let entry id status started expiry :=
    SyncedProduct.mk id "342351629" None None 1 None None
      status started (Some "job-1") expiry
      None None None None false [] 0 0 in
  let stuck_one :=
    entry 1%nat SyncedProduct.processing (Some 0) (Some 60000) in
  let recent :=
    entry 2%nat SyncedProduct.processing (Some 1990000) (Some 2050000) in
  let idle_one := entry 3%nat SyncedProduct.idle None None in
  let c := [stuck_one; recent; idle_one] in
  let first := SyncedProduct.cleanupStuckProcessing 2000000 2000001 1800000 c in
  SyncedProduct.cleanupStuckProcessing 2000500 2000501 1800000 first = first
  /\ Forall2 (swept (2000000 - 1800000) 2000001
                "Processing timeout - cleaned up by system") c first
  /\ map SyncedProduct.processingStatus first
     = [SyncedProduct.failed; SyncedProduct.processing; SyncedProduct.idle].
Proof.
  intros entry stuck_one recent idle_one c first.
  assert (Hquiet : forall e, In e c ->
            started_before (2000500 - 1800000) e ->
            started_before (2000000 - 1800000) e).
  { intros e [<-|[<-|[<-|[]]]] (Hp & t & Ht & Hlt).
    - split; [reflexivity|]. exists 0. split; [reflexivity|lia].
    - injection Ht as <-. lia.
    - discriminate Hp. }
  destruct (sweeper_idempotent_on_start_time 2000000 2000001 2000500 2000501
              1800000 c Hquiet) as ((Hagain & Hswept) & _).
  split; [exact Hagain|]. split; [exact Hswept|]. reflexivity.
Defined.

(** ** Duplicate rows *)

Section DuplicateFacts.
Import SyncedProduct CleanupJob.

Lemma fold_remove_group (gs : list (Group nat)) (c : list t) :
  fold_left remove_group gs c
  = filter (fun d => negb (id_in (removed_ids gs) d)) c.
Proof.
  revert c. induction gs as [|g gs IH]; intros c; simpl.
  - induction c as [|d c IHc]; simpl; auto. now rewrite <- IHc.
  - rewrite IH. unfold remove_group, Mongo.deleteMany.
    induction c as [|d c IHc]; simpl; auto.
    assert (E : id_in (tl (g_pushed g) ++ removed_ids gs) d
                = id_in (tl (g_pushed g)) d || id_in (removed_ids gs) d).
    { unfold id_in. apply existsb_app. }
    rewrite E.
    destruct (id_in (tl (g_pushed g)) d); simpl; auto.
    destruct (id_in (removed_ids gs) d); simpl; auto. now rewrite IHc.
Qed.

Lemma pushed_for_push {A : Type} (k p : string) (x : A) (gs : list (Group A)) :
  pushed_for k (group_push p x gs)
  = if (p =? k)%string then (pushed_for k gs ++ [x])%list else pushed_for k gs.
Proof.
  unfold pushed_for. induction gs as [|g gs IH]; simpl.
  - destruct (p =? k)%string; reflexivity.
  - destruct (g_id g =? p)%string eqn:E; simpl.
    + apply String.eqb_eq in E. rewrite E.
      destruct (p =? k)%string; reflexivity.
    + destruct (g_id g =? k)%string eqn:E2; auto.
      apply String.eqb_eq in E2. rewrite <- E2, String.eqb_sym, E.
      reflexivity.
Qed.

Lemma pushed_for_fold {A : Type} (f : t -> A) (k : string) (c : list t) :
  forall gs,
    pushed_for k (fold_left (fun gs d => group_push (bunjangPid d) (f d) gs) c gs)
    = (pushed_for k gs ++ map f (filter (has_pid k) c))%list.
Proof.
  induction c as [|d c IH]; intros gs; simpl.
  - now rewrite app_nil_r.
  - rewrite IH, pushed_for_push. unfold has_pid at 2.
    destruct (bunjangPid d =? k)%string; simpl; auto.
    now rewrite <- app_assoc.
Qed.

Lemma group_push_keys {A : Type} (p : string) (x : A) (gs : list (Group A)) :
  forall k, In k (map g_id (group_push p x gs)) <->
            k = p \/ In k (map g_id gs).
Proof.
  induction gs as [|g gs IH]; intros k; simpl.
  - intuition.
  - destruct (g_id g =? p)%string eqn:E; simpl.
    + apply String.eqb_eq in E. subst. intuition.
    + rewrite IH. intuition.
Qed.

Lemma well_grouped_push {A : Type} (p : string) (x : A) (gs : list (Group A)) :
  well_grouped gs -> well_grouped (group_push p x gs).
Proof.
  intros [Hnd Hc]. induction gs as [|g gs IH]; simpl.
  - split; repeat constructor. simpl. tauto.
  - inversion Hnd as [|? ? Hg Hnd']; subst.
    inversion Hc as [|? ? Hcg Hc']; subst.
    destruct (g_id g =? p)%string eqn:E.
    + apply String.eqb_eq in E. subst p. split; simpl.
      * constructor; auto.
      * constructor; auto. simpl. rewrite length_app. simpl. lia.
    + destruct (IH Hnd' Hc') as [IH1 IH2]. split; simpl.
      * constructor; auto. rewrite group_push_keys. intros [Heq|H]; auto.
        rewrite Heq, String.eqb_refl in E. discriminate.
      * constructor; auto.
Qed.

Lemma well_grouped_fold {A : Type} (f : t -> A) (c : list t) :
  forall gs, well_grouped gs ->
    well_grouped (fold_left (fun gs d => group_push (bunjangPid d) (f d) gs) c gs).
Proof.
  induction c as [|d c IH]; intros gs H; simpl; auto.
  apply IH. now apply well_grouped_push.
Qed.

Lemma pushed_for_own {A : Type} (gs : list (Group A)) (g : Group A) :
  NoDup (map g_id gs) -> In g gs -> pushed_for (g_id g) gs = g_pushed g.
Proof.
  unfold pushed_for. induction gs as [|h gs IH]; simpl; [tauto|].
  intros Hnd [->|Hin].
  - now rewrite String.eqb_refl.
  - inversion Hnd as [|? ? Hh Hnd']; subst.
    destruct (g_id h =? g_id g)%string eqn:E; auto.
    apply String.eqb_eq in E. exfalso. apply Hh. rewrite E. now apply in_map.
Qed.

Lemma pushed_for_some {A : Type} (k : string) (gs : list (Group A)) :
  pushed_for k gs = [] \/ exists g, In g gs /\ pushed_for k gs = g_pushed g.
Proof.
  unfold pushed_for. destruct (find _ gs) as [g|] eqn:F; auto.
  right. exists g. split; auto. now apply find_some in F.
Qed.

(** An id is deleted exactly when it stands, for some key, behind the first
    id pushed for that key. *)
Lemma removed_ids_spec (c : list t) (id : nat) :
  In id (removed_ids (match_duplicates (group_by_pid _id c))) <->
  exists k, In id (tl (map _id (filter (has_pid k) c))).
Proof.
  pose proof (well_grouped_fold _id c [] (conj (NoDup_nil _) (Forall_nil _)))
    as [Hnd Hc].
  fold (group_by_pid _id c) in Hnd, Hc.
  assert (Hp : forall k, pushed_for k (group_by_pid _id c)
                         = map _id (filter (has_pid k) c)).
  { intros k. unfold group_by_pid. now rewrite pushed_for_fold. }
  unfold removed_ids, match_duplicates. rewrite in_flat_map. split.
  - intros (g & Hg & Hin). apply filter_In in Hg as [Hg _].
    exists (g_id g). rewrite <- Hp, pushed_for_own; auto.
  - intros (k & Hin). rewrite <- Hp in Hin.
    destruct (pushed_for_some k (group_by_pid _id c)) as [E|(g & Hg & E)].
    + rewrite E in Hin. destruct Hin.
    + exists g. rewrite E in Hin. split; auto.
      apply filter_In. split; auto.
      rewrite Forall_forall in Hc. rewrite (Hc g Hg).
      destruct (g_pushed g) as [|a [|b l]]; simpl in *; tauto.
Qed.

(** Rows selected from a ledger with distinct ids have distinct ids. *)
Lemma distinct_ids_filter (selected : t -> bool) (c : list t) :
  NoDup (map _id c) -> NoDup (map _id (filter selected c)).
Proof.
  induction c as [|d c IH]; simpl; auto.
  intros Hnd. inversion Hnd as [|? ? Hfresh Hrest]; subst.
  destruct (selected d); simpl; auto.
  constructor; auto. intros Hin. apply Hfresh.
  apply in_map_iff in Hin as (d' & Hid & Hin).
  apply filter_In in Hin as [Hin _]. rewrite <- Hid. now apply in_map.
Qed.

(** With distinct ids, a row is deleted exactly when it is not the first
    one scanned with its key. *)
Lemma removed_iff_not_first (c : list t) (d : t) :
  NoDup (map _id c) -> In d c ->
  id_in (removed_ids (match_duplicates (group_by_pid _id c))) d
  = negb (first_scanned c d).
Proof.
  intros Hnd Hd.
  assert (Hmine : In d (filter (has_pid (bunjangPid d)) c)).
  { apply filter_In. split; auto. unfold has_pid. apply String.eqb_refl. }
  pose proof (distinct_ids_filter (has_pid (bunjangPid d)) c Hnd) as Hnd'.
  unfold first_scanned.
  destruct (id_in _ d) eqn:E.
  - unfold id_in in E. apply existsb_exists in E as (i & Hi & Hid).
    apply Nat.eqb_eq in Hid. subst i.
    apply removed_ids_spec in Hi as (k & Hk).
    assert (Hkd : k = bunjangPid d).
    { assert (H : In (_id d) (map _id (filter (has_pid k) c))).
      { destruct (map _id (filter (has_pid k) c)); simpl in *; auto. }
      apply in_map_iff in H as (d' & Hid & Hin).
      apply filter_In in Hin as [Hin Hpid].
      assert (d' = d) by (apply (NoDup_map_same _id c); auto). subst d'.
      unfold has_pid in Hpid. apply String.eqb_eq in Hpid. auto. }
    subst k. destruct (filter (has_pid (bunjangPid d)) c) as [|x rest];
      simpl in *; [tauto|].
    inversion Hnd' as [|? ? Hx _]; subst.
    destruct (Nat.eqb (_id x) (_id d)) eqn:Ex; auto.
    apply Nat.eqb_eq in Ex. rewrite Ex in Hx. contradiction.
  - destruct (filter (has_pid (bunjangPid d)) c) as [|x rest] eqn:F;
      simpl in *; [tauto|].
    destruct (Nat.eqb (_id x) (_id d)) eqn:Ex; auto. exfalso.
    destruct Hmine as [->|Hin]; [now rewrite Nat.eqb_refl in Ex|].
    assert (Hrem : In (_id d)
              (removed_ids (match_duplicates (group_by_pid _id c)))).
    { apply removed_ids_spec. exists (bunjangPid d). rewrite F. simpl.
      now apply in_map. }
    assert (Hb : id_in (removed_ids (match_duplicates (group_by_pid _id c))) d
                 = true).
    { unfold id_in. apply existsb_exists. exists (_id d). split; auto.
      apply Nat.eqb_refl. }
    congruence.
Qed.

Lemma existsb_false_filter {A : Type} (p : A -> bool) (l : list A) :
  existsb p l = false -> filter p l = [].
Proof.
  induction l as [|x l IH]; simpl; auto.
  destruct (p x); simpl; [discriminate | auto].
Qed.

Lemma first_scanned_scan (suf : list t) :
  forall (pre : list t) (seen : list string),
    NoDup (map _id (pre ++ suf)) ->
    (forall k, existsb (String.eqb k) seen = existsb (has_pid k) pre) ->
    filter (first_scanned (pre ++ suf)) suf = first_per_pid seen suf.
Proof.
  induction suf as [|d suf IH]; intros pre seen Hnd Hseen; simpl; auto.
  assert (Hc : (pre ++ d :: suf = (pre ++ [d]) ++ suf)%list)
    by now rewrite <- app_assoc.
  assert (Hf : filter (has_pid (bunjangPid d)) (pre ++ d :: suf)
               = (filter (has_pid (bunjangPid d)) pre
                  ++ d :: filter (has_pid (bunjangPid d)) suf)%list).
  { rewrite filter_app. simpl. unfold has_pid at 2.
    now rewrite String.eqb_refl. }
  unfold first_scanned at 1. rewrite Hf, Hseen.
  destruct (existsb (has_pid (bunjangPid d)) pre) eqn:E.
  - apply existsb_exists in E as (x & Hx & Hpx).
    assert (Hin : In x (filter (has_pid (bunjangPid d)) pre))
      by (apply filter_In; auto).
    destruct (filter (has_pid (bunjangPid d)) pre) as [|y rest] eqn:F;
      [destruct Hin|]. simpl.
    assert (Hy : In y pre).
    { apply (proj1 (filter_In (has_pid (bunjangPid d)) y pre)).
      rewrite F. now left. }
    destruct (Nat.eqb (_id y) (_id d)) eqn:Ey.
    + exfalso. apply Nat.eqb_eq in Ey.
      rewrite map_app in Hnd. simpl in Hnd.
      apply NoDup_remove_2 in Hnd. apply Hnd. apply in_or_app. left.
      rewrite <- Ey. now apply in_map.
    + rewrite Hc. apply IH; [now rewrite <- Hc|].
      intros k. rewrite existsb_app. simpl. rewrite orb_false_r, Hseen.
      destruct (has_pid k d) eqn:Ek; [|now rewrite orb_false_r].
      rewrite orb_true_r. unfold has_pid in Ek. apply String.eqb_eq in Ek.
      subst k. apply existsb_exists. now exists x.
  - rewrite (existsb_false_filter _ _ E). simpl. rewrite Nat.eqb_refl.
    f_equal. rewrite Hc. apply IH; [now rewrite <- Hc|].
    intros k. rewrite existsb_app. simpl. rewrite orb_false_r, Hseen.
    unfold has_pid at 2. rewrite (String.eqb_sym k). apply orb_comm.
Qed.

(** What the duplicate resolution does, for a ledger with distinct ids: it
    keeps, for every key, the first row scanned and deletes the others. *)
Lemma findAndRemoveDuplicates_keeps_first (c : list t) :
  NoDup (map _id c) ->
  findAndRemoveDuplicates c = first_per_pid [] c.
Proof.
  intros Hnd. unfold findAndRemoveDuplicates. rewrite fold_remove_group.
  rewrite <- (first_scanned_scan c [] []); auto.
  apply filter_ext_in. intros d Hd.
  rewrite removed_iff_not_first; auto. apply negb_involutive.
Qed.
End DuplicateFacts.

(** C9 at a failing input.  Two rows share the key [342351629]; the second
    one scanned is the most recently updated ([updatedAt] 200 against 100).
    The clean-up keeps the head of the pushed ids, that is the first row
    scanned, and deletes the most recently updated one. *)
Theorem duplicates_keep_first_scanned :
  let row id updated :=
    SyncedProduct.mk id "342351629" None None 1 None None
      SyncedProduct.idle None None None
      None None None None false [] 50 updated in
  let older := row 1%nat 100 in
  let newer := row 2%nat 200 in
  SyncedProduct.updatedAt older < SyncedProduct.updatedAt newer /\
  SyncedProduct.findDuplicates [older; newer]
    = [ {| SyncedProduct.g_id := "342351629";
           SyncedProduct.g_count := 2;
           SyncedProduct.g_pushed := [(1%nat, 50); (2%nat, 50)] |} ] /\
  SyncedProduct.match_duplicates
    (SyncedProduct.group_by_pid SyncedProduct._id [older; newer])
    = [ {| SyncedProduct.g_id := "342351629";
           SyncedProduct.g_count := 2;
           SyncedProduct.g_pushed := [1%nat; 2%nat] |} ] /\
  CleanupJob.findAndRemoveDuplicates [older; newer] = [older].
Proof. cbv zeta. repeat split; reflexivity. Qed.

(** ** The error-tag check *)

Section ErrorCheckFacts.
Import JS OrderCancellationService.

Lemma match_and_push_spec (patterns : list string) (tag : string)
    (errors : list string) :
  match_and_push patterns tag errors
  = if existsb (fun pattern => RegExp_test pattern tag) patterns
    then (true, (errors ++ [tag])%list) else (false, errors).
Proof.
  induction patterns as [|p ps IH]; simpl; auto.
  destruct (RegExp_test p tag); simpl; auto.
Qed.

Lemma some_match_and_push (tags errors : list string) :
  Array_some (match_and_push errorTagPatterns) tags errors
  = match find matches_error_pattern tags with
    | Some first => (true, (errors ++ [first])%list)
    | None => (false, errors)
    end.
Proof.
  induction tags as [|tag tags IH]; cbn [Array_some find]; auto.
  rewrite match_and_push_spec. fold (matches_error_pattern tag).
  destruct (matches_error_pattern tag); cbn [fst snd]; auto.
Qed.

Lemma checkBunjangOrderErrors_find (tags : list string) :
  checkBunjangOrderErrors tags
  = match find matches_error_pattern tags with
    | Some first => {| hasError := true; errorTypes := [first] |}
    | None => {| hasError := false; errorTypes := [] |}
    end.
Proof.
  unfold checkBunjangOrderErrors. rewrite some_match_and_push.
  destruct (find matches_error_pattern tags); reflexivity.
Qed.
End ErrorCheckFacts.

(** C10. For every tag array, [checkBunjangOrderErrors] returns
    [hasError = true] if and only if some tag matches one of the configured
    patterns; [errorTypes] holds at most one element, the first matching tag
    in array order, however many tags match; and the urgency test of
    [handleOrderUpdate], which scans [errorTypes], is decided by that first
    matching new tag alone. *)
Theorem checkBunjangOrderErrors_first_match_only :
  (forall tags : list string,
     let errorCheck := OrderCancellationService.checkBunjangOrderErrors tags in
     (OrderCancellationService.hasError errorCheck = true <->
      exists tag, In tag tags /\
                  OrderCancellationService.matches_error_pattern tag = true)
     /\ OrderCancellationService.errorTypes errorCheck
        = match find OrderCancellationService.matches_error_pattern tags with
          | Some first => [first]
          | None => []
          end
     /\ (List.length (OrderCancellationService.errorTypes errorCheck) <= 1)%nat)
  /\
  (forall (order : OrderCancellationHooks.UpdatedOrder)
          (previousTags : list string),
     let newTags :=
       filter (fun tag => negb (JS.array_includes previousTags tag))
         (OrderCancellationHooks.tags order) in
     match OrderCancellationHooks.handleOrderUpdate order previousTags,
           find OrderCancellationService.matches_error_pattern newTags with
     | Some job, Some first =>
         OrderCancellationHooks.s_errorTypes job = [first] /\
         OrderCancellationHooks.s_isUrgent job
           = OrderCancellationHooks.urgent_tag first /\
         OrderCancellationHooks.s_delay job
           = (if OrderCancellationHooks.urgent_tag first then 0 else 60000)
     | None, None => True
     | _, _ => False
     end).
Proof.
  split.
  - intros tags errorCheck. subst errorCheck.
    rewrite checkBunjangOrderErrors_find.
    repeat split.
    + destruct (find _ tags) as [first|] eqn:F; simpl; [|discriminate].
      intros _. apply find_some in F. now exists first.
    + intros (tag & Hin & Hm).
      destruct (find _ tags) as [first|] eqn:F; simpl; auto.
      apply (find_none _ _ F) in Hin. congruence.
    + destruct (find _ tags); reflexivity.
    + destruct (find _ tags); simpl; lia.
  - intros order previousTags newTags.
    unfold OrderCancellationHooks.handleOrderUpdate.
    fold newTags. rewrite checkBunjangOrderErrors_find.
    destruct (find _ newTags) as [first|]; simpl; auto.
    rewrite orb_false_r. auto.
Qed.

(** Two new tags match, the urgent one comes second: only the first is
    reported, and the job is scheduled as not urgent, a minute later. *)
Example urgent_tag_hidden_behind_first_match :
  let order :=
    {| OrderCancellationHooks.admin_graphql_api_id := "gid://shopify/Order/1";
       OrderCancellationHooks.id := "1";
       OrderCancellationHooks.tags :=
         ["PID-342351629-NotFound"; "URGENT-InsufficientPoints"] |} in
  OrderCancellationService.checkBunjangOrderErrors
    (OrderCancellationHooks.tags order)
  = {| OrderCancellationService.hasError := true;
       OrderCancellationService.errorTypes := ["PID-342351629-NotFound"] |}
  /\ OrderCancellationHooks.handleOrderUpdate order []
     = Some {| OrderCancellationHooks.s_orderId := "gid://shopify/Order/1";
               OrderCancellationHooks.s_errorTypes := ["PID-342351629-NotFound"];
               OrderCancellationHooks.s_isUrgent := false;
               OrderCancellationHooks.s_delay := 60000 |}.
Proof. split; reflexivity. Qed.

(** ** The cancellation decision *)

Section CancellationFacts.
Import JS Remote OrderCancellationService.

Lemma classify_spec (tags : list string) (recorded : bool)
    (acc : list LineItem * list LineItem) (lineItem : LineItem) :
  classify tags recorded acc lineItem
  = ((fst acc ++ filter (failed_item tags) [lineItem])%list,
     (snd acc ++ filter (succeeded_item tags recorded) [lineItem])%list).
Proof.
  unfold classify, failed_item, succeeded_item, bunjang_item, pid_of_item.
  destruct acc as [f s]. cbn [fst snd filter].
  destruct (li_sku lineItem) as [sku|]; cbn [andb].
  - destruct (truthy sku && startsWith sku "BJ-"); cbn [andb].
    + destruct (hasErrorTag tags (substring_from 3 sku)); cbn [andb negb].
      * now rewrite app_nil_r.
      * destruct recorded; now rewrite !app_nil_r.
    + now rewrite !app_nil_r.
  - now rewrite !app_nil_r.
Qed.

Lemma fold_classify (tags : list string) (recorded : bool)
    (items : list LineItem) (acc : list LineItem * list LineItem) :
  fold_left (classify tags recorded) items acc
  = ((fst acc ++ filter (failed_item tags) items)%list,
     (snd acc ++ filter (succeeded_item tags recorded) items)%list).
Proof.
  revert acc. induction items as [|x items IH]; intros acc; simpl.
  - rewrite !app_nil_r. now destruct acc.
  - rewrite IH, classify_spec. cbn [fst snd].
    rewrite <- !app_assoc. f_equal; f_equal; simpl;
      [destruct (failed_item tags x) | destruct (succeeded_item tags recorded x)];
      reflexivity.
Qed.

Lemma partition_items_spec (order : Order) (recorded : bool) :
  partition_items order recorded
  = (filter (failed_item (o_tags order)) (lineItems order),
     filter (succeeded_item (o_tags order) recorded) (lineItems order)).
Proof. unfold partition_items. now rewrite fold_classify. Qed.

Lemma nonempty_filter {A : Type} (f : A -> bool) (l : list A) :
  nonempty (filter f l) = existsb f l.
Proof.
  induction l as [|x l IH]; simpl; auto.
  destruct (f x); simpl; auto.
Qed.

Lemma all_failed_none_succeeded (tags : list string) (recorded : bool)
    (items : list LineItem) :
  forallb (failed_item tags) items = true ->
  existsb (succeeded_item tags recorded) items = false.
Proof.
  induction items as [|x items IH]; simpl; auto.
  rewrite andb_true_iff. intros [Hx Hall]. rewrite (IH Hall), orb_false_r.
  unfold failed_item, succeeded_item in *.
  apply andb_true_iff in Hx as [-> ->]. reflexivity.
Qed.

Variable config : Config.

Lemma cancelEntireOrder_sends (env : Env) (order : Order)
    (options : Options) :
  exists rest,
    snd (cancelEntireOrder config env order options)
    = OrderCancel (o_id order)
        (nullish (opt_notifyCustomer options) (notifyCustomer config))
        "OTHER"
        (nullish (opt_autoRefund options) (autoRefund config))
        false :: rest
    /\ existsb is_RefundCreate rest = false
    /\ existsb is_OrderCancel rest = false.
Proof.
  unfold cancelEntireOrder.
  destruct (r_orderCancel env) as [response|e]; [|now exists []].
  destruct (nonempty _); [now exists []|].
  destruct (job response); [|now exists []].
  destruct (r_updateOrder env); eexists; repeat split; reflexivity.
Qed.

Lemma cancelFailedLineItems_sends (env : Env) (order : Order)
    (items : list LineItem) (options : Options) :
  exists rest,
    snd (cancelFailedLineItems config env order items options)
    = RefundCreate (o_id order)
        "Automatic refund due to Bunjang order creation failure"
        (nullish (opt_notifyCustomer options) (notifyCustomer config))
        (map refund_of items) :: rest
    /\ existsb is_RefundCreate rest = false
    /\ existsb is_OrderCancel rest = false.
Proof.
  unfold cancelFailedLineItems.
  destruct (r_refundCreate env) as [response|e]; [|now exists []].
  destruct (nonempty _); [now exists []|].
  destruct (refund response); [|now exists []].
  destruct (r_updateOrder env); eexists; repeat split; reflexivity.
Qed.
End CancellationFacts.

(** What the engine decides once its own test has marked items as failed
    ([failed_item]: one tag with both [PID-<pid>-] and [Error]).  For an
    order that is not cancelled yet and carries an error tag (and whose
    recorded downstream order ids can be read): if the order has line items
    and every one of them passes that test, the run is [cancelEntireOrder]:
    one [orderCancel] with [restock = false] and [refund] set (the
    [autoRefund] option, true when the caller does not override it), and no
    refund request; if some line item passes it, some does not, and some
    line item succeeded, the run is [cancelFailedLineItems]: one
    [refundCreate] whose line items are exactly those that pass it, in
    order, with their quantities and [NO_RESTOCK], and no [orderCancel]. *)
Theorem cancellation_decision :
  forall (json : Type) (JSON_parse : string -> option json)
         (length_positive : json -> option bool)
         (NOTIFY_CUSTOMER_ON_CANCEL : bool)
         (env : OrderCancellationService.Env)
         (options : OrderCancellationService.Options)
         (order : OrderCancellationService.Order) (recorded : bool),
    let config :=
      OrderCancellationService.CANCELLATION_CONFIG NOTIFY_CUSTOMER_ON_CANCEL in
    let items := OrderCancellationService.lineItems order in
    let tags := OrderCancellationService.o_tags order in
    let result :=
      OrderCancellationService.processCancellationForOrder
        json JSON_parse length_positive config env options in
    OrderCancellationService.r_order env = JS.Returns (Some order) ->
    OrderCancellationService.isCancelled order = false ->
    OrderCancellationService.hasError
      (OrderCancellationService.checkBunjangOrderErrors tags) = true ->
    OrderCancellationService.hasSuccessfulBunjangOrders
      json JSON_parse length_positive order = Some recorded ->
    OrderCancellationService.opt_autoRefund options <> Some false ->
    (items <> [] -> forallb (failed_item tags) items = true ->
       result = OrderCancellationService.cancelEntireOrder
                  config env order options /\
       exists notify rest,
         snd result
         = Remote.OrderCancel (OrderCancellationService.o_id order)
             notify "OTHER" true false :: rest /\
         existsb is_RefundCreate rest = false /\
         existsb is_OrderCancel rest = false)
    /\
    (existsb (failed_item tags) items = true ->
     forallb (failed_item tags) items = false ->
     existsb (succeeded_item tags recorded) items = true ->
       result = OrderCancellationService.cancelFailedLineItems
                  config env order (filter (failed_item tags) items) options /\
       exists note notify rest,
         snd result
         = Remote.RefundCreate (OrderCancellationService.o_id order)
             note notify (map refund_of (filter (failed_item tags) items))
             :: rest /\
         existsb is_RefundCreate rest = false /\
         existsb is_OrderCancel rest = false).
Proof.
  intros json JSON_parse length_positive notifyEnv env options order recorded
         config items tags result Horder Hlive Herr Hrec Hrefund.
  assert (E : result =
              if OrderCancellationService.nonempty (filter (failed_item tags) items)
                 && OrderCancellationService.nonempty (filter (succeeded_item tags recorded) items)
              then OrderCancellationService.cancelFailedLineItems
                     config env order (filter (failed_item tags) items) options
              else if OrderCancellationService.nonempty (filter (failed_item tags) items)
                   then OrderCancellationService.cancelEntireOrder
                          config env order options
                   else (JS.Returns OrderCancellationService.NoFailedItems, [])).
  { subst result.
    unfold OrderCancellationService.processCancellationForOrder.
    rewrite Horder, Hlive. fold tags. rewrite Herr, Hrec. cbn [negb].
    rewrite partition_items_spec. reflexivity. }
  rewrite !nonempty_filter in E.
  split.
  - intros Hne Hall.
    rewrite (all_failed_none_succeeded _ _ _ Hall), andb_false_r in E.
    assert (Hex : existsb (failed_item tags) items = true).
    { destruct items as [|x xs]; [congruence|]. simpl in *.
      apply andb_true_iff in Hall as [-> _]. reflexivity. }
    rewrite Hex in E. split; [exact E|]. rewrite E.
    destruct (cancelEntireOrder_sends config env order options)
      as (rest & Hs & Hr & Hc).
    eexists _, rest. split; [|auto]. rewrite Hs. do 2 f_equal.
    destruct (OrderCancellationService.opt_autoRefund options) as [[|]|];
      simpl; congruence.
  - intros Hex Hnotall Hsucc. rewrite Hex, Hsucc in E. simpl in E.
    split; [exact E|]. rewrite E.
    destruct (cancelFailedLineItems_sends config env order
                (filter (failed_item tags) items) options)
      as (rest & Hs & Hr & Hc).
    eexists _, _, rest. split; [exact Hs|auto].
Qed.

Lemma cancellation_decision_witness :
  let item n :=
    {| OrderCancellationService.li_id := "gid://shopify/LineItem/" ++ n;
       OrderCancellationService.li_title := "item " ++ n;
       OrderCancellationService.li_quantity := 1;
       OrderCancellationService.li_sku := Some ("BJ-" ++ n) |} in
  let order tags recorded :=
    {| OrderCancellationService.o_id := "gid://shopify/Order/77";
       OrderCancellationService.o_name := "#1077";
       OrderCancellationService.cancelledAt := None;
       OrderCancellationService.o_tags := tags;
       OrderCancellationService.lineItems := [item "1"; item "2"; item "3"];
       OrderCancellationService.metafield := recorded |} in
  let env o :=
    {| OrderCancellationService.r_order := JS.Returns (Some o);
       OrderCancellationService.r_orderCancel :=
         JS.Returns
           {| OrderCancellationService.orderCancelUserErrors := [];
              OrderCancellationService.job :=
                Some {| OrderCancellationService.job_id := "J1";
                        OrderCancellationService.job_done := false |} |};
       OrderCancellationService.r_refundCreate :=
         JS.Returns
           {| OrderCancellationService.userErrors := [];
              OrderCancellationService.refund :=
                Some {| OrderCancellationService.refund_id := "R1";
                        OrderCancellationService.refund_amount := None |} |};
       OrderCancellationService.r_updateOrder := JS.Returns tt;
       OrderCancellationService.now_iso := "2026-01-01T00:00:00.000Z" |} in
  let options :=
    {| OrderCancellationService.opt_notifyCustomer := None;
       OrderCancellationService.opt_autoRefund := None |} in
  let config := OrderCancellationService.CANCELLATION_CONFIG true in
  let all_failed :=
    order ["BunjangOrder-77_Error"; "PID-1-AuthenticationError";
           "PID-2-AuthenticationError"; "PID-3-AuthenticationError"] None in
  let one_failed :=
    order ["BunjangOrder-77_Error"; "PID-1-Success";
           "PID-2-AuthenticationError"; "PID-3-Success"]
          (Some (JsonIds.stringify ["B1"; "B3"])) in
  OrderCancellationService.processCancellationForOrder
    (list string) JsonIds.parse JsonIds.length_positive config
    (env all_failed) options
  = OrderCancellationService.cancelEntireOrder config (env all_failed)
      all_failed options
  /\
  OrderCancellationService.processCancellationForOrder
    (list string) JsonIds.parse JsonIds.length_positive config
    (env one_failed) options
  = OrderCancellationService.cancelFailedLineItems config (env one_failed)
      one_failed [item "2"] options.
Proof.
  cbv zeta. split.
  - refine (proj1 (proj1 (cancellation_decision (list string) JsonIds.parse
             JsonIds.length_positive true _ _ _ false _ _ _ _ _) _ _));
      try reflexivity; discriminate.
  - refine (proj1 (proj2 (cancellation_decision (list string) JsonIds.parse
             JsonIds.length_positive true _ _ _ true _ _ _ _ _) _ _ _));
      try reflexivity; discriminate.
Defined.

(** The per-item test asks for [Error] inside the very tag that names the
    item.  The tags the orchestrator writes for a listing that is not found
    ([BunjangOrder-<id>_Error] and [PID-<pid>-NotFound]) trigger the engine
    but mark no line item as failed: the run ends with [NO_FAILED_ITEMS]. *)
Example not_found_tags_mark_no_item_failed :
  let order :=
    {| OrderCancellationService.o_id := "gid://shopify/Order/77";
       OrderCancellationService.o_name := "#1077";
       OrderCancellationService.cancelledAt := None;
       OrderCancellationService.o_tags :=
         ["BunjangOrder-77_Error"; "PID-342351629-NotFound"];
       OrderCancellationService.lineItems :=
         [ {| OrderCancellationService.li_id := "gid://shopify/LineItem/1";
              OrderCancellationService.li_title := "item";
              OrderCancellationService.li_quantity := 1;
              OrderCancellationService.li_sku := Some "BJ-342351629" |} ];
       OrderCancellationService.metafield := None |} in
  let env :=
    {| OrderCancellationService.r_order := JS.Returns (Some order);
       OrderCancellationService.r_orderCancel := JS.Throws None;
       OrderCancellationService.r_refundCreate := JS.Throws None;
       OrderCancellationService.r_updateOrder := JS.Returns tt;
       OrderCancellationService.now_iso := "2026-01-01T00:00:00.000Z" |} in
  OrderCancellationService.processCancellationForOrder
    (list string) JsonIds.parse JsonIds.length_positive
    (OrderCancellationService.CANCELLATION_CONFIG true) env
    {| OrderCancellationService.opt_notifyCustomer := None;
       OrderCancellationService.opt_autoRefund := None |}
  = (JS.Returns OrderCancellationService.NoFailedItems, []).
Proof. reflexivity. Qed.

(** C3.  On the code the claim fails: line items that carry an error tag are
    not what the engine treats as failed.  Its per-item test asks for the
    text [Error] inside the tag that names the item, and none of the
    per-item error tags of its own configuration ([PID-*-NotFound],
    [PID-*-NotAvailable], ...) holds that text.  Order 77, not cancelled,
    with the storefront accepting every call.  First with three line items
    that all carry a [PID-<pid>-NotFound] tag and no recorded downstream
    order: the claim wants the whole order cancelled, the engine answers
    [NO_FAILED_ITEMS] and sends nothing.  Then with the second item alone
    carrying such a tag and the orders of the two others recorded: the claim
    wants a refund for exactly that item, and again the engine answers
    [NO_FAILED_ITEMS] and sends nothing. *)
Theorem error_tagged_items_are_not_cancelled :
  let item n :=
    {| OrderCancellationService.li_id := "gid://shopify/LineItem/" ++ n;
       OrderCancellationService.li_title := "item " ++ n;
       OrderCancellationService.li_quantity := 1;
       OrderCancellationService.li_sku := Some ("BJ-" ++ n) |} in
  let order tags recorded :=
    {| OrderCancellationService.o_id := "gid://shopify/Order/77";
       OrderCancellationService.o_name := "#1077";
       OrderCancellationService.cancelledAt := None;
       OrderCancellationService.o_tags := tags;
       OrderCancellationService.lineItems :=
         [item "101"; item "102"; item "103"];
       OrderCancellationService.metafield := recorded |} in
  let env o :=
    {| OrderCancellationService.r_order := JS.Returns (Some o);
       OrderCancellationService.r_orderCancel :=
         JS.Returns
           {| OrderCancellationService.orderCancelUserErrors := [];
              OrderCancellationService.job :=
                Some {| OrderCancellationService.job_id := "J1";
                        OrderCancellationService.job_done := false |} |};
       OrderCancellationService.r_refundCreate :=
         JS.Returns
           {| OrderCancellationService.userErrors := [];
              OrderCancellationService.refund :=
                Some {| OrderCancellationService.refund_id := "R1";
                        OrderCancellationService.refund_amount := None |} |};
       OrderCancellationService.r_updateOrder := JS.Returns tt;
       OrderCancellationService.now_iso := "2026-01-01T00:00:00.000Z" |} in
  let options :=
    {| OrderCancellationService.opt_notifyCustomer := None;
       OrderCancellationService.opt_autoRefund := None |} in
  let engine o :=
    OrderCancellationService.processCancellationForOrder
      (list string) JsonIds.parse JsonIds.length_positive
      (OrderCancellationService.CANCELLATION_CONFIG true) (env o) options in
  let all_failed :=
    order ["BunjangOrder-77_Error"; "PID-101-NotFound"; "PID-102-NotFound";
           "PID-103-NotFound"] None in
  let one_failed :=
    order ["BunjangOrder-B1"; "PID-101-Success"; "BunjangOrder-77_Error";
           "PID-102-NotFound"; "BunjangOrder-B3"; "PID-103-Success"]
          (Some (JsonIds.stringify ["B1"; "B3"])) in
  (OrderCancellationService.isCancelled all_failed = false /\
   OrderCancellationService.hasError
     (OrderCancellationService.checkBunjangOrderErrors
        (OrderCancellationService.o_tags all_failed)) = true /\
   forallb (carries_error_tag (OrderCancellationService.o_tags all_failed))
     (OrderCancellationService.lineItems all_failed) = true /\
   OrderCancellationService.hasSuccessfulBunjangOrders
     (list string) JsonIds.parse JsonIds.length_positive all_failed
   = Some false /\
   engine all_failed = (JS.Returns OrderCancellationService.NoFailedItems, []))
  /\
  (OrderCancellationService.isCancelled one_failed = false /\
   OrderCancellationService.hasError
     (OrderCancellationService.checkBunjangOrderErrors
        (OrderCancellationService.o_tags one_failed)) = true /\
   filter (carries_error_tag (OrderCancellationService.o_tags one_failed))
     (OrderCancellationService.lineItems one_failed) = [item "102"] /\
   OrderCancellationService.hasSuccessfulBunjangOrders
     (list string) JsonIds.parse JsonIds.length_positive one_failed
   = Some true /\
   engine one_failed = (JS.Returns OrderCancellationService.NoFailedItems, [])).
Proof. cbv zeta. repeat split; reflexivity. Qed.

(** ** The sold-status handler *)

Section InventoryFacts.
Import JS Remote Eff InventoryService.

Variable LOCATION : string.

Lemma updateOne_view {V : Type} (view : SyncedProduct.t -> V)
    (f : SyncedProduct.t -> bool)
    (u : SyncedProduct.t -> SyncedProduct.t) (c : list SyncedProduct.t) :
  (forall d, In d c -> f d = true -> view (u d) = view d) ->
  map view (Mongo.updateOne f u c) = map view c.
Proof.
  unfold Mongo.updateOne.
  induction c as [|x c IH]; simpl; auto. intros H.
  destruct (f x) eqn:Hx; simpl.
  - rewrite H; auto.
  - rewrite IH; auto.
Qed.

(** The inventory step appends inventory calls only, each with quantity 1,
    and writes nothing but the inventory fields of the ledger. *)
Lemma updateInventoryLevel_effect (env : Env) (item loc : string) (q : Z)
    (w : World) :
  let r := updateInventoryLevel LOCATION env item loc q w in
  ledger (snd r) = ledger w /\
  exists new, log (snd r) = (log w ++ new)%list /\
              forallb inventory_event new = true /\
              forallb sets_one new = true.
Proof.
  unfold updateInventoryLevel, bind, ret, throw, await, send, modify.
  destruct (truthy item); simpl; [|split; auto; exists []; now rewrite app_nil_r].
  destruct (r_levels env) as [levels|e]; simpl;
    [|split; auto; exists []; now rewrite app_nil_r].
  destruct (array_includes levels _); simpl.
  - destruct (r_setQuantity env) as [[|]|e]; simpl; split; auto;
      eexists; split; try reflexivity; auto.
  - destruct (r_activate env) as [[|]|e]; simpl;
      try (split; auto; eexists; split; [reflexivity|auto]).
    destruct (r_setQuantity env) as [[|]|e]; simpl; split; auto;
      rewrite <- app_assoc; eexists; split; try reflexivity; auto.
Qed.

Lemma syncBunjangInventoryToShopify_effect (env : Env) (pid : string)
    (q : Z) (w : World) :
  let r := syncBunjangInventoryToShopify LOCATION env pid q w in
  map sale_view (ledger (snd r)) = map sale_view (ledger w) /\
  exists new, log (snd r) = (log w ++ new)%list /\
              forallb inventory_event new = true /\
              forallb sets_one new = true.
Proof.
  assert (Same : forall w', w' = w ->
            map sale_view (ledger w') = map sale_view (ledger w) /\
            exists new, log w' = (log w ++ new)%list /\
                        forallb inventory_event new = true /\
                        forallb sets_one new = true).
  { intros w' ->. split; auto. exists []. now rewrite app_nil_r. }
  intros r. subst r.
  cbv beta iota delta
    [syncBunjangInventoryToShopify bind get ret await throw write modify].
  destruct (Mongo.findOne _ _) as [sp|]; [|now apply Same].
  destruct (SyncedProduct.shopifyGid sp) as [gid|]; [|now apply Same].
  destruct (truthy gid); [|now apply Same]. cbn [negb].
  destruct (r_variants env) as [[[|[item|] rest]|]|e]; try now apply Same.
  destruct (truthy item); [|now apply Same]. cbn [negb].
  pose proof (updateInventoryLevel_effect env item LOCATION q w) as H.
  cbv zeta in H.
  destruct (updateInventoryLevel LOCATION env item LOCATION q w)
    as [[res|e] w1]; cbn [fst snd ledger log] in *;
    destruct H as (Hl & new & Hlog & Hinv).
  - split.
    + rewrite updateOne_view; [now rewrite Hl|]. reflexivity.
    + now exists new.
  - split; [now rewrite Hl | now exists new].
Qed.

(** [markProductAsSoldOut]: the inventory step, then, when the listing is
    found, one product update whose outcome is the outcome of the whole. *)
Lemma markProductAsSoldOut_effect (env : Env) (gid pid : string) (w : World) :
  let r := markProductAsSoldOut LOCATION env gid pid w in
  map sale_view (ledger (snd r)) = map sale_view (ledger w) /\
  exists new,
    log (snd r) = (log w ++ new)%list /\ forallb sets_one new = true /\
    (forall p, r_product env = Returns (Some p) ->
       (exists e, fst r = Throws e /\ forallb inventory_event new = true) \/
       (fst r = r_updateProduct env /\
        exists inv, new = (inv ++ [UpdateProduct (sold_out_input gid p)])%list
                    /\ forallb inventory_event inv = true)).
Proof.
  intros r. subst r.
  pose proof (syncBunjangInventoryToShopify_effect env pid 0 w) as H.
  cbv zeta in H.
  cbv beta iota delta [markProductAsSoldOut bind await ret send modify].
  destruct (syncBunjangInventoryToShopify LOCATION env pid 0 w)
    as [[b|e] w1]; cbn [fst snd] in *;
    destruct H as (Hv & new & Hlog & Hinv & Hone).
  - destruct (r_product env) as [[p|]|e]; cbn [fst snd ledger log].
    + split; auto. exists (new ++ [UpdateProduct (sold_out_input gid p)])%list.
      rewrite Hlog, <- app_assoc. split; auto. split.
      { rewrite forallb_app, Hone. reflexivity. }
      intros p' [= <-]. right.
      destruct (r_updateProduct env); cbn [fst]; split; auto; now exists new.
    + split; auto. exists new. repeat split; auto. discriminate.
    + split; auto. exists new. repeat split; auto. discriminate.
  - split; auto. exists new. repeat split; auto.
    intros p _. left. now exists e.
Qed.

Lemma markProductAsDraft_effect (env : Env) (gid pid platform : string)
    (w : World) :
  let r := markProductAsDraft LOCATION env gid pid platform w in
  map sale_view (ledger (snd r)) = map sale_view (ledger w) /\
  exists new,
    log (snd r) = (log w ++ new)%list /\ forallb sets_one new = true /\
    (forall p, r_product env = Returns (Some p) ->
       (exists e, fst r = Throws e /\ forallb inventory_event new = true) \/
       (fst r = r_updateProduct env /\
        exists inv input, new = (inv ++ [UpdateProduct input])%list
                    /\ forallb inventory_event inv = true)).
Proof.
  intros r. subst r.
  pose proof (syncBunjangInventoryToShopify_effect env pid 0 w) as H.
  cbv zeta in H.
  cbv beta iota zeta delta [markProductAsDraft bind await ret send modify].
  destruct (syncBunjangInventoryToShopify LOCATION env pid 0 w)
    as [[b|e] w1]; cbn [fst snd] in *;
    destruct H as (Hv & new & Hlog & Hinv & Hone).
  - destruct (r_product env) as [[p|]|e]; cbn [fst snd ledger log].
    + split; auto. eexists (new ++ [UpdateProduct _])%list.
      rewrite Hlog, <- app_assoc. split; [reflexivity|]. split.
      { rewrite forallb_app, Hone. reflexivity. }
      intros p' [= <-]. right.
      destruct (r_updateProduct env); cbn [fst]; split; auto;
        now exists new; eexists.
    + split; auto. exists new. repeat split; auto. discriminate.
    + split; auto. exists new. repeat split; auto. discriminate.
  - split; auto. exists new. repeat split; auto.
    intros p _. left. now exists e.
Qed.

Lemma sale_view_soldFrom (c1 c2 : list SyncedProduct.t) :
  map sale_view c1 = map sale_view c2 ->
  map SyncedProduct.soldFrom c1 = map SyncedProduct.soldFrom c2.
Proof.
  intros H.
  assert (E : forall c, map SyncedProduct.soldFrom c
                        = map (fun v => snd (fst v)) (map sale_view c)).
  { intros c. rewrite map_map. reflexivity. }
  now rewrite !E, H.
Qed.

(** Whatever makes the handler throw, throws before the ledger's
    [soldFrom] is written. *)
Lemma handler_throw_keeps_soldFrom (env : Env) (pid gid origin : string)
    (w : World) (e : option string) :
  let r := handleProductSoldStatus LOCATION env pid gid origin w in
  fst r = Throws e ->
  map SyncedProduct.soldFrom (ledger (snd r))
  = map SyncedProduct.soldFrom (ledger w).
Proof.
  intros r. subst r.
  cbv beta iota delta [handleProductSoldStatus bind get ret save write modify].
  destruct (Mongo.findOne _ _) as [sp|]; [|discriminate].
  destruct (origin =? "both")%string.
  { pose proof (markProductAsSoldOut_effect env gid pid w) as H.
    cbv zeta in H.
    destruct (markProductAsSoldOut LOCATION env gid pid w) as [[u|e'] w1];
      cbn [fst snd] in *; [discriminate|].
    intros _. apply sale_view_soldFrom, H. }
  destruct (origin =? "bunjang")%string.
  { pose proof (markProductAsDraft_effect env gid pid "bunjang" w) as H.
    cbv zeta in H.
    destruct (markProductAsDraft LOCATION env gid pid "bunjang" w)
      as [[u|e'] w1]; cbn [fst snd] in *; [discriminate|].
    intros _. apply sale_view_soldFrom, H. }
  destruct (origin =? "shopify")%string; [|discriminate].
  pose proof (syncBunjangInventoryToShopify_effect env pid 0 w) as H.
  cbv zeta in H.
  destruct (syncBunjangInventoryToShopify LOCATION env pid 0 w)
    as [[u|e'] w1]; cbn [fst snd] in *; [discriminate|].
  intros _. apply sale_view_soldFrom, H.
Qed.

(** When the listing is found and the product update throws, the handler
    throws. *)
Lemma failed_update_fails_handler (env : Env) (pid gid origin : string)
    (w : World) (p : Product) (e : option string) :
  origin = "both" \/ origin = "bunjang" ->
  Mongo.findOne (SyncedProduct.has_pid pid) (ledger w) <> None ->
  r_product env = Returns (Some p) ->
  r_updateProduct env = Throws e ->
  exists e', fst (handleProductSoldStatus LOCATION env pid gid origin w)
             = Throws e'.
Proof.
  intros Horigin Hfound Hp Hu.
  cbv beta iota delta [handleProductSoldStatus bind get ret save write modify].
  destruct (Mongo.findOne _ _) as [sp|]; [|congruence].
  destruct Horigin as [-> | ->]; cbn [String.eqb Ascii.eqb Bool.eqb].
  - pose proof (markProductAsSoldOut_effect env gid pid w) as H.
    cbv zeta in H. destruct H as (_ & new & _ & _ & H).
    destruct (H p Hp) as [(e' & He' & _) | (He' & _)];
      destruct (markProductAsSoldOut LOCATION env gid pid w) as [[u|e''] w1];
      cbn [fst snd] in *; try congruence; eauto.
  - pose proof (markProductAsDraft_effect env gid pid "bunjang" w) as H.
    cbv zeta in H. destruct H as (_ & new & _ & _ & H).
    destruct (H p Hp) as [(e' & He' & _) | (He' & _)];
      destruct (markProductAsDraft LOCATION env gid pid "bunjang" w)
        as [[u|e''] w1];
      cbn [fst snd] in *; try congruence; eauto.
Qed.
End InventoryFacts.

Section ShopifyOriginFacts.
Import JS Remote Eff InventoryService.
Variable LOCATION : string.

(** With origin [shopify] the handler writes neither [soldFrom] nor the
    listing: only inventory calls are sent, each with quantity 1. *)
Lemma sold_on_shopify_effect (env : Env) (pid gid : string) (w : World) :
  let r := handleProductSoldStatus LOCATION env pid gid "shopify" w in
  map sale_view (ledger (snd r)) = map sale_view (ledger w) /\
  exists new, log (snd r) = (log w ++ new)%list /\
              forallb inventory_event new = true /\
              forallb sets_one new = true.
Proof.
  intros r. subst r.
  cbv beta iota delta [handleProductSoldStatus bind get ret save write modify].
  destruct (Mongo.findOne _ _) as [sp|]; cbn [fst snd].
  2:{ split; auto. exists []. now rewrite app_nil_r. }
  cbn [String.eqb Ascii.eqb Bool.eqb].
  pose proof (syncBunjangInventoryToShopify_effect LOCATION env pid 0 w) as H.
  cbv zeta in H.
  destruct (syncBunjangInventoryToShopify LOCATION env pid 0 w)
    as [[u|e'] w1]; cbn [fst snd ledger log] in *;
    destruct H as (Hv & new & Hlog & Hinv & Hone).
  - split; [|now exists new].
    rewrite updateOne_view; [exact Hv | reflexivity].
  - split; [exact Hv | now exists new].
Qed.
End ShopifyOriginFacts.


(** C8. For every sold-status transition: whenever the handler fails, and in
    particular whenever the product update (status, title, tags) of the
    [both] and [bunjang] transitions is sent and throws, the handler throws
    before its assignments are saved, and the [soldFrom] field of every
    ledger entry is what it was. *)
Theorem failed_storefront_mutation_keeps_soldFrom :
  forall (LOCATION : string) (env : InventoryService.Env)
         (pid gid origin : string) (w : InventoryService.World),
    let r :=
      InventoryService.handleProductSoldStatus LOCATION env pid gid origin w in
    (forall e, fst r = JS.Throws e ->
       map SyncedProduct.soldFrom (InventoryService.ledger (snd r))
       = map SyncedProduct.soldFrom (InventoryService.ledger w))
    /\
    (forall p e,
       origin = "both" \/ origin = "bunjang" ->
       Mongo.findOne (SyncedProduct.has_pid pid) (InventoryService.ledger w)
         <> None ->
       InventoryService.r_product env = JS.Returns (Some p) ->
       InventoryService.r_updateProduct env = JS.Throws e ->
       (exists e', fst r = JS.Throws e') /\
       map SyncedProduct.soldFrom (InventoryService.ledger (snd r))
       = map SyncedProduct.soldFrom (InventoryService.ledger w)).
Proof.
  intros LOCATION env pid gid origin w r. split.
  - intros e. apply handler_throw_keeps_soldFrom.
  - intros p e Horigin Hfound Hp Hu.
    destruct (failed_update_fails_handler LOCATION env pid gid origin w p e
                Horigin Hfound Hp Hu) as (e' & He').
    split; [now exists e'|].
    now apply (handler_throw_keeps_soldFrom LOCATION env pid gid origin w e').
Qed.

Lemma failed_storefront_mutation_keeps_soldFrom_witness :
  let entry :=
    SyncedProduct.mk 1 "342351629" (Some "gid://shopify/Product/9")
      (Some SyncedProduct.ACTIVE) 1 None None
      SyncedProduct.idle None None None
      (Some SyncedProduct.bunjang) (Some 500) None (Some 500) true ["B1"] 0 0 in
  let env :=
    {| InventoryService.r_variants :=
         JS.Returns (Some [Some "gid://shopify/InventoryItem/5"]);
       InventoryService.r_levels := JS.Returns ["gid://shopify/Location/1"];
       InventoryService.r_activate := JS.Returns false;
       InventoryService.r_setQuantity := JS.Returns false;
       InventoryService.r_product :=
         JS.Returns (Some {| InventoryService.p_title := "Bag";
                             InventoryService.p_tags := None |});
       InventoryService.r_updateProduct :=
         JS.Throws (Some "SHOPIFY_PRODUCT_UPDATE_ERROR");
       InventoryService.at_inventorySync := 1000;
       InventoryService.at_soldAt := 1001;
       InventoryService.at_bunjangSoldAt := 1002;
       InventoryService.at_shopifySoldAt := 1003 |} in
  let w := {| InventoryService.ledger := [entry]; InventoryService.log := [] |} in
  let r :=
    InventoryService.handleProductSoldStatus "gid://shopify/Location/1" env
      "342351629" "gid://shopify/Product/9" "both" w in
  (exists e', fst r = JS.Throws e') /\
  map SyncedProduct.soldFrom (InventoryService.ledger (snd r))
  = [Some SyncedProduct.bunjang].
Proof.
  cbv zeta.
  refine (proj2 (failed_storefront_mutation_keeps_soldFrom
                   "gid://shopify/Location/1" _ "342351629"
                   "gid://shopify/Product/9" "both" _) _ _ _ _ _ _).
  - now left.
  - discriminate.
  - reflexivity.
  - reflexivity.
Defined.

(** The guarantee is about a mutation that throws.  When the listing is not
    returned by the product query, no update is attempted, nothing throws,
    and the sale is recorded in the ledger all the same. *)
Example missing_listing_still_records_sale :
  let entry :=
    SyncedProduct.mk 1 "342351629" (Some "gid://shopify/Product/9")
      (Some SyncedProduct.ACTIVE) 1 None None
      SyncedProduct.idle None None None
      None None None None false [] 0 0 in
  let env :=
    {| InventoryService.r_variants := JS.Returns None;
       InventoryService.r_levels := JS.Returns [];
       InventoryService.r_activate := JS.Returns false;
       InventoryService.r_setQuantity := JS.Returns false;
       InventoryService.r_product := JS.Returns None;
       InventoryService.r_updateProduct := JS.Returns tt;
       InventoryService.at_inventorySync := 1000;
       InventoryService.at_soldAt := 1001;
       InventoryService.at_bunjangSoldAt := 1002;
       InventoryService.at_shopifySoldAt := 1003 |} in
  let r :=
    InventoryService.handleProductSoldStatus "gid://shopify/Location/1" env
      "342351629" "gid://shopify/Product/9" "both"
      {| InventoryService.ledger := [entry]; InventoryService.log := [] |} in
  InventoryService.log (snd r) = [] /\
  map SyncedProduct.soldFrom (InventoryService.ledger (snd r))
  = [Some SyncedProduct.both].
Proof. split; reflexivity. Qed.

(** C5 at a failing input.  An entry with [soldFrom = null], origin
    [shopify], every remote call succeeding: [pendingBunjangOrder] becomes
    true and the listing is not touched (no product update is sent), but
    [soldFrom] is still [null] afterwards, and the quantity sent to the
    storefront is 1, the forced quantity of [updateInventoryLevel], not the
    0 the handler asked for (only the ledger's [bunjangQuantity] becomes 0). *)
Theorem sold_on_shopify_at_unsold_entry :
  let entry :=
    SyncedProduct.mk 1 "342351629" (Some "gid://shopify/Product/9")
      (Some SyncedProduct.ACTIVE) 1 None None
      SyncedProduct.idle None None None
      None None None None false [] 0 0 in
  let env :=
    {| InventoryService.r_variants :=
         JS.Returns (Some [Some "gid://shopify/InventoryItem/5"]);
       InventoryService.r_levels := JS.Returns ["gid://shopify/Location/1"];
       InventoryService.r_activate := JS.Returns false;
       InventoryService.r_setQuantity := JS.Returns false;
       InventoryService.r_product :=
         JS.Returns (Some {| InventoryService.p_title := "Bag";
                             InventoryService.p_tags := None |});
       InventoryService.r_updateProduct := JS.Returns tt;
       InventoryService.at_inventorySync := 1000;
       InventoryService.at_soldAt := 1001;
       InventoryService.at_bunjangSoldAt := 1002;
       InventoryService.at_shopifySoldAt := 1003 |} in
  let w := {| InventoryService.ledger := [entry]; InventoryService.log := [] |} in
  let r :=
    InventoryService.handleProductSoldStatus "gid://shopify/Location/1" env
      "342351629" "gid://shopify/Product/9" "shopify" w in
  SyncedProduct.soldFrom entry = None /\
  fst r = JS.Returns
            {| InventoryService.action := Some "pending_bunjang_order";
               InventoryService.success := true;
               InventoryService.message :=
                 "Waiting for Bunjang order creation" |} /\
  map SyncedProduct.soldFrom (InventoryService.ledger (snd r)) = [None] /\
  map SyncedProduct.pendingBunjangOrder (InventoryService.ledger (snd r))
    = [true] /\
  map SyncedProduct.shopifySoldAt (InventoryService.ledger (snd r))
    = [Some 1003] /\
  map SyncedProduct.bunjangQuantity (InventoryService.ledger (snd r)) = [0] /\
  InventoryService.log (snd r)
  = [Remote.InventorySetOnHandQuantities "gid://shopify/InventoryItem/5"
       "gid://shopify/Location/1" 1].
Proof. cbv zeta. repeat split; reflexivity. Qed.


(** C7, as stated, fails.  An entry already at [soldFrom = both], whose
    listing is already titled [[SOLD OUT]], handled once more with origin
    [both]: the inventory call and the product update are sent again, and
    the entry is rewritten ([soldAt] and the inventory stamp move). *)
Lemma sold_on_both_again_is_not_a_no_op :
  let entry :=
    SyncedProduct.mk 1 "342351629" (Some "gid://shopify/Product/9")
      (Some SyncedProduct.SOLD_OUT) 0 (Some 400) None
      SyncedProduct.idle None None None
      (Some SyncedProduct.both) (Some 500) (Some 300) (Some 200) true ["B1"]
      0 0 in
  let env :=
    {| InventoryService.r_variants :=
         JS.Returns (Some [Some "gid://shopify/InventoryItem/5"]);
       InventoryService.r_levels := JS.Returns ["gid://shopify/Location/1"];
       InventoryService.r_activate := JS.Returns false;
       InventoryService.r_setQuantity := JS.Returns false;
       InventoryService.r_product :=
         JS.Returns (Some {| InventoryService.p_title := "[SOLD OUT] Bag";
                             InventoryService.p_tags :=
                               Some ["sold_out"; "sold_both_platforms"] |});
       InventoryService.r_updateProduct := JS.Returns tt;
       InventoryService.at_inventorySync := 1000;
       InventoryService.at_soldAt := 1001;
       InventoryService.at_bunjangSoldAt := 1002;
       InventoryService.at_shopifySoldAt := 1003 |} in
  let w := {| InventoryService.ledger := [entry]; InventoryService.log := [] |} in
  let r :=
    InventoryService.handleProductSoldStatus "gid://shopify/Location/1" env
      "342351629" "gid://shopify/Product/9" "both" w in
  SyncedProduct.soldFrom entry = Some SyncedProduct.both /\
  InventoryService.log (snd r)
  = [ Remote.InventorySetOnHandQuantities "gid://shopify/InventoryItem/5"
        "gid://shopify/Location/1" 1;
      Remote.UpdateProduct
        {| Remote.pi_id := "gid://shopify/Product/9";
           Remote.pi_title := "[SOLD OUT] Bag";
           Remote.pi_status := "DRAFT";
           Remote.pi_tags := ["sold_out"; "sold_both_platforms"] |} ] /\
  map SyncedProduct.soldAt (InventoryService.ledger (snd r)) = [Some 1001] /\
  InventoryService.ledger (snd r) <> InventoryService.ledger w.
Proof.
  cbv zeta. repeat split; try reflexivity.
  intros H. discriminate H.
Qed.


(** C7, amended.  Handling origin [both] again on an entry that is already
    at [soldFrom = both] and [SOLD_OUT], with a listing already titled
    [[SOLD OUT]], leaves [soldFrom] and [shopifyStatus] of every entry as
    they are and sends the title unchanged; the current state is not
    consulted, though: the inventory calls and the product update are sent
    again on every invocation. *)
Theorem sold_on_both_again :
  forall (LOCATION : string) (env : InventoryService.Env) (pid gid : string)
         (w : InventoryService.World) (entry : SyncedProduct.t)
         (p : InventoryService.Product) (res : InventoryService.Result),
    let r :=
      InventoryService.handleProductSoldStatus LOCATION env pid gid "both" w in
    NoDup (map SyncedProduct._id (InventoryService.ledger w)) ->
    Mongo.findOne (SyncedProduct.has_pid pid) (InventoryService.ledger w)
      = Some entry ->
    SyncedProduct.soldFrom entry = Some SyncedProduct.both ->
    SyncedProduct.shopifyStatus entry = Some SyncedProduct.SOLD_OUT ->
    InventoryService.r_product env = JS.Returns (Some p) ->
    JS.includes (InventoryService.p_title p) "[SOLD OUT]" = true ->
    fst r = JS.Returns res ->
    map sale_view (InventoryService.ledger (snd r))
      = map sale_view (InventoryService.ledger w)
    /\ exists inventory_calls,
         forallb inventory_event inventory_calls = true /\
         InventoryService.log (snd r)
         = (InventoryService.log w ++ inventory_calls
            ++ [Remote.UpdateProduct
                  {| Remote.pi_id := gid;
                     Remote.pi_title := InventoryService.p_title p;
                     Remote.pi_status := "DRAFT";
                     Remote.pi_tags := ["sold_out"; "sold_both_platforms"] |}])%list.
Proof.
  intros LOCATION env pid gid w entry p res r Hnd Hfind Hfrom Hstatus Hp Htitle.
  subst r.
  cbv beta iota delta [InventoryService.handleProductSoldStatus Eff.bind Eff.get
    Eff.ret InventoryService.save InventoryService.write Eff.modify].
  rewrite Hfind. cbn [String.eqb Ascii.eqb Bool.eqb].
  pose proof (markProductAsSoldOut_effect LOCATION env gid pid w) as H.
  cbv zeta in H. destruct H as (Hv & new & Hlog & _ & H).
  specialize (H p Hp).
  destruct (InventoryService.markProductAsSoldOut LOCATION env gid pid w)
    as [[u|e] w1]; cbn [fst snd InventoryService.ledger InventoryService.log] in *;
    [|discriminate].
  intros _.
  destruct H as [(e & He & _) | (_ & inv & Hnew & Hinv)]; [discriminate|].
  split.
  - rewrite updateOne_view; [exact Hv|].
    intros d Hd Hid. apply Nat.eqb_eq in Hid.
    assert (Hview : In (sale_view d) (map sale_view (InventoryService.ledger w))).
    { rewrite <- Hv. now apply in_map. }
    apply in_map_iff in Hview as (d0 & Hd0 & Hin0).
    assert (E : d0 = entry).
    { apply (NoDup_map_same SyncedProduct._id (InventoryService.ledger w));
        auto.
      - unfold Mongo.findOne in Hfind. now apply find_some in Hfind.
      - unfold sale_view in Hd0. congruence. }
    subst d0. unfold sale_view in *. cbn [SyncedProduct.set_sold
      SyncedProduct._id SyncedProduct.soldFrom SyncedProduct.shopifyStatus].
    congruence.
  - exists inv. split; auto. rewrite Hlog, Hnew.
    unfold sold_out_input. rewrite Htitle. reflexivity.
Qed.

Lemma sold_on_both_again_witness :
  let entry :=
    SyncedProduct.mk 1 "342351629" (Some "gid://shopify/Product/9")
      (Some SyncedProduct.SOLD_OUT) 0 (Some 400) None
      SyncedProduct.idle None None None
      (Some SyncedProduct.both) (Some 500) (Some 300) (Some 200) true ["B1"]
      0 0 in
  let p := {| InventoryService.p_title := "[SOLD OUT] Bag";
              InventoryService.p_tags := None |} in
  let env :=
    {| InventoryService.r_variants :=
         JS.Returns (Some [Some "gid://shopify/InventoryItem/5"]);
       InventoryService.r_levels := JS.Returns ["gid://shopify/Location/1"];
       InventoryService.r_activate := JS.Returns false;
       InventoryService.r_setQuantity := JS.Returns false;
       InventoryService.r_product := JS.Returns (Some p);
       InventoryService.r_updateProduct := JS.Returns tt;
       InventoryService.at_inventorySync := 1000;
       InventoryService.at_soldAt := 1001;
       InventoryService.at_bunjangSoldAt := 1002;
       InventoryService.at_shopifySoldAt := 1003 |} in
  let w := {| InventoryService.ledger := [entry]; InventoryService.log := [] |} in
  let r :=
    InventoryService.handleProductSoldStatus "gid://shopify/Location/1" env
      "342351629" "gid://shopify/Product/9" "both" w in
  map sale_view (InventoryService.ledger (snd r))
  = [(1%nat, Some SyncedProduct.both, Some SyncedProduct.SOLD_OUT)].
Proof.
  cbv zeta.
  refine (proj1 (sold_on_both_again "gid://shopify/Location/1" _ "342351629"
                   "gid://shopify/Product/9" _ _ _ _ _ _ _ _ _ _ _)).
  - repeat constructor; simpl; tauto.
  - reflexivity.
  - reflexivity.
  - reflexivity.
  - reflexivity.
  - reflexivity.
  - reflexivity.
Defined.

(** ** The orchestrator *)

Section OrchestratorFacts.
Import JS Remote Eff OrderService.

Variable json : Type.
Variable JSON_parse : string -> option json.
Variable JSON_stringify : list string -> string.
Variable config : Config.

Lemma created_orders_app (l1 l2 : list event) :
  created_orders (l1 ++ l2) = (created_orders l1 ++ created_orders l2)%list.
Proof.
  induction l1 as [|ev l1 IH]; simpl; auto.
  destruct ev; auto.
  destruct answer as [[id|]|]; auto.
  destruct (truthy id); simpl; now rewrite IH.
Qed.

Lemma preserves_ret {A : Type} base (a : A) : preserves base (ret a).
Proof. intros s H. exact H. Qed.

Lemma preserves_await {A : Type} base (o : call A) :
  preserves base (await o).
Proof. intros s H. exact H. Qed.

Lemma preserves_bind {A B : Type} base (m : M Run A) (k : A -> M Run B) :
  preserves base m -> (forall a, preserves base (k a)) ->
  preserves base (bind m k).
Proof.
  intros Hm Hk s H. unfold bind. specialize (Hm s H).
  destruct (m s) as [[a|e] s']; simpl in *; auto. now apply Hk.
Qed.

Lemma preserves_try_catch {A : Type} base (m : M Run A)
    (h : option string -> M Run A) :
  preserves base m -> (forall e, preserves base (h e)) ->
  preserves base (try_catch m h).
Proof.
  intros Hm Hh s H. unfold try_catch. specialize (Hm s H).
  destruct (m s) as [[a|e] s']; simpl in *; auto. now apply Hh.
Qed.

Lemma consistent_sent base (s : Run) (ev : event) (marker : option string) :
  created_orders [ev] = [] ->
  consistent base s ->
  consistent base
    {| shop := {| order_ids := marker; sent := (sent (shop s) ++ [ev])%list |};
       createdBunjangOrderIds := createdBunjangOrderIds s;
       bunjangOrderSuccessfullyCreatedOverall :=
         bunjangOrderSuccessfullyCreatedOverall s |}.
Proof.
  intros Hev [H1 H2]. split; cbn; auto.
  rewrite created_orders_app, H1, Hev. now rewrite app_nil_r.
Qed.

Lemma preserves_updateOrder base gid tags metafields outcome :
  preserves base (updateOrder gid tags metafields outcome).
Proof.
  intros s H.
  cbv beta iota delta [updateOrder bind send modify await store_order_ids ret].
  destruct outcome as [[]|e]; cbn [fst snd].
  - destruct (find _ metafields); cbn [fst snd shop sent order_ids
      createdBunjangOrderIds bunjangOrderSuccessfullyCreatedOverall];
      now apply consistent_sent.
  - apply (consistent_sent base s _ (order_ids (shop s))); auto.
Qed.

Lemma preserves_after_created base gid e l id :
  preserves base (after_created config gid e l id).
Proof.
  unfold after_created.
  apply preserves_bind; [apply preserves_updateOrder|]. intros _.
  apply preserves_bind.
  - apply preserves_try_catch; [|intros; apply preserves_ret].
    apply preserves_bind; [apply preserves_await|]. intros [balance|].
    + destruct (_ <? _); [apply preserves_updateOrder | apply preserves_ret].
    + apply preserves_ret.
  - intros _. apply preserves_bind; [|intros; apply preserves_await].
    intros s H. cbv [send modify]. cbn [snd].
    now apply consistent_sent.
Qed.

Lemma resolve_state (e : ItemEnv) (item : LineItem) (s : Run) :
  snd (resolve e item s) = s.
Proof.
  cbv beta iota delta [resolve bind await ret try_catch].
  destruct (r_findOne e) as [[l|]|err]; auto.
  destruct (r_productTags e) as [[tags|]|err]; auto.
  destruct (find _ tags); auto.
Qed.

Lemma preserves_order_item base order e l :
  preserves base (order_item config order e l).
Proof.
  unfold order_item.
  apply preserves_try_catch; [|intros; apply preserves_updateOrder].
  apply preserves_bind; [apply preserves_await|]. intros [d|].
  2: apply preserves_updateOrder.
  destruct (negb _ && negb _); [apply preserves_updateOrder|].
  destruct (negb _ && (_ =? 0)); [apply preserves_updateOrder|].
  apply preserves_bind; [apply preserves_await|]. intros payload.
  apply preserves_try_catch; [|intros; apply preserves_updateOrder].
  intros s [H1 H2].
  cbv beta iota delta [bind send modify await record_created].
  cbn [fst snd].
  destruct (r_createOrder e) as [[id|]|err] eqn:Hans.
  - destruct (truthy id) eqn:Hid.
    + apply preserves_after_created. split; cbn.
      * rewrite created_orders_app, H1. cbn. rewrite Hid.
        now rewrite app_assoc.
      * destruct (createdBunjangOrderIds s); reflexivity.
    + apply preserves_updateOrder. split; cbn; auto.
      rewrite created_orders_app, H1. cbn. rewrite Hid.
      now rewrite app_nil_r.
  - apply preserves_updateOrder. split; cbn; auto.
    rewrite created_orders_app, H1. cbn. now rewrite app_nil_r.
  - split; cbn; auto.
    rewrite created_orders_app, H1. cbn. now rewrite app_nil_r.
Qed.

Lemma preserves_process_item base order e item :
  preserves base (process_item config order e item).
Proof.
  unfold process_item. apply preserves_bind.
  - intros s H. now rewrite resolve_state.
  - intros [l|]; [|apply preserves_ret].
    destruct (negb _); [apply preserves_ret | apply preserves_order_item].
Qed.

Lemma preserves_process_items base order env items :
  forall i, preserves base (process_items config order env i items).
Proof.
  induction items as [|item rest IH]; intros i; simpl.
  - apply preserves_ret.
  - apply preserves_bind; [apply preserves_process_item | intros; apply IH].
Qed.

Lemma process_items_app order env pre post :
  forall i s,
    process_items config order env i (pre ++ post) s
    = bind (process_items config order env i pre)
        (fun _ => process_items config order env (i + List.length pre) post) s.
Proof.
  induction pre as [|item pre IH]; intros i s; simpl.
  - unfold bind, ret. now rewrite Nat.add_0_r.
  - unfold bind.
    destruct (process_item config order (item_env env i) item s)
      as [[u|e] s']; auto.
    rewrite IH. unfold bind. now rewrite Nat.add_succ_r.
Qed.

Lemma already_processed_state (env : RunEnv) (s : Run) :
  snd (already_processed json JSON_parse env s) = s /\
  exists existing, fst (already_processed json JSON_parse env s)
                   = Returns existing.
Proof.
  cbv beta iota delta [already_processed getOrderMetafield try_catch bind
    await get ret throw].
  destruct (r_metafieldQuery env) as [[]|e]; cbn [fst snd];
    [|split; [reflexivity | eexists; reflexivity]].
  destruct (order_ids (shop s)) as [value|];
    [|split; [reflexivity | eexists; reflexivity]].
  destruct (truthy value); [|split; [reflexivity | eexists; reflexivity]].
  destruct (JSON_parse value); split; try reflexivity; eexists; reflexivity.
Qed.

Lemma already_processed_found (env : RunEnv) (s : Run) (value : string)
    (ids : json) :
  r_metafieldQuery env = Returns tt ->
  order_ids (shop s) = Some value ->
  truthy value = true ->
  JSON_parse value = Some ids ->
  already_processed json JSON_parse env s = (Returns (Some ids), s).
Proof.
  intros Hq Hv Ht Hp.
  cbv beta iota delta [already_processed getOrderMetafield try_catch bind
    await get ret throw].
  now rewrite Hq, Hv, Ht, Hp.
Qed.

Lemma valid_order_passes (order : ShopifyOrder) :
  valid_order order ->
  negb (truthy (id order))
  || negb (truthy (admin_graphql_api_id order))
  || match line_items order with [] => true | _ :: _ => false end = false.
Proof.
  intros (-> & -> & H). destruct (line_items order); [congruence|reflexivity].
Qed.

(** What a returned result says about the run. *)
Lemma run_result (order : ShopifyOrder) (env : RunEnv) (before after : Shop)
    (r : Result json) :
  processShopifyOrderForBunjang json JSON_parse JSON_stringify config
    order env before = (Returns r, after) ->
  valid_order order /\
  match r with
  | AlreadyProcessed _ => after = before
  | Created ids =>
      ids <> [] /\
      created_orders (sent after)
        = (created_orders (sent before) ++ ids)%list /\
      order_ids after = Some (JSON_stringify ids)
  | NoneCreated =>
      created_orders (sent after) = created_orders (sent before)
  end.
Proof.
  unfold processShopifyOrderForBunjang.
  set (s0 := {| shop := before; createdBunjangOrderIds := [];
                bunjangOrderSuccessfullyCreatedOverall := false |}).
  destruct (run json JSON_parse JSON_stringify config order env s0)
    as [res s'] eqn:Hrun.
  cbn [fst snd]. intros [= -> <-]. revert Hrun. unfold run.
  destruct (negb (truthy (id order)) || _ || _) eqn:Hvalid;
    [discriminate|].
  assert (Hv : valid_order order).
  { apply orb_false_iff in Hvalid as [Hvalid H3].
    apply orb_false_iff in Hvalid as [H1 H2].
    apply negb_false_iff in H1, H2. repeat split; auto.
    destruct (line_items order); congruence. }
  intros Hrun. split; [exact Hv|]. revert Hrun.
  unfold bind at 1.
  destruct (already_processed_state env s0) as (Hs & existing & He).
  destruct (already_processed json JSON_parse env s0) as [res s1].
  cbn [fst snd] in *. subst res s1.
  destruct existing as [ids|].
  { unfold ret. intros [= <- <-]. reflexivity. }
  assert (H0 : consistent (created_orders (sent before)) s0).
  { split; cbn; auto. now rewrite app_nil_r. }
  pose proof (preserves_process_items _ order env (line_items order) 0%nat
                s0 H0) as H1.
  unfold bind at 1.
  destruct (process_items config order env 0 (line_items order) s0)
    as [[u|e] s1]; cbn [fst snd] in *; [|discriminate].
  destruct H1 as [Hlog Hflag].
  cbv beta iota zeta delta [record_order_ids bind get ret].
  destruct (createdBunjangOrderIds s1) as [|id1 ids] eqn:Hids.
  - cbv beta iota. rewrite Hflag. intros [= <- <-].
    rewrite Hlog. now rewrite app_nil_r.
  - cbv beta iota zeta delta [updateOrder bind send modify await
      store_order_ids ret].
    destruct (r_updateOrder_final env) as [[]|e]; cbn; [|discriminate].
    rewrite Hflag, Hids. intros [= <- <-]. cbn.
    split; [discriminate|]. split; auto.
    rewrite created_orders_app, Hlog. cbn. now rewrite app_nil_r.
Qed.

End OrchestratorFacts.

(** The order of the scenario, run from a fresh storefront state: the second
    item is tagged [PID-102-NotFound], the first and the third are bought,
    and the result is [success: true] with the two order ids. *)
Example three_items_one_not_found :
  let r :=
    Scenario.process Scenario.order
      (Scenario.delivery (JS.Returns tt) "B1" "B3") Scenario.fresh in
  fst r = JS.Returns (OrderService.Created ["B1"; "B3"]) /\
  nth_error (OrderService.sent (snd r)) 3
  = Some (Remote.UpdateOrder "gid://shopify/Order/77"
            ["BunjangOrder-77_Error"; "PID-102-NotFound"] []) /\
  OrderService.created_orders (OrderService.sent (snd r)) = ["B1"; "B3"].
Proof. cbv zeta. repeat split; reflexivity. Qed.

(** ** The marker *)

(** C2, as stated, fails.  The order of the scenario is delivered and
    processed with success: orders [B1] and [B3] are created and the marker
    is written with a value.  The same event is delivered again while the
    read of the marker fails: [getOrderMetafield] answers [null], the check
    is skipped, every line item is processed again and two more downstream
    orders, [B2] and [B4], are created. *)
Lemma redelivery_with_failed_marker_read :
  let first :=
    Scenario.process Scenario.order
      (Scenario.delivery (JS.Returns tt) "B1" "B3") Scenario.fresh in
  let again :=
    Scenario.process Scenario.order
      (Scenario.delivery (JS.Throws None) "B2" "B4") (snd first) in
  fst first = JS.Returns (OrderService.Created ["B1"; "B3"]) /\
  OrderService.order_ids (snd first) = Some (JsonIds.stringify ["B1"; "B3"]) /\
  fst again = JS.Returns (OrderService.Created ["B2"; "B4"]) /\
  OrderService.created_orders (OrderService.sent (snd again))
  = ["B1"; "B3"; "B2"; "B4"].
Proof. cbv zeta. repeat split; reflexivity. Qed.

(** A marker whose value [JSON.parse] rejects has the same effect: the
    [SyntaxError] is caught with the rest of the check and the line items
    are processed. *)
Example unreadable_marker_is_skipped :
  let r :=
    Scenario.process Scenario.order
      (Scenario.delivery (JS.Returns tt) "B2" "B4")
      {| OrderService.order_ids := Some "pending";
         OrderService.sent := [] |} in
  fst r = JS.Returns (OrderService.Created ["B2"; "B4"]).
Proof. reflexivity. Qed.

(** C2, amended.  For a well-formed order, when the read of the
    [bunjang]/[order_ids] metafield goes through and returns a non-empty
    value that [JSON.parse] accepts, the orchestrator returns
    [{ success: true, alreadyProcessed: true }] with the parsed ids before
    any line item is processed: nothing is sent and the storefront state is
    untouched.  So a second delivery of an order event, after a run that
    returned success with the ids it created, creates no downstream order,
    provided the marker is read back. *)
Theorem marker_short_circuit :
  forall (json : Type) (JSON_parse : string -> option json)
         (JSON_stringify : list string -> string)
         (config : OrderService.Config) (order : OrderService.ShopifyOrder),
    (forall (env : OrderService.RunEnv) (before : OrderService.Shop)
            (value : string) (ids : json),
       valid_order order ->
       OrderService.r_metafieldQuery env = JS.Returns tt ->
       OrderService.order_ids before = Some value ->
       JS.truthy value = true ->
       JSON_parse value = Some ids ->
       OrderService.processShopifyOrderForBunjang json JSON_parse
         JSON_stringify config order env before
       = (JS.Returns (OrderService.AlreadyProcessed ids), before))
    /\
    (forall (env1 env2 : OrderService.RunEnv)
            (before after : OrderService.Shop)
            (ids : list string) (parsed : json),
       OrderService.processShopifyOrderForBunjang json JSON_parse
         JSON_stringify config order env1 before
       = (JS.Returns (OrderService.Created ids), after) ->
       OrderService.r_metafieldQuery env2 = JS.Returns tt ->
       JS.truthy (JSON_stringify ids) = true ->
       JSON_parse (JSON_stringify ids) = Some parsed ->
       OrderService.processShopifyOrderForBunjang json JSON_parse
         JSON_stringify config order env2 after
       = (JS.Returns (OrderService.AlreadyProcessed parsed), after)).
Proof.
  intros json JSON_parse JSON_stringify config order.
  assert (A : forall env before value ids,
            valid_order order ->
            OrderService.r_metafieldQuery env = JS.Returns tt ->
            OrderService.order_ids before = Some value ->
            JS.truthy value = true ->
            JSON_parse value = Some ids ->
            OrderService.processShopifyOrderForBunjang json JSON_parse
              JSON_stringify config order env before
            = (JS.Returns (OrderService.AlreadyProcessed ids), before)).
  { intros env before value ids Hv Hq Hm Ht Hp.
    unfold OrderService.processShopifyOrderForBunjang, OrderService.run.
    rewrite (valid_order_passes order Hv). unfold Eff.bind.
    rewrite (already_processed_found json JSON_parse env
               {| OrderService.shop := before;
                  OrderService.createdBunjangOrderIds := [];
                  OrderService.bunjangOrderSuccessfullyCreatedOverall := false |}
               value ids Hq Hm Ht Hp).
    reflexivity. }
  split; [exact A|].
  intros env1 env2 before after ids parsed Hrun Hq Ht Hp.
  apply run_result in Hrun as (Hv & _ & _ & Hm).
  now apply (A env2 after (JSON_stringify ids) parsed).
Qed.

Lemma marker_short_circuit_witness :
  let first :=
    Scenario.process Scenario.order
      (Scenario.delivery (JS.Returns tt) "B1" "B3") Scenario.fresh in
  Scenario.process Scenario.order
    (Scenario.delivery (JS.Returns tt) "B2" "B4") (snd first)
  = (JS.Returns (OrderService.AlreadyProcessed ["B1"; "B3"]), snd first).
Proof.
  cbv zeta.
  refine (proj2 (marker_short_circuit (list string) JsonIds.parse
                   JsonIds.stringify Scenario.config Scenario.order)
            (Scenario.delivery (JS.Returns tt) "B1" "B3") _ Scenario.fresh _
            ["B1"; "B3"] _ _ _ _ _); reflexivity.
Defined.

(** * Further properties of the embedded code *)

(** ** Locks *)

Section UpdateFacts.
Context {Doc : Type}.
Variables (filter : Doc -> bool) (update : Doc -> Doc).

Lemma findOneAndUpdate_at (pre post : list Doc) (d : Doc) :
  Forall (fun x => filter x = false) pre -> filter d = true ->
  Mongo.findOneAndUpdate filter update (pre ++ d :: post)
  = (Some (update d), (pre ++ update d :: post)%list).
Proof.
  intros Hpre Hd. induction Hpre as [|x pre Hx _ IH]; simpl.
  - now rewrite Hd.
  - now rewrite Hx, IH.
Qed.

Lemma findOneAndUpdate_nowhere (c : list Doc) :
  Forall (fun x => filter x = false) c ->
  Mongo.findOneAndUpdate filter update c = (None, c).
Proof.
  intros H. induction H as [|x c Hx _ IH]; simpl; auto.
  now rewrite Hx, IH.
Qed.

Lemma findOneAndUpdate_old_at (pre post : list Doc) (d : Doc) :
  Forall (fun x => filter x = false) pre -> filter d = true ->
  Mongo.findOneAndUpdate_old filter update (pre ++ d :: post)
  = (Some d, (pre ++ update d :: post)%list).
Proof.
  intros Hpre Hd. induction Hpre as [|x pre Hx _ IH]; simpl.
  - now rewrite Hd.
  - now rewrite Hx, IH.
Qed.

Lemma findOneAndUpdate_old_nowhere (c : list Doc) :
  Forall (fun x => filter x = false) c ->
  Mongo.findOneAndUpdate_old filter update c = (None, c).
Proof.
  intros H. induction H as [|x c Hx _ IH]; simpl; auto.
  now rewrite Hx, IH.
Qed.

(** The first match of a filter splits the collection. *)
Lemma first_match (c : list Doc) :
  Forall (fun x => filter x = false) c \/
  exists pre d post,
    c = (pre ++ d :: post)%list /\
    Forall (fun x => filter x = false) pre /\ filter d = true.
Proof.
  induction c as [|x c IH]; [left; constructor|].
  destruct (filter x) eqn:Hx.
  - right. exists [], x, c. auto.
  - destruct IH as [H|(pre & d & post & -> & Hpre & Hd)].
    + left. now constructor.
    + right. exists (x :: pre), d, post. auto.
Qed.
End UpdateFacts.

Section LockProtocolFacts.
Import SyncedProduct.

Lemma only_row_of_its_key (pre post : list t) (e : t) :
  NoDup (map bunjangPid (pre ++ e :: post)) ->
  Forall (fun d => has_pid (bunjangPid e) d = false) pre /\
  Forall (fun d => has_pid (bunjangPid e) d = false) post.
Proof.
  rewrite map_app. simpl. intros H.
  apply NoDup_remove_2 in H.
  rewrite !Forall_forall.
  split; intros d Hd; destruct (has_pid (bunjangPid e) d) eqn:E; auto;
    apply has_pid_spec in E; exfalso; apply H; rewrite <- E;
    apply in_or_app; [left|right]; now apply in_map.
Qed.

Lemma weaken_filter (pid : string) (free : t -> bool) (l : list t) :
  Forall (fun d => has_pid pid d = false) l ->
  Forall (fun d => has_pid pid d && free d = false) l.
Proof.
  apply Forall_impl. intros d H. now rewrite H.
Qed.

Lemma lock_free_set_lock (now : Z) (started : option Z) (job : option string)
    (expiry : Z) (d : t) :
  lock_free now (set_lock processing started job (Some expiry) d)
  = (expiry <? now).
Proof. reflexivity. Qed.

Lemma lock_free_set_release (now : Z) (status : ProcessingStatus) (d : t) :
  lock_free now (set_release status d)
  = negb (ProcessingStatus_eqb status processing).
Proof.
  unfold lock_free. simpl. now rewrite orb_false_r.
Qed.

End LockProtocolFacts.

(** X1.  A lock taken by [acquireLock] excludes every other job until it
    expires.  On a ledger with one row per product, when [acquireLock]
    returns an entry, [isLocked] holds of that entry exactly before the
    expiry it wrote; a second [acquireLock] on the product whose filter time
    is not after that expiry returns null and leaves the ledger as it is;
    one whose filter time is after it is given the same row, with its own
    job id and expiry. *)
Theorem lock_excludes_until_expiry :
  forall (clock clock' : SyncedProduct.LockClock) (pid jobId jobId' : string)
         (ttl ttl' : Z) (c : list SyncedProduct.t) (e : SyncedProduct.t),
    let held := snd (SyncedProduct.acquireLock clock pid jobId ttl c) in
    let expiry := SyncedProduct.at_expiry clock + ttl in
    NoDup (map SyncedProduct.bunjangPid c) ->
    fst (SyncedProduct.acquireLock clock pid jobId ttl c) = Some e ->
    (forall now, SyncedProduct.isLocked now e = (now <? expiry))
    /\ (SyncedProduct.at_filter clock' <= expiry ->
        SyncedProduct.acquireLock clock' pid jobId' ttl' held = (None, held))
    /\ (expiry < SyncedProduct.at_filter clock' ->
        exists e',
          fst (SyncedProduct.acquireLock clock' pid jobId' ttl' held) = Some e'
          /\ SyncedProduct._id e' = SyncedProduct._id e
          /\ SyncedProduct.processingJobId e' = Some jobId'
          /\ SyncedProduct.processingLockExpiry e'
             = Some (SyncedProduct.at_expiry clock' + ttl')).
Proof.
  intros clock clock' pid jobId jobId' ttl ttl' c e held expiry Hnd H.
  subst held. unfold SyncedProduct.acquireLock in *.
  destruct (findOneAndUpdate_Some _ _ _ _ H)
    as (pre & d & post & -> & _ & Hd & -> & ->).
  apply andb_true_iff in Hd as [Hpid _]. apply has_pid_spec in Hpid.
  destruct (only_row_of_its_key _ _ _ Hnd) as [Hpre Hpost].
  rewrite Hpid in Hpre, Hpost. fold expiry.
  split; [reflexivity|]. split.
  - intros Hle. apply findOneAndUpdate_nowhere.
    apply Forall_app. split; [now apply weaken_filter|].
    constructor; [|now apply weaken_filter].
    rewrite lock_free_set_lock. apply andb_false_iff. right.
    apply Z.ltb_ge. lia.
  - intros Hlt. rewrite findOneAndUpdate_at.
    + eexists. split; [reflexivity|]. simpl. auto.
    + now apply weaken_filter.
    + rewrite lock_free_set_lock. apply andb_true_iff. split.
      * apply has_pid_spec. simpl. exact Hpid.
      * apply Z.ltb_lt. lia.
Qed.

Lemma lock_excludes_until_expiry_witness :
  let e :=
    SyncedProduct.mk 1 "342351629" None None 1 None None
      SyncedProduct.idle None None None
      None None None None false [] 0 0 in
  let at_ now := {| SyncedProduct.at_expiry := now;
                    SyncedProduct.at_filter := now;
                    SyncedProduct.at_started := now |} in
  let held :=
    snd (SyncedProduct.acquireLock (at_ 1000) "342351629" "job-1" 60000 [e]) in
  SyncedProduct.acquireLock (at_ 61000) "342351629" "job-2" 60000 held
  = (None, held).
Proof.
  cbv zeta.
  refine (proj1 (proj2 (lock_excludes_until_expiry _ _ "342351629" "job-1"
                          "job-2" 60000 60000 _ _ _ _)) _).
  - repeat constructor; simpl; tauto.
  - reflexivity.
  - simpl. lia.
Defined.

Section CommuteFacts.
Context {Doc : Type}.
Variables (f1 f2 : Doc -> bool) (u1 u2 : Doc -> Doc).
Hypothesis apart1 : forall d, f1 d = true -> f2 d = false /\ f2 (u1 d) = false.
Hypothesis apart2 : forall d, f2 d = true -> f1 d = false /\ f1 (u2 d) = false.

Lemma updates_apart_commute (c : list Doc) :
  Mongo.findOneAndUpdate f2 u2 (snd (Mongo.findOneAndUpdate f1 u1 c))
  = (fst (Mongo.findOneAndUpdate f2 u2 c),
     snd (Mongo.findOneAndUpdate f1 u1 (snd (Mongo.findOneAndUpdate f2 u2 c)))).
Proof.
  induction c as [|d c IH]; simpl; [reflexivity|].
  destruct (f1 d) eqn:E1, (f2 d) eqn:E2; simpl.
  - destruct (apart1 d E1). congruence.
  - destruct (apart1 d E1) as [_ H]. now rewrite H, E1.
  - destruct (apart2 d E2) as [_ H]. now rewrite E2, H.
  - now rewrite E2, E1, IH.
Qed.
End CommuteFacts.

(** X2.  Locks on different products do not interfere: taking the lock of
    [pid1] and then the lock of [pid2] gives each caller the answer it would
    get alone, and the ledger is the same in either order. *)
Theorem locks_on_distinct_keys_commute :
  forall (clock1 clock2 : SyncedProduct.LockClock)
         (pid1 pid2 jobId1 jobId2 : string) (ttl1 ttl2 : Z)
         (c : list SyncedProduct.t),
    let first1 := SyncedProduct.acquireLock clock1 pid1 jobId1 ttl1 c in
    let first2 := SyncedProduct.acquireLock clock2 pid2 jobId2 ttl2 c in
    pid1 <> pid2 ->
    fst (SyncedProduct.acquireLock clock2 pid2 jobId2 ttl2 (snd first1))
      = fst first2
    /\ fst (SyncedProduct.acquireLock clock1 pid1 jobId1 ttl1 (snd first2))
       = fst first1
    /\ snd (SyncedProduct.acquireLock clock2 pid2 jobId2 ttl2 (snd first1))
       = snd (SyncedProduct.acquireLock clock1 pid1 jobId1 ttl1 (snd first2)).
Proof.
  intros clock1 clock2 pid1 pid2 jobId1 jobId2 ttl1 ttl2 c first1 first2 Hne.
  subst first1 first2. unfold SyncedProduct.acquireLock.
  assert (apart : forall (p q : string) (now now' : Z) u d,
            p <> q ->
            SyncedProduct.bunjangPid (u d) = SyncedProduct.bunjangPid d ->
            SyncedProduct.has_pid p d && SyncedProduct.lock_free now d = true ->
            SyncedProduct.has_pid q d && SyncedProduct.lock_free now' d = false
            /\ SyncedProduct.has_pid q (u d)
               && SyncedProduct.lock_free now' (u d) = false).
  { intros p q now now' u d Hpq Hu H.
    apply andb_true_iff in H as [H _]. apply has_pid_spec in H.
    assert (Hq : SyncedProduct.has_pid q d = false).
    { destruct (SyncedProduct.has_pid q d) eqn:E; auto.
      apply has_pid_spec in E. congruence. }
    unfold SyncedProduct.has_pid in *. rewrite Hu, Hq. auto. }
  rewrite updates_apart_commute.
  - simpl. split; [reflexivity|]. split; [|reflexivity].
    rewrite updates_apart_commute; [reflexivity| |].
    + intros d. apply apart; [congruence | reflexivity].
    + intros d. apply apart; [congruence | reflexivity].
  - intros d. apply apart; [congruence | reflexivity].
  - intros d. apply apart; [congruence | reflexivity].
Qed.

Lemma locks_on_distinct_keys_commute_witness :
  let row id pid :=
    SyncedProduct.mk id pid None None 1 None None
      SyncedProduct.idle None None None
      None None None None false [] 0 0 in
  let at_ now := {| SyncedProduct.at_expiry := now;
                    SyncedProduct.at_filter := now;
                    SyncedProduct.at_started := now |} in
  let c := [row 1%nat "342351629"; row 2%nat "342351630"] in
  snd (SyncedProduct.acquireLock (at_ 2000) "342351630" "job-2" 60000
         (snd (SyncedProduct.acquireLock (at_ 1000) "342351629" "job-1"
                 60000 c)))
  = snd (SyncedProduct.acquireLock (at_ 1000) "342351629" "job-1" 60000
           (snd (SyncedProduct.acquireLock (at_ 2000) "342351630" "job-2"
                   60000 c))).
Proof.
  cbv zeta.
  refine (proj2 (proj2 (locks_on_distinct_keys_commute _ _ "342351629"
                          "342351630" "job-1" "job-2" 60000 60000 _ _))).
  discriminate.
Defined.

(** X3.  [releaseLock] on a ledger with one row per product.  Where no row has
    the key, null is returned, nothing changes and the product still cannot
    be locked.  Otherwise the one row of the key is rewritten with the
    status given, it is no longer [isLocked] at any time, and the next
    [acquireLock] on the product succeeds exactly when the status given is
    not [processing]. *)
Theorem releaseLock_effect :
  forall (pid : string) (status : SyncedProduct.ProcessingStatus)
         (c : list SyncedProduct.t) (clock : SyncedProduct.LockClock)
         (jobId : string) (ttl : Z),
    let released := snd (SyncedProduct.releaseLock pid status c) in
    NoDup (map SyncedProduct.bunjangPid c) ->
    match fst (SyncedProduct.releaseLock pid status c) with
    | None =>
        (forall d, In d c -> SyncedProduct.bunjangPid d <> pid) /\
        released = c /\
        fst (SyncedProduct.acquireLock clock pid jobId ttl released) = None
    | Some before =>
        exists pre post,
          c = (pre ++ before :: post)%list /\
          SyncedProduct.bunjangPid before = pid /\
          released
          = (pre ++ SyncedProduct.set_release status before :: post)%list /\
          (forall now,
             SyncedProduct.isLocked now
               (SyncedProduct.set_release status before) = false) /\
          (fst (SyncedProduct.acquireLock clock pid jobId ttl released) <> None
           <-> status <> SyncedProduct.processing)
    end.
Proof.
  intros pid status c clock jobId ttl released Hnd. subst released.
  unfold SyncedProduct.releaseLock, SyncedProduct.acquireLock.
  destruct (first_match (SyncedProduct.has_pid pid) c)
    as [Hnone|(pre & d & post & -> & Hpre & Hd)].
  - rewrite findOneAndUpdate_old_nowhere by exact Hnone. simpl.
    split; [|split; [reflexivity|]].
    + intros d Hin E. rewrite Forall_forall in Hnone.
      apply has_pid_spec in E. specialize (Hnone d Hin). congruence.
    + rewrite findOneAndUpdate_nowhere; [reflexivity|].
      now apply weaken_filter.
  - rewrite findOneAndUpdate_old_at by assumption. simpl.
    exists pre, post. apply has_pid_spec in Hd.
    destruct (only_row_of_its_key _ _ _ Hnd) as [_ Hpost].
    rewrite Hd in Hpost.
    repeat split; auto.
    + intros now. unfold SyncedProduct.isLocked. simpl.
      now destruct (negb _).
    + intros H Hst. apply H. subst status.
      rewrite findOneAndUpdate_nowhere; [reflexivity|].
      apply Forall_app. split; [now apply weaken_filter|].
      constructor; [|now apply weaken_filter].
      rewrite lock_free_set_release. apply andb_false_r.
    + intros Hst. rewrite findOneAndUpdate_at.
      * discriminate.
      * now apply weaken_filter.
      * rewrite lock_free_set_release. apply andb_true_iff. split.
        -- apply has_pid_spec. exact Hd.
        -- apply negb_true_iff.
           destruct (SyncedProduct.ProcessingStatus_eqb status _) eqn:E; auto.
           apply ProcessingStatus_eqb_eq in E. contradiction.
Qed.

Lemma releaseLock_effect_witness :
  let held :=
    SyncedProduct.mk 1 "342351629" None None 1 None None
      SyncedProduct.processing (Some 1000) (Some "job-1") (Some 61000)
      None None None None false [] 0 0 in
  let clock := {| SyncedProduct.at_expiry := 2000;
                  SyncedProduct.at_filter := 2000;
                  SyncedProduct.at_started := 2000 |} in
  fst (SyncedProduct.acquireLock clock "342351629" "job-2" 60000
         (snd (SyncedProduct.releaseLock "342351629" SyncedProduct.completed
                 [held])))
  <> None.
Proof.
  cbv zeta.
  match goal with
  | |- fst (SyncedProduct.acquireLock ?clock _ _ _
              (snd (SyncedProduct.releaseLock _ _ ?c))) <> None =>
      assert (Hnd : NoDup (map SyncedProduct.bunjangPid c))
        by (repeat constructor; simpl; tauto);
      pose proof (releaseLock_effect "342351629" SyncedProduct.completed
                    c clock "job-2" 60000 Hnd) as H
  end.
  simpl in H. destruct H as (pre & post & _ & _ & _ & _ & H).
  apply H. discriminate.
Defined.

Section SweepThenLock.
Import SyncedProduct.

Lemma sweep_keeps_key (bound updated : Z) (msg : string) (p : string)
    (l : list t) :
  Forall (fun d => has_pid p d = false) l ->
  Forall (fun d => has_pid p d = false)
    (Mongo.updateMany (stuck bound) (set_failed updated msg) l).
Proof.
  intros H. unfold Mongo.updateMany. apply Forall_map.
  revert H. apply Forall_impl. intros d Hd. now destruct (stuck bound d).
Qed.

Lemma swept_row_can_be_locked (bound updated : Z) (msg : string)
    (c : list t) (e : t) (clock : LockClock) (jobId : string) (ttl : Z) :
  NoDup (map bunjangPid c) -> In e c -> stuck bound e = true ->
  fst (acquireLock clock (bunjangPid e) jobId ttl
         (Mongo.updateMany (stuck bound) (set_failed updated msg) c))
  = Some (set_lock processing (Some (at_started clock)) (Some jobId)
            (Some (at_expiry clock + ttl)) (set_failed updated msg e)).
Proof.
  intros Hnd Hin Hst. apply in_split in Hin as (pre & post & ->).
  destruct (only_row_of_its_key _ _ _ Hnd) as [Hpre _].
  unfold acquireLock, Mongo.updateMany. rewrite map_app. simpl. rewrite Hst.
  rewrite findOneAndUpdate_at; [reflexivity| |].
  - apply weaken_filter. now apply sweep_keeps_key.
  - apply andb_true_iff. split; [|reflexivity].
    apply has_pid_spec. reflexivity.
Qed.
End SweepThenLock.

(** X4.  A stuck entry is free again after a sweep.  On a ledger with one row
    per product, after [SyncedProduct.cleanupStuckProcessing] an entry that
    was stuck is given to the next [acquireLock] on its product, whatever
    its old lock expiry and the time of the call, and the entry still
    carries the message of the sweep.  The same holds after the sweep of the
    cleanup job, with its 30 minutes and its own message. *)
Theorem swept_entry_can_be_locked :
  forall (now updated timeoutMs : Z) (c : list SyncedProduct.t)
         (e : SyncedProduct.t)
         (clock : SyncedProduct.LockClock) (jobId : string) (ttl : Z),
    NoDup (map SyncedProduct.bunjangPid c) ->
    In e c ->
    SyncedProduct.stuck (now - timeoutMs) e = true ->
    (exists e',
       fst (SyncedProduct.acquireLock clock (SyncedProduct.bunjangPid e)
              jobId ttl
              (SyncedProduct.cleanupStuckProcessing now updated timeoutMs c))
       = Some e' /\
       SyncedProduct._id e' = SyncedProduct._id e /\
       SyncedProduct.processingJobId e' = Some jobId /\
       SyncedProduct.syncErrorMessage e'
       = Some "Processing timeout - cleaned up by system")
    /\
    (timeoutMs = 30 * 60 * 1000 ->
     exists e',
       fst (SyncedProduct.acquireLock clock (SyncedProduct.bunjangPid e)
              jobId ttl (CleanupJob.cleanupStuckProcessing now updated c))
       = Some e' /\
       SyncedProduct._id e' = SyncedProduct._id e /\
       SyncedProduct.processingJobId e' = Some jobId /\
       SyncedProduct.syncErrorMessage e' = Some "Processing timeout").
Proof.
  intros now updated timeoutMs c e clock jobId ttl Hnd Hin Hst. split.
  - unfold SyncedProduct.cleanupStuckProcessing.
    rewrite swept_row_can_be_locked by assumption.
    eexists. split; [reflexivity|]. simpl. auto.
  - intros ->. unfold CleanupJob.cleanupStuckProcessing.
    rewrite swept_row_can_be_locked by assumption.
    eexists. split; [reflexivity|]. simpl. auto.
Qed.

Lemma swept_entry_can_be_locked_witness :
  let e :=
    SyncedProduct.mk 1 "342351629" None None 1 None None
      SyncedProduct.processing (Some 0) (Some "job-1") (Some 10000000)
      None None None None false [] 0 0 in
  let clock := {| SyncedProduct.at_expiry := 2000000;
                  SyncedProduct.at_filter := 2000000;
                  SyncedProduct.at_started := 2000000 |} in
  exists e',
    fst (SyncedProduct.acquireLock clock "342351629" "job-2" 60000
           (SyncedProduct.cleanupStuckProcessing 2000000 2000001 1800000
              [e]))
    = Some e' /\
    SyncedProduct._id e' = 1%nat /\
    SyncedProduct.processingJobId e' = Some "job-2" /\
    SyncedProduct.syncErrorMessage e'
    = Some "Processing timeout - cleaned up by system".
Proof.
  cbv zeta.
  refine (proj1 (swept_entry_can_be_locked 2000000 2000001 1800000 _
                   (SyncedProduct.mk 1 "342351629" None None 1 None None
                      SyncedProduct.processing (Some 0) (Some "job-1")
                      (Some 10000000) None None None None false [] 0 0)
                   _ "job-2" 60000 _ _ _)).
  - repeat constructor; simpl; tauto.
  - simpl. auto.
  - reflexivity.
Defined.

Section FrameFacts.
Import SyncedProduct.
Context {V : Type}.
Variables (view : t -> V) (f : t -> bool) (u : t -> t).
Hypothesis kept : forall d, view (u d) = view d.

Lemma findOneAndUpdate_old_view (c : list t) :
  map view (snd (Mongo.findOneAndUpdate_old f u c)) = map view c.
Proof.
  induction c as [|d c IH]; simpl; auto.
  destruct (f d); simpl; [now rewrite kept | now rewrite IH].
Qed.

Lemma updateMany_view (c : list t) :
  map view (Mongo.updateMany f u c) = map view c.
Proof.
  unfold Mongo.updateMany. rewrite map_map. apply map_ext.
  intros d. now destruct (f d).
Qed.
End FrameFacts.

(** X5.  The lock operations leave the sale state alone: [acquireLock],
    [releaseLock] and both sweeps keep, row by row, the ids, the quantity,
    the sold fields and the pending order fields, and with them
    [displayStatus], [isSoldOut] and [needsBunjangOrder]. *)
Theorem lock_operations_keep_sale_state :
  forall (clock : SyncedProduct.LockClock) (pid jobId : string) (ttl : Z)
         (status : SyncedProduct.ProcessingStatus)
         (now updated timeoutMs : Z) (c : list SyncedProduct.t),
    map outside_lock (snd (SyncedProduct.acquireLock clock pid jobId ttl c))
      = map outside_lock c
    /\ map outside_lock (snd (SyncedProduct.releaseLock pid status c))
       = map outside_lock c
    /\ map outside_lock
         (SyncedProduct.cleanupStuckProcessing now updated timeoutMs c)
       = map outside_lock c
    /\ map outside_lock (CleanupJob.cleanupStuckProcessing now updated c)
       = map outside_lock c.
Proof.
  intros. repeat split.
  - apply (updateOne_view outside_lock). reflexivity.
  - now apply findOneAndUpdate_old_view.
  - now apply updateMany_view.
  - now apply updateMany_view.
Qed.

(** ** Duplicate keys *)

Section ReportFacts.
Import SyncedProduct CleanupJob.

Lemma group_of_key {A : Type} (f : t -> A) (c : list t) (g : Group A) :
  In g (group_by_pid f c) ->
  g_pushed g = map f (rows_of (g_id g) c) /\
  g_count g = List.length (rows_of (g_id g) c).
Proof.
  intros Hin.
  pose proof (well_grouped_fold f c [] (conj (NoDup_nil _) (Forall_nil _)))
    as [Hnd Hc].
  fold (group_by_pid f c) in Hnd, Hc.
  assert (E : g_pushed g = map f (rows_of (g_id g) c)).
  { rewrite <- (pushed_for_own _ g Hnd Hin). unfold group_by_pid.
    now rewrite pushed_for_fold. }
  split; [exact E|].
  rewrite Forall_forall in Hc. now rewrite (Hc g Hin), E, length_map.
Qed.

Lemma key_has_group {A : Type} (f : t -> A) (c : list t) (k : string) :
  rows_of k c <> [] ->
  exists g, In g (group_by_pid f c) /\ g_id g = k.
Proof.
  intros Hrows.
  assert (Hp : pushed_for k (group_by_pid f c) = map f (rows_of k c)).
  { unfold group_by_pid. now rewrite pushed_for_fold. }
  unfold pushed_for in Hp.
  destruct (find _ (group_by_pid f c)) as [g|] eqn:F.
  - apply find_some in F as [Hin E]. apply String.eqb_eq in E. now exists g.
  - destruct (rows_of k c); [congruence | discriminate].
Qed.

Lemma unique_keys_rows (c : list t) :
  NoDup (map bunjangPid c) <->
  forall k, (List.length (rows_of k c) <= 1)%nat.
Proof.
  unfold rows_of. induction c as [|d c IH]; simpl.
  - split; [auto | constructor].
  - rewrite NoDup_cons_iff, IH. split.
    + intros [Hd H] k. unfold has_pid at 1.
      destruct (bunjangPid d =? k)%string eqn:E; auto.
      apply String.eqb_eq in E. subst k.
      destruct (filter (has_pid (bunjangPid d)) c) as [|x l] eqn:F; auto.
      exfalso. apply Hd.
      assert (Hx : In x (filter (has_pid (bunjangPid d)) c))
        by (rewrite F; now left).
      apply filter_In in Hx as [Hx Hp]. apply has_pid_spec in Hp.
      rewrite <- Hp. now apply in_map.
    + intros H. split.
      * intros Hin. apply in_map_iff in Hin as (x & Hx & Hin).
        specialize (H (bunjangPid d)). unfold has_pid at 1 in H.
        rewrite String.eqb_refl in H.
        assert (Hf : In x (filter (has_pid (bunjangPid d)) c)).
        { apply filter_In. split; auto. now apply has_pid_spec. }
        destruct (filter (has_pid (bunjangPid d)) c); simpl in *; [tauto|lia].
      * intros k. specialize (H k).
        destruct (has_pid k d); simpl in H; lia.
Qed.

Lemma match_duplicates_nil_iff {A : Type} (f : t -> A) (c : list t) :
  match_duplicates (group_by_pid f c) = [] <-> NoDup (map bunjangPid c).
Proof.
  rewrite unique_keys_rows. unfold match_duplicates. split.
  - intros H k.
    destruct (rows_of k c) as [|x l] eqn:R; simpl; [lia|].
    destruct (key_has_group f c k) as (g & Hin & <-); [congruence|].
    destruct (group_of_key f c g Hin) as [_ Hc].
    assert (Hg : ~ In g (filter (fun g => (1 <? g_count g)%nat)
                            (group_by_pid f c)))
      by (rewrite H; auto).
    rewrite filter_In in Hg.
    destruct (1 <? g_count g)%nat eqn:E; [tauto|].
    apply Nat.ltb_ge in E. rewrite Hc, R in E. exact E.
  - intros H.
    destruct (filter _ (group_by_pid f c)) as [|g l] eqn:F; auto.
    assert (Hg : In g (filter (fun g => (1 <? g_count g)%nat)
                         (group_by_pid f c)))
      by (rewrite F; now left).
    apply filter_In in Hg as [Hin E]. apply Nat.ltb_lt in E.
    destruct (group_of_key f c g Hin) as [_ Hc].
    specialize (H (g_id g)). lia.
Qed.

Lemma insert_by_count_perm {A : Type} (g : Group A) (gs : list (Group A)) :
  Permutation (insert_by_count g gs) (g :: gs).
Proof.
  induction gs as [|h gs IH]; simpl; auto.
  destruct (g_count h <=? g_count g)%nat; auto.
  rewrite IH. apply perm_swap.
Qed.

Lemma sort_by_count_perm {A : Type} (gs : list (Group A)) :
  Permutation (sort_by_count gs) gs.
Proof.
  induction gs as [|g gs IH]; simpl; auto.
  rewrite insert_by_count_perm. now constructor.
Qed.

Lemma insert_by_count_sorted {A : Type} (g : Group A) (gs : list (Group A)) :
  Sorted by_count_descending gs ->
  Sorted by_count_descending (insert_by_count g gs).
Proof.
  induction 1 as [|h gs Hs IH Hh]; simpl.
  - repeat constructor.
  - destruct (g_count h <=? g_count g)%nat eqn:E.
    + apply Nat.leb_le in E. repeat constructor; auto.
    + apply Nat.leb_gt in E. constructor; auto.
      destruct gs as [|k gs]; simpl in *.
      * constructor. unfold by_count_descending. lia.
      * destruct (g_count k <=? g_count g)%nat; constructor.
        -- unfold by_count_descending. lia.
        -- now inversion Hh.
Qed.

Lemma sort_by_count_sorted {A : Type} (gs : list (Group A)) :
  StronglySorted by_count_descending (sort_by_count gs).
Proof.
  apply Sorted_StronglySorted.
  - intros a b d. unfold by_count_descending. lia.
  - induction gs as [|g gs IH]; simpl; [constructor|].
    now apply insert_by_count_sorted.
Qed.

Lemma NoDup_keys_filter {A : Type} (p : Group A -> bool) (gs : list (Group A)) :
  NoDup (map g_id gs) -> NoDup (map g_id (filter p gs)).
Proof.
  induction gs as [|g gs IH]; simpl; auto.
  intros H. inversion H as [|? ? Hg Hnd]; subst.
  destruct (p g); simpl; auto. constructor; auto.
  intros Hin. apply Hg. apply in_map_iff in Hin as (x & <- & Hx).
  apply filter_In in Hx as [Hx _]. now apply in_map.
Qed.
End ReportFacts.

(** X6.  The report of [findDuplicates]: every group reported has at least two
    rows, counts the rows of its key and lists their ids and creation dates
    in scan order; every key with at least two rows is reported; no key is
    reported twice; and the groups come by descending count. *)
Theorem findDuplicates_reports_each_duplicated_key :
  forall c : list SyncedProduct.t,
    let report := SyncedProduct.findDuplicates c in
    (forall g, In g report ->
       (2 <= SyncedProduct.g_count g)%nat /\
       SyncedProduct.g_count g
         = List.length (rows_of (SyncedProduct.g_id g) c) /\
       SyncedProduct.g_pushed g
         = map (fun d => (SyncedProduct._id d, SyncedProduct.createdAt d))
             (rows_of (SyncedProduct.g_id g) c))
    /\ (forall k, (2 <= List.length (rows_of k c))%nat ->
          exists g, In g report /\ SyncedProduct.g_id g = k)
    /\ NoDup (map SyncedProduct.g_id report)
    /\ StronglySorted by_count_descending report.
Proof.
  intros c report. subst report. unfold SyncedProduct.findDuplicates.
  set (f := fun d => (SyncedProduct._id d, SyncedProduct.createdAt d)).
  set (gs := SyncedProduct.group_by_pid f c).
  pose proof (sort_by_count_perm (SyncedProduct.match_duplicates gs)) as P.
  repeat split.
  - apply (Permutation_in _ P), filter_In in H as [_ H].
    apply Nat.ltb_lt in H. lia.
  - apply (Permutation_in _ P), filter_In in H as [H _].
    now apply group_of_key in H.
  - apply (Permutation_in _ P), filter_In in H as [H _].
    now apply group_of_key in H.
  - intros k Hk.
    destruct (key_has_group f c k) as (g & Hin & <-).
    { intros E. rewrite E in Hk. simpl in Hk. lia. }
    exists g. split; auto.
    apply (Permutation_in _ (Permutation_sym P)), filter_In. split; auto.
    apply Nat.ltb_lt. destruct (group_of_key f c g Hin) as [_ ->]. lia.
  - apply (Permutation_NoDup (l := map SyncedProduct.g_id
                                     (SyncedProduct.match_duplicates gs))).
    + apply Permutation_map. now apply Permutation_sym.
    + apply NoDup_keys_filter.
      apply (well_grouped_fold f c [] (conj (NoDup_nil _) (Forall_nil _))).
  - apply sort_by_count_sorted.
Qed.

(** X7.  [findDuplicates] reports nothing exactly when no two rows of the
    collection share a [bunjangPid]. *)
Theorem findDuplicates_empty_iff_keys_unique :
  forall c : list SyncedProduct.t,
    SyncedProduct.findDuplicates c = []
    <-> NoDup (map SyncedProduct.bunjangPid c).
Proof.
  intros c. unfold SyncedProduct.findDuplicates.
  rewrite <- (match_duplicates_nil_iff
                (fun d => (SyncedProduct._id d, SyncedProduct.createdAt d))).
  split; intros H.
  - apply Permutation_nil. rewrite <- H. apply sort_by_count_perm.
  - now rewrite H.
Qed.

Section KeptRows.
Import SyncedProduct CleanupJob.

Lemma seen_spec (k : string) (seen : list string) :
  existsb (String.eqb k) seen = true <-> In k seen.
Proof.
  rewrite existsb_exists. split.
  - intros (x & Hx & E). apply String.eqb_eq in E. now subst.
  - intros H. exists k. split; auto. apply String.eqb_refl.
Qed.

Lemma first_per_pid_keys (c : list t) :
  forall seen k,
    In k (map bunjangPid (first_per_pid seen c)) <->
    In k (map bunjangPid c) /\ ~ In k seen.
Proof.
  induction c as [|d c IH]; intros seen k; simpl; [tauto|].
  destruct (existsb _ seen) eqn:E.
  - apply seen_spec in E. rewrite IH. split.
    + tauto.
    + intros [[<-|H] Hs]; tauto.
  - assert (Hd : ~ In (bunjangPid d) seen).
    { intros H. apply seen_spec in H. congruence. }
    simpl. rewrite IH. simpl. split.
    + intros [<-|[H Hs]]; [tauto|]. split; [tauto|]. intros Hk. apply Hs. auto.
    + intros [[<-|H] Hs]; [tauto|].
      destruct (String.eqb_spec (bunjangPid d) k) as [->|Hne]; [tauto|].
      right. split; auto. intros [Hk|Hk]; tauto.
Qed.

Lemma first_per_pid_unique (c : list t) :
  forall seen, NoDup (map bunjangPid (first_per_pid seen c)).
Proof.
  induction c as [|d c IH]; intros seen; simpl; [constructor|].
  destruct (existsb _ seen); auto.
  simpl. constructor; auto.
  rewrite first_per_pid_keys. simpl. tauto.
Qed.

Lemma first_per_pid_rows (c : list t) :
  forall seen d, In d (first_per_pid seen c) -> In d c.
Proof.
  induction c as [|x c IH]; intros seen d; simpl; auto.
  destruct (existsb _ seen); simpl.
  - intros H. right. now apply IH in H.
  - intros [->|H]; auto. right. now apply IH in H.
Qed.

Lemma unique_keys_nothing_removed (c : list t) :
  NoDup (map bunjangPid c) -> findAndRemoveDuplicates c = c.
Proof.
  intros H. unfold findAndRemoveDuplicates.
  apply (match_duplicates_nil_iff _id) in H. now rewrite H.
Qed.
End KeptRows.

(** X8.  After [findAndRemoveDuplicates], on a collection with distinct [_id]s,
    there is one row per key: no two kept rows share a [bunjangPid], the
    keys are those of the collection, every kept row is a row of the
    collection, [findDuplicates] reports nothing, a second run removes
    nothing, and nothing at all is removed exactly when the keys were
    distinct already. *)
Theorem cleanup_leaves_one_row_per_key :
  forall c : list SyncedProduct.t,
    let kept := CleanupJob.findAndRemoveDuplicates c in
    NoDup (map SyncedProduct._id c) ->
    NoDup (map SyncedProduct.bunjangPid kept)
    /\ (forall k, In k (map SyncedProduct.bunjangPid kept)
                  <-> In k (map SyncedProduct.bunjangPid c))
    /\ (forall d, In d kept -> In d c)
    /\ SyncedProduct.findDuplicates kept = []
    /\ CleanupJob.findAndRemoveDuplicates kept = kept
    /\ (kept = c <-> NoDup (map SyncedProduct.bunjangPid c)).
Proof.
  intros c kept Hid. subst kept.
  rewrite (findAndRemoveDuplicates_keeps_first c Hid).
  pose proof (first_per_pid_unique c []) as Hu.
  repeat split.
  - exact Hu.
  - intros H. now apply first_per_pid_keys in H.
  - intros H. apply first_per_pid_keys. auto.
  - apply first_per_pid_rows.
  - unfold SyncedProduct.findDuplicates.
    apply (match_duplicates_nil_iff
             (fun d => (SyncedProduct._id d, SyncedProduct.createdAt d)))
      in Hu.
    now rewrite Hu.
  - now apply unique_keys_nothing_removed.
  - intros E. now rewrite E in Hu.
  - intros H. rewrite <- (findAndRemoveDuplicates_keeps_first c Hid).
    now apply unique_keys_nothing_removed.
Qed.

Lemma cleanup_leaves_one_row_per_key_witness :
  let row id updated :=
    SyncedProduct.mk id "342351629" None None 1 None None
      SyncedProduct.idle None None None
      None None None None false [] 50 updated in
  NoDup (map SyncedProduct.bunjangPid
           (CleanupJob.findAndRemoveDuplicates [row 1%nat 100; row 2%nat 200])).
Proof.
  cbv zeta.
  refine (proj1 (cleanup_leaves_one_row_per_key _ _)).
  repeat constructor; simpl; intuition discriminate.
Defined.

(** ** Stock checks *)

Section StockFacts.
Import JS Remote Eff InventoryService.
Variable LOCATION : string.

Lemma isAvailable_spec (d : Listing) :
  match l_status d with
  | Some s => (s =? "SELLING")%string
  | None => false
  end
  && match l_quantity d with
     | Some q => 0 <? q
     | None => false
     end = true <-> selling_with_stock d.
Proof.
  unfold selling_with_stock. rewrite andb_true_iff.
  destruct (l_status d) as [s|], (l_quantity d) as [q|]; split.
  - intros [Hs Hq]. apply String.eqb_eq in Hs. apply Z.ltb_lt in Hq.
    subst. eauto.
  - intros ([= ->] & q' & [= ->] & Hq). split; [reflexivity|].
    now apply Z.ltb_lt.
  - intros [_ H]. discriminate.
  - intros (_ & q & H & _). discriminate.
  - intros [H _]. discriminate.
  - intros (H & _). discriminate.
  - intros [H _]. discriminate.
  - intros (H & _). discriminate.
Qed.

Lemma checkAndSync_effect (env : StockEnv) (pid : string) (w : World) :
  let r := checkAndSyncBunjangInventory LOCATION env pid w in
  exists stock,
    fst r = Returns stock /\
    (stock = -1 \/
     exists d, r_productDetails env = Returns (Some d) /\
               (stock = 1 /\ selling_with_stock d \/
                stock = 0 /\ ~ selling_with_stock d)) /\
    (r_productDetails env = Returns None -> stock = -1 /\ snd r = w) /\
    map sale_view (ledger (snd r)) = map sale_view (ledger w) /\
    exists new, appended w (snd r) new /\ inventory_calls_of_one new = true.
Proof.
  intros r. subst r. unfold appended, inventory_calls_of_one.
  cbv beta iota zeta delta [checkAndSyncBunjangInventory try_catch bind await ret].
  destruct (r_productDetails env) as [[d|]|e]; cbn [fst snd].
  2,3: exists (-1); repeat split; auto; try discriminate;
       exists []; now rewrite app_nil_r.
  pose proof (isAvailable_spec d) as Ha.
  destruct (_ && _) eqn:E.
  - pose proof (syncBunjangInventoryToShopify_effect LOCATION
                  (sync_env env) pid 1 w) as H. cbv zeta in H.
    destruct (syncBunjangInventoryToShopify LOCATION (sync_env env) pid 1 w)
      as [[b|e] w1]; cbn [fst snd] in *;
      destruct H as (Hv & new & Hlog & Hinv & Hone).
    + exists 1. repeat split; auto; try discriminate.
      * right. exists d. split; auto. left. split; auto. now apply Ha.
      * exists new. now rewrite Hinv, Hone.
    + exists (-1). repeat split; auto; try discriminate.
      exists new. now rewrite Hinv, Hone.
  - pose proof (syncBunjangInventoryToShopify_effect LOCATION
                  (sync_env env) pid 0 w) as H. cbv zeta in H.
    destruct (syncBunjangInventoryToShopify LOCATION (sync_env env) pid 0 w)
      as [[b|e] w1]; cbn [fst snd] in *;
      destruct H as (Hv & new & Hlog & Hinv & Hone).
    + exists 0. repeat split; auto; try discriminate.
      * right. exists d. split; auto. right. split; auto.
        intros Hs. apply Ha in Hs. discriminate.
      * exists new. now rewrite Hinv, Hone.
    + exists (-1). repeat split; auto; try discriminate.
      exists new. now rewrite Hinv, Hone.
Qed.

Lemma inventory_calls_of_one_app (l1 l2 : list event) :
  inventory_calls_of_one l1 = true -> inventory_calls_of_one l2 = true ->
  inventory_calls_of_one (l1 ++ l2) = true.
Proof.
  unfold inventory_calls_of_one. rewrite !forallb_app, !andb_true_iff.
  tauto.
Qed.

Lemma batch_turns_effect (envs : nat -> StockEnv) (pids : list string) :
  forall (i : nat) (results : BatchResults) (w : World),
    let r := batch_turns LOCATION envs i pids results w in
    exists results' added,
      fst r = Returns results' /\
      b_success results' + b_failed results'
      = b_success results + b_failed results + Z.of_nat (List.length pids) /\
      b_errors results' = (b_errors results ++ added)%list /\
      b_failed results'
      = b_failed results + Z.of_nat (List.length added) /\
      Forall (fun entry => In (fst entry) pids /\
                           snd entry = CouldNotFetchStock) added /\
      map sale_view (ledger (snd r)) = map sale_view (ledger w) /\
      exists new, appended w (snd r) new /\ inventory_calls_of_one new = true.
Proof.
  induction pids as [|pid rest IH]; intros i results w r; subst r.
  - exists results, []. cbn. rewrite app_nil_r. repeat split; auto; try lia.
    exists []. unfold appended. now rewrite app_nil_r.
  - cbn [batch_turns].
    cbv beta iota zeta delta [bind batch_turn try_catch ret].
    pose proof (checkAndSync_effect (envs i) pid w) as H. cbv zeta in H.
    destruct H as (stock & Hr & Hstock & _ & Hv & new & Hlog & Hnew).
    destruct (checkAndSyncBunjangInventory LOCATION (envs i) pid w)
      as [res w1]; cbn [fst snd] in *. subst res.
    destruct (0 <=? stock) eqn:E; cbn [fst snd];
      match goal with
      | |- context [batch_turns _ _ _ _ ?res1 w1] =>
          specialize (IH (S i) res1 w1)
      end; cbv zeta in IH;
      destruct IH as (results' & added & Hres & Hsum & Herr & Hfail & Hall
                      & Hv' & new' & Hlog' & Hnew');
      cbn [b_success b_failed b_errors] in *.
    + exists results', added. rewrite Hres. repeat split; auto.
      * rewrite Hsum. cbn [List.length]. lia.
      * revert Hall. apply Forall_impl. intros entry [Hin Hs].
        split; auto. now right.
      * congruence.
      * exists (new ++ new')%list. split.
        -- unfold appended in *. now rewrite Hlog', Hlog, app_assoc.
        -- now apply inventory_calls_of_one_app.
    + exists results', ((pid, CouldNotFetchStock) :: added). rewrite Hres.
      repeat split; auto.
      * rewrite Hsum. cbn [List.length]. lia.
      * rewrite Herr, <- app_assoc. reflexivity.
      * rewrite Hfail. cbn [List.length]. lia.
      * constructor; [split; [now left | reflexivity]|].
        revert Hall. apply Forall_impl. intros entry [Hin Hs].
        split; auto. now right.
      * congruence.
      * exists (new ++ new')%list. split.
        -- unfold appended in *. now rewrite Hlog', Hlog, app_assoc.
        -- now apply inventory_calls_of_one_app.
Qed.
End StockFacts.

(** X9.  [checkAndSyncBunjangInventory] never throws.  It returns -1, or 1 for
    a listing that is [SELLING] with a positive quantity and 0 for any other
    listing; it returns -1 without any effect when the product is not
    found; it leaves the sale state of every ledger entry as it was and
    sends nothing but inventory calls of quantity 1. *)
Theorem checkAndSyncBunjangInventory_never_throws :
  forall (LOCATION : string) (env : InventoryService.StockEnv) (pid : string)
         (w : InventoryService.World),
    let r := InventoryService.checkAndSyncBunjangInventory LOCATION env pid w in
    exists stock,
      fst r = JS.Returns stock /\
      (stock = -1 \/
       exists d,
         InventoryService.r_productDetails env = JS.Returns (Some d) /\
         (stock = 1 /\ selling_with_stock d \/
          stock = 0 /\ ~ selling_with_stock d)) /\
      (InventoryService.r_productDetails env = JS.Returns None ->
       stock = -1 /\ snd r = w) /\
      map sale_view (InventoryService.ledger (snd r))
      = map sale_view (InventoryService.ledger w) /\
      exists new, appended w (snd r) new /\ inventory_calls_of_one new = true.
Proof. intros. apply checkAndSync_effect. Qed.

(** X10.  [batchSyncInventory] accounts for every product id: it returns,
    [success + failed] is the number of ids given, [failed] is the number of
    recorded errors, every error names an id of the batch with the message
    [Could not fetch stock], the sale state of the ledger is kept and only
    inventory calls of quantity 1 are sent. *)
Theorem batchSyncInventory_counts_every_pid :
  forall (LOCATION : string) (envs : nat -> InventoryService.StockEnv)
         (bunjangPids : list string) (w : InventoryService.World),
    let r := InventoryService.batchSyncInventory LOCATION envs bunjangPids w in
    exists results,
      fst r = JS.Returns results /\
      InventoryService.b_success results + InventoryService.b_failed results
      = Z.of_nat (List.length bunjangPids) /\
      InventoryService.b_failed results
      = Z.of_nat (List.length (InventoryService.b_errors results)) /\
      Forall (fun entry => In (fst entry) bunjangPids /\
                           snd entry = InventoryService.CouldNotFetchStock)
        (InventoryService.b_errors results) /\
      map sale_view (InventoryService.ledger (snd r))
      = map sale_view (InventoryService.ledger w) /\
      exists new, appended w (snd r) new /\ inventory_calls_of_one new = true.
Proof.
  intros LOCATION envs pids w r. subst r.
  unfold InventoryService.batchSyncInventory.
  pose proof (batch_turns_effect LOCATION envs pids 0
                {| InventoryService.b_success := 0;
                   InventoryService.b_failed := 0;
                   InventoryService.b_errors := [] |} w) as H.
  cbv zeta in H.
  destruct H as (results & added & Hres & Hsum & Herr & Hfail & Hall & Hv & H).
  cbn in Hsum, Herr, Hfail. subst added.
  exists results. repeat split; auto.
Qed.

(** ** Sales *)

Section FindFacts.
Context {Doc : Type}.
Variables (filter : Doc -> bool) (update : Doc -> Doc).

Lemma findOne_at (pre post : list Doc) (d : Doc) :
  Forall (fun x => filter x = false) pre -> filter d = true ->
  Mongo.findOne filter (pre ++ d :: post) = Some d.
Proof.
  intros Hpre Hd. unfold Mongo.findOne.
  induction Hpre as [|x pre Hx _ IH]; simpl.
  - now rewrite Hd.
  - now rewrite Hx.
Qed.

Lemma findOne_Some (c : list Doc) (d : Doc) :
  Mongo.findOne filter c = Some d ->
  exists pre post,
    c = (pre ++ d :: post)%list /\
    Forall (fun x => filter x = false) pre /\ filter d = true.
Proof.
  unfold Mongo.findOne. induction c as [|x c IH]; simpl; [discriminate|].
  destruct (filter x) eqn:Hx.
  - intros [= <-]. exists [], c. auto.
  - intros H. destruct (IH H) as (pre & post & -> & Hpre & Hd).
    exists (x :: pre), post. auto.
Qed.
End FindFacts.

Section SoldStateFacts.
Import JS Remote Eff InventoryService.
Variable LOCATION : string.

Lemma sync_ledger (env : Env) (pid : string) (q : Z) (w : World) :
  let r := syncBunjangInventoryToShopify LOCATION env pid q w in
  ledger (snd r) = ledger w \/
  ledger (snd r)
  = Mongo.updateOne (SyncedProduct.has_pid pid)
      (SyncedProduct.set_inventory q (at_inventorySync env)) (ledger w).
Proof.
  intros r. subst r.
  cbv beta iota delta
    [syncBunjangInventoryToShopify bind get ret await throw write modify].
  destruct (Mongo.findOne _ _) as [sp|]; [|now left].
  destruct (SyncedProduct.shopifyGid sp) as [gid|]; [|now left].
  destruct (truthy gid); [|now left]. cbn [negb].
  destruct (r_variants env) as [[[|[item|] rest]|]|e]; try now left.
  destruct (truthy item); [|now left]. cbn [negb].
  pose proof (updateInventoryLevel_effect LOCATION env item LOCATION q w) as H.
  cbv zeta in H.
  destruct (updateInventoryLevel LOCATION env item LOCATION q w)
    as [[res|e] w1]; cbn [fst snd ledger log] in *;
    destruct H as (Hl & _); rewrite Hl; auto.
Qed.

Lemma markProductAsSoldOut_ledger (env : Env) (gid pid : string) (w : World) :
  ledger (snd (markProductAsSoldOut LOCATION env gid pid w))
  = ledger (snd (syncBunjangInventoryToShopify LOCATION env pid 0 w)).
Proof.
  cbv beta iota delta [markProductAsSoldOut bind await ret send modify].
  destruct (syncBunjangInventoryToShopify LOCATION env pid 0 w)
    as [[b|e] w1]; cbn [fst snd]; auto.
  destruct (r_product env) as [[p|]|e]; cbn [fst snd ledger]; auto;
    destruct (r_updateProduct env); reflexivity.
Qed.

Lemma markProductAsDraft_ledger (env : Env) (gid pid platform : string)
    (w : World) :
  ledger (snd (markProductAsDraft LOCATION env gid pid platform w))
  = ledger (snd (syncBunjangInventoryToShopify LOCATION env pid 0 w)).
Proof.
  cbv beta iota zeta delta [markProductAsDraft bind await ret send modify].
  destruct (syncBunjangInventoryToShopify LOCATION env pid 0 w)
    as [[b|e] w1]; cbn [fst snd]; auto.
  destruct (r_product env) as [[p|]|e]; cbn [fst snd ledger]; auto;
    destruct (r_updateProduct env); reflexivity.
Qed.

(** The row that [save()] writes is the row that [findOne] read, whether or
    not the inventory step rewrote it in between. *)
Lemma saved_row (pid : string) (v : SyncedProduct.t -> SyncedProduct.t)
    (q at_ : Z) (c c1 : list SyncedProduct.t) (sp : SyncedProduct.t) :
  NoDup (map SyncedProduct._id c) ->
  Mongo.findOne (SyncedProduct.has_pid pid) c = Some sp ->
  (forall d, SyncedProduct.bunjangPid (v d) = SyncedProduct.bunjangPid d) ->
  c1 = c \/
  c1 = Mongo.updateOne (SyncedProduct.has_pid pid)
         (SyncedProduct.set_inventory q at_) c ->
  exists sp1,
    (sp1 = sp \/ sp1 = SyncedProduct.set_inventory q at_ sp) /\
    Mongo.findOne (SyncedProduct.has_pid pid)
      (Mongo.updateOne
         (fun d => Nat.eqb (SyncedProduct._id d) (SyncedProduct._id sp)) v c1)
    = Some (v sp1).
Proof.
  intros Hnd Hf Hv Hc1.
  destruct (findOne_Some _ _ _ Hf) as (pre & post & -> & Hpre & Hsp).
  assert (Hid : Forall (fun d => Nat.eqb (SyncedProduct._id d)
                                   (SyncedProduct._id sp) = false) pre).
  { rewrite map_app in Hnd. simpl in Hnd. apply NoDup_remove_2 in Hnd.
    rewrite Forall_forall. intros d Hd. apply Nat.eqb_neq. intros E.
    apply Hnd. rewrite <- E. apply in_or_app. left. now apply in_map. }
  assert (Hfound : forall sp1,
            SyncedProduct._id sp1 = SyncedProduct._id sp ->
            SyncedProduct.bunjangPid sp1 = SyncedProduct.bunjangPid sp ->
            Mongo.findOne (SyncedProduct.has_pid pid)
              (Mongo.updateOne
                 (fun d => Nat.eqb (SyncedProduct._id d) (SyncedProduct._id sp))
                 v (pre ++ sp1 :: post))
            = Some (v sp1)).
  { intros sp1 E1 E2. unfold Mongo.updateOne.
    rewrite findOneAndUpdate_at; auto.
    - cbn [snd]. apply findOne_at; auto.
      unfold SyncedProduct.has_pid in *. now rewrite Hv, E2.
    - rewrite E1. apply Nat.eqb_refl. }
  destruct Hc1 as [-> | ->].
  - exists sp. split; auto.
  - exists (SyncedProduct.set_inventory q at_ sp). split; auto.
    unfold Mongo.updateOne at 2. rewrite findOneAndUpdate_at; auto.
    cbn [snd]. now apply Hfound.
Qed.
End SoldStateFacts.

Section HandlerFacts.
Import JS Remote Eff InventoryService.
Variable LOCATION : string.

Lemma handler_final_state (env : Env) (pid gid origin : string) (w : World)
    (entry : SyncedProduct.t) (res : Result) :
  let r := handleProductSoldStatus LOCATION env pid gid origin w in
  NoDup (map SyncedProduct._id (ledger w)) ->
  Mongo.findOne (SyncedProduct.has_pid pid) (ledger w) = Some entry ->
  fst r = Returns res ->
  (success res = true /\
   (origin = "both" \/ origin = "bunjang" \/ origin = "shopify") /\
   exists entry',
     Mongo.findOne (SyncedProduct.has_pid pid) (ledger (snd r)) = Some entry'
     /\ sold_state env origin entry entry')
  \/
  (success res = false /\
   origin <> "both" /\ origin <> "bunjang" /\ origin <> "shopify" /\
   snd r = w).
Proof.
  intros r Hnd Hf. subst r.
  cbv beta iota delta [handleProductSoldStatus bind get ret save write modify].
  rewrite Hf. unfold sold_state.
  destruct (String.eqb_spec origin "both") as [->|Hboth].
  { pose proof (markProductAsSoldOut_ledger LOCATION env gid pid w) as Hl.
    pose proof (sync_ledger LOCATION env pid 0 w) as Hs. cbv zeta in Hs.
    destruct (markProductAsSoldOut LOCATION env gid pid w) as [[u|e'] w1];
      cbn [fst snd ledger] in *; [|discriminate].
    intros [= <-]. left. split; [reflexivity|]. split; [auto|].
    rewrite <- Hl in Hs.
    destruct (saved_row pid
                (SyncedProduct.set_sold SyncedProduct.SOLD_OUT
                   SyncedProduct.both (at_soldAt env) None)
                0 (at_inventorySync env) _ _ _ Hnd Hf
                (fun d => eq_refl) Hs) as (sp1 & Hsp1 & Hfound).
    eexists. split; [exact Hfound|].
    destruct Hsp1 as [-> | ->]; cbn; auto 10. }
  destruct (String.eqb_spec origin "bunjang") as [->|Hbunjang].
  { pose proof (markProductAsDraft_ledger LOCATION env gid pid "bunjang" w)
      as Hl.
    pose proof (sync_ledger LOCATION env pid 0 w) as Hs. cbv zeta in Hs.
    destruct (markProductAsDraft LOCATION env gid pid "bunjang" w)
      as [[u|e'] w1]; cbn [fst snd ledger] in *; [|discriminate].
    intros [= <-]. left. split; [reflexivity|]. split; [auto|].
    rewrite <- Hl in Hs.
    destruct (saved_row pid
                (SyncedProduct.set_sold SyncedProduct.DRAFT
                   SyncedProduct.bunjang (at_soldAt env)
                   (Some (at_bunjangSoldAt env)))
                0 (at_inventorySync env) _ _ _ Hnd Hf
                (fun d => eq_refl) Hs) as (sp1 & Hsp1 & Hfound).
    eexists. split; [exact Hfound|].
    destruct Hsp1 as [-> | ->]; cbn; auto 10. }
  destruct (String.eqb_spec origin "shopify") as [->|Hshopify].
  { pose proof (sync_ledger LOCATION env pid 0 w) as Hs. cbv zeta in Hs.
    destruct (syncBunjangInventoryToShopify LOCATION env pid 0 w)
      as [[u|e'] w1]; cbn [fst snd ledger] in *; [|discriminate].
    intros [= <-]. left. split; [reflexivity|]. split; [auto|].
    destruct (saved_row pid
                (SyncedProduct.set_pending (at_shopifySoldAt env))
                0 (at_inventorySync env) _ _ _ Hnd Hf
                (fun d => eq_refl) Hs) as (sp1 & Hsp1 & Hfound).
    eexists. split; [exact Hfound|].
    destruct Hsp1 as [-> | ->]; cbn; auto 10. }
  cbn [fst snd]. intros [= <-]. right. auto.
Qed.
End HandlerFacts.

(** X11.  The ledger entry after [handleProductSoldStatus] returned, on a ledger
    with distinct [_id]s that holds an entry of the product.  Either the
    result reports success, the origin is one of [both], [bunjang] and
    [shopify], and the entry of the product is in the state of that origin:
    [both] sets [soldFrom], [SOLD_OUT] and [soldAt]; [bunjang] sets
    [soldFrom], [DRAFT], [soldAt] and [bunjangSoldAt], also over an entry
    that was sold on both; [shopify] only sets the pending flag and
    [shopifySoldAt].  Or the result reports failure, the origin is none of
    the three, and nothing changed. *)
Theorem sold_status_final_state :
  forall (LOCATION : string) (env : InventoryService.Env)
         (pid gid origin : string) (w : InventoryService.World)
         (entry : SyncedProduct.t) (res : InventoryService.Result),
    let r :=
      InventoryService.handleProductSoldStatus LOCATION env pid gid origin w in
    NoDup (map SyncedProduct._id (InventoryService.ledger w)) ->
    Mongo.findOne (SyncedProduct.has_pid pid) (InventoryService.ledger w)
      = Some entry ->
    fst r = JS.Returns res ->
    (InventoryService.success res = true /\
     (origin = "both" \/ origin = "bunjang" \/ origin = "shopify") /\
     exists entry',
       Mongo.findOne (SyncedProduct.has_pid pid)
         (InventoryService.ledger (snd r)) = Some entry'
       /\ sold_state env origin entry entry')
    \/
    (InventoryService.success res = false /\
     origin <> "both" /\ origin <> "bunjang" /\ origin <> "shopify" /\
     snd r = w).
Proof. intros. now apply handler_final_state. Qed.

Lemma sold_status_final_state_witness :
  let entry :=
    SyncedProduct.mk 1 "342351629" (Some "gid://shopify/Product/9")
      (Some SyncedProduct.SOLD_OUT) 0 (Some 400) None
      SyncedProduct.idle None None None
      (Some SyncedProduct.both) (Some 500) (Some 300) (Some 200) true ["B1"]
      0 0 in
  let env :=
    {| InventoryService.r_variants :=
         JS.Returns (Some [Some "gid://shopify/InventoryItem/5"]);
       InventoryService.r_levels := JS.Returns ["gid://shopify/Location/1"];
       InventoryService.r_activate := JS.Returns false;
       InventoryService.r_setQuantity := JS.Returns false;
       InventoryService.r_product :=
         JS.Returns (Some {| InventoryService.p_title := "Bag";
                             InventoryService.p_tags := None |});
       InventoryService.r_updateProduct := JS.Returns tt;
       InventoryService.at_inventorySync := 1000;
       InventoryService.at_soldAt := 1001;
       InventoryService.at_bunjangSoldAt := 1002;
       InventoryService.at_shopifySoldAt := 1003 |} in
  let w := {| InventoryService.ledger := [entry]; InventoryService.log := [] |} in
  let r :=
    InventoryService.handleProductSoldStatus "gid://shopify/Location/1" env
      "342351629" "gid://shopify/Product/9" "bunjang" w in
  exists entry',
    Mongo.findOne (SyncedProduct.has_pid "342351629")
      (InventoryService.ledger (snd r)) = Some entry'
    /\ sold_state env "bunjang" entry entry'.
Proof.
  cbv zeta.
  match goal with
  | |- exists entry',
         Mongo.findOne _
           (InventoryService.ledger
              (snd (InventoryService.handleProductSoldStatus ?loc ?env ?pid
                      ?gid ?origin ?w))) = Some entry' /\ _ =>
      destruct (sold_status_final_state loc env pid gid origin w
                  (SyncedProduct.mk 1 "342351629"
                     (Some "gid://shopify/Product/9")
                     (Some SyncedProduct.SOLD_OUT) 0 (Some 400) None
                     SyncedProduct.idle None None None
                     (Some SyncedProduct.both) (Some 500) (Some 300)
                     (Some 200) true ["B1"] 0 0)
                  {| InventoryService.action := Some "marked_draft_bunjang";
                     InventoryService.success := true;
                     InventoryService.message :=
                       "Product marked as DRAFT (sold only on Bunjang)" |})
        as [(_ & _ & H)|(Hs & _)]
  end.
  - repeat constructor; simpl; tauto.
  - reflexivity.
  - reflexivity.
  - exact H.
  - simpl in Hs. discriminate Hs.
Defined.

(** X12.  [processOrderCompletion]: when the ledger has no entry of the product
    it returns the [Product not found] result without any effect; otherwise,
    when it returns, it reports success and the entry is in the sold state
    of the origin it chose: [both] when the downstream order was created,
    else [bunjang] when the entry has a [bunjangSoldAt], else [shopify]. *)
Theorem order_completion_final_state :
  forall (LOCATION : string) (env : InventoryService.Env) (pid : string)
         (bunjangOrderCreated : bool) (w : InventoryService.World),
    let r :=
      InventoryService.processOrderCompletion LOCATION env pid
        bunjangOrderCreated w in
    NoDup (map SyncedProduct._id (InventoryService.ledger w)) ->
    match Mongo.findOne (SyncedProduct.has_pid pid)
            (InventoryService.ledger w) with
    | None =>
        r = (JS.Returns {| InventoryService.action := None;
                           InventoryService.success := false;
                           InventoryService.message := "Product not found" |},
             w)
    | Some entry =>
        let origin :=
          if bunjangOrderCreated then "both"
          else match SyncedProduct.bunjangSoldAt entry with
               | Some _ => "bunjang"
               | None => "shopify"
               end in
        forall res, fst r = JS.Returns res ->
          InventoryService.success res = true /\
          exists entry',
            Mongo.findOne (SyncedProduct.has_pid pid)
              (InventoryService.ledger (snd r)) = Some entry'
            /\ sold_state env origin entry entry'
    end.
Proof.
  intros LOCATION env pid created w r Hnd. subst r.
  unfold InventoryService.processOrderCompletion.
  cbv beta iota delta [Eff.bind Eff.get Eff.ret].
  destruct (Mongo.findOne _ _) as [entry|] eqn:Hf; [|reflexivity].
  cbv beta iota zeta.
  set (origin := if created then "both" else _). intros res Hres.
  destruct (handler_final_state LOCATION env pid _ origin w entry res Hnd Hf
              Hres) as [(Hs & _ & H)|(_ & H1 & H2 & H3 & _)]; auto.
  exfalso. subst origin.
  destruct created; [congruence|].
  destruct (SyncedProduct.bunjangSoldAt entry); congruence.
Qed.

Lemma order_completion_final_state_witness :
  let entry :=
    SyncedProduct.mk 1 "342351629" (Some "gid://shopify/Product/9")
      (Some SyncedProduct.ACTIVE) 1 None None
      SyncedProduct.idle None None None
      None None (Some 300) None true [] 0 0 in
  let env :=
    {| InventoryService.r_variants :=
         JS.Returns (Some [Some "gid://shopify/InventoryItem/5"]);
       InventoryService.r_levels := JS.Returns ["gid://shopify/Location/1"];
       InventoryService.r_activate := JS.Returns false;
       InventoryService.r_setQuantity := JS.Returns false;
       InventoryService.r_product :=
         JS.Returns (Some {| InventoryService.p_title := "Bag";
                             InventoryService.p_tags := None |});
       InventoryService.r_updateProduct := JS.Returns tt;
       InventoryService.at_inventorySync := 1000;
       InventoryService.at_soldAt := 1001;
       InventoryService.at_bunjangSoldAt := 1002;
       InventoryService.at_shopifySoldAt := 1003 |} in
  let w := {| InventoryService.ledger := [entry]; InventoryService.log := [] |} in
  let r :=
    InventoryService.processOrderCompletion "gid://shopify/Location/1" env
      "342351629" true w in
  exists entry',
    Mongo.findOne (SyncedProduct.has_pid "342351629")
      (InventoryService.ledger (snd r)) = Some entry'
    /\ sold_state env "both" entry entry'.
Proof.
  cbv zeta.
  match goal with
  | |- exists entry',
         Mongo.findOne _
           (InventoryService.ledger
              (snd (InventoryService.processOrderCompletion ?loc ?env ?pid
                      ?created ?w))) = Some entry' /\ _ =>
      assert (Hnd : NoDup (map SyncedProduct._id (InventoryService.ledger w)))
        by (repeat constructor; simpl; tauto);
      exact (proj2 (order_completion_final_state loc env pid created w Hnd
                      {| InventoryService.action := Some "marked_sold_out";
                         InventoryService.success := true;
                         InventoryService.message :=
                           "Product marked as SOLD OUT (sold on both platforms)" |}
                      eq_refl))
  end.
Defined.

Section MarkerFacts.
Import JS Remote Eff InventoryService.
Variable LOCATION : string.

Lemma array_includes_spec (seen : list string) (t : string) :
  array_includes seen t = true <-> In t seen.
Proof.
  unfold array_includes. rewrite existsb_exists. split.
  - intros (x & Hx & E). apply String.eqb_eq in E. now subst.
  - intros H. exists t. split; auto. apply String.eqb_refl.
Qed.

Lemma dedupe_spec (tags : list string) :
  forall seen,
    NoDup (dedupe seen tags) /\
    forall t, In t (dedupe seen tags) <-> In t tags /\ ~ In t seen.
Proof.
  induction tags as [|x tags IH]; intros seen; simpl.
  - split; [constructor | tauto].
  - destruct (array_includes seen x) eqn:E.
    + apply array_includes_spec in E.
      destruct (IH seen) as [Hnd Hin]. split; auto.
      intros t. rewrite Hin. split; [tauto|].
      intros [[<-|H] Hs]; tauto.
    + assert (Hx : ~ In x seen).
      { intros H. apply array_includes_spec in H. congruence. }
      destruct (IH (x :: seen)) as [Hnd Hin]. split.
      * constructor; auto. rewrite Hin. simpl. tauto.
      * intros t. simpl. rewrite Hin. simpl. split.
        -- intros [<-|[H Hs]]; tauto.
        -- intros [[<-|H] Hs]; auto.
           destruct (String.eqb_spec x t) as [->|Hne]; [auto | tauto].
Qed.

Lemma markProductAsSoldOut_calls (env : Env) (gid pid : string) (w : World) :
  exists new,
    appended w (snd (markProductAsSoldOut LOCATION env gid pid w)) new /\
    sale_calls env gid "both" new.
Proof.
  unfold appended, sale_calls, inventory_calls_of_one.
  pose proof (syncBunjangInventoryToShopify_effect LOCATION env pid 0 w) as H.
  cbv zeta in H.
  cbv beta iota delta [markProductAsSoldOut bind await ret send modify].
  destruct (syncBunjangInventoryToShopify LOCATION env pid 0 w)
    as [[b|e] w1]; cbn [fst snd] in *;
    destruct H as (_ & new & Hlog & Hinv & Hone).
  2:{ exists new. split; auto. exists new, []. rewrite app_nil_r, Hinv, Hone.
      auto. }
  destruct (r_product env) as [[p|]|e] eqn:Hp; cbn [fst snd ledger log].
  2,3: exists new; split; auto; exists new, [];
       rewrite app_nil_r, Hinv, Hone; auto.
  eexists (new ++ [UpdateProduct _])%list. split.
  { destruct (r_updateProduct env); cbn [snd log];
      rewrite Hlog, <- app_assoc; reflexivity. }
  exists new. eexists. split; [reflexivity|]. rewrite Hinv, Hone.
  split; auto. right. exists p. eexists. split; [reflexivity|].
  split; [reflexivity|]. cbn [pi_id pi_status pi_tags pi_title].
  repeat split; auto.
  - repeat constructor; simpl; intuition discriminate.
  - destruct (includes (p_title p) "[SOLD OUT]") eqn:E; cbn [negb]; auto.
  - intros E. now rewrite E.
Qed.

Lemma markProductAsDraft_calls (env : Env) (gid pid : string) (w : World) :
  exists new,
    appended w (snd (markProductAsDraft LOCATION env gid pid "bunjang" w)) new
    /\ sale_calls env gid "bunjang" new.
Proof.
  unfold appended, sale_calls, inventory_calls_of_one.
  pose proof (syncBunjangInventoryToShopify_effect LOCATION env pid 0 w) as H.
  cbv zeta in H.
  cbv beta iota zeta delta [markProductAsDraft bind await ret send modify].
  destruct (syncBunjangInventoryToShopify LOCATION env pid 0 w)
    as [[b|e] w1]; cbn [fst snd] in *;
    destruct H as (_ & new & Hlog & Hinv & Hone).
  2:{ exists new. split; auto. exists new, []. rewrite app_nil_r, Hinv, Hone.
      auto. }
  destruct (r_product env) as [[p|]|e] eqn:Hp; cbn [fst snd ledger log].
  2,3: exists new; split; auto; exists new, [];
       rewrite app_nil_r, Hinv, Hone; auto.
  eexists (new ++ [UpdateProduct _])%list. split.
  { destruct (r_updateProduct env); cbn [snd log];
      rewrite Hlog, <- app_assoc; reflexivity. }
  exists new. eexists. split; [reflexivity|]. rewrite Hinv, Hone.
  split; auto. right. exists p. eexists. split; [reflexivity|].
  split; [reflexivity|]. cbn [pi_id pi_status pi_tags pi_title].
  change ("bunjang" =? "bunjang")%string with true. cbn [andb].
  split; [reflexivity|]. split; [reflexivity|]. split.
  { apply dedupe_spec. }
  unfold marked. change ("bunjang" =? "both")%string with false.
  cbv beta iota zeta. cbn [pi_title pi_tags].
  destruct (includes (p_title p) sold_bunjang_marker) eqn:E; cbn [negb].
  - repeat split; auto.
    + intros H. apply dedupe_spec in H. tauto.
    + intros [H|[_ H]]; [|discriminate]. apply dedupe_spec. tauto.
  - repeat split; try discriminate.
    + intros H. apply dedupe_spec in H as [H _].
      apply in_app_or in H as [H|[<-|[]]]; auto.
    + intros [H|[-> _]]; apply dedupe_spec; split; auto;
        apply in_or_app; [left | right; left]; auto.
Qed.

Lemma handler_calls (env : Env) (pid gid origin : string) (w : World) :
  exists new,
    appended w (snd (handleProductSoldStatus LOCATION env pid gid origin w)) new
    /\ sale_calls env gid origin new.
Proof.
  assert (Nothing : sale_calls env gid origin []).
  { exists [], []. auto. }
  cbv beta iota delta [handleProductSoldStatus bind get ret save write modify].
  destruct (Mongo.findOne _ _) as [sp|]; cbn [fst snd].
  2:{ exists []. split; auto. unfold appended. now rewrite app_nil_r. }
  destruct (String.eqb_spec origin "both") as [->|Hboth].
  { destruct (markProductAsSoldOut_calls env gid pid w) as (new & Hlog & H).
    exists new. split; auto. unfold appended in *.
    destruct (markProductAsSoldOut LOCATION env gid pid w) as [[u|e'] w1];
      cbn [fst snd log] in *; auto. }
  destruct (String.eqb_spec origin "bunjang") as [->|Hbunjang].
  { destruct (markProductAsDraft_calls env gid pid w) as (new & Hlog & H).
    exists new. split; auto. unfold appended in *.
    destruct (markProductAsDraft LOCATION env gid pid "bunjang" w)
      as [[u|e'] w1]; cbn [fst snd log] in *; auto. }
  destruct (String.eqb_spec origin "shopify") as [->|Hshopify].
  { pose proof (syncBunjangInventoryToShopify_effect LOCATION env pid 0 w)
      as H.
    cbv zeta in H. destruct H as (_ & new & Hlog & Hinv & Hone).
    exists new. split.
    - unfold appended.
      destruct (syncBunjangInventoryToShopify LOCATION env pid 0 w)
        as [[u|e'] w1]; cbn [fst snd log] in *; auto.
    - exists new, []. rewrite app_nil_r. unfold inventory_calls_of_one.
      rewrite Hinv, Hone. auto. }
  cbn [fst snd]. exists []. split; auto. unfold appended.
  now rewrite app_nil_r.
Qed.

Lemma product_updates_app (l1 l2 : list event) :
  product_updates (l1 ++ l2)
  = (product_updates l1 ++ product_updates l2)%list.
Proof. unfold product_updates. apply flat_map_app. Qed.

Lemma inventory_calls_no_update (inv : list event) :
  inventory_calls_of_one inv = true -> product_updates inv = [].
Proof.
  unfold inventory_calls_of_one. intros H.
  apply andb_true_iff in H as [H _].
  induction inv as [|ev inv IH]; [reflexivity|].
  cbn [forallb] in H. apply andb_true_iff in H as [Hev H].
  destruct ev; try discriminate; cbn; auto.
Qed.
End MarkerFacts.

(** X13.  The product update that a sale asks for.
    [handleProductSoldStatus] calls [shopifyService.updateProduct] at most
    once, and the input of that call sets the listing given to [DRAFT],
    repeats no tag, has the sale marker of the case in its title and leaves
    a title that already has the marker as it is.  (What [updateProduct]
    sends to the storefront in turn is not part of the statement.) *)
Theorem sale_drafts_the_listing_and_marks_it_once :
  forall (LOCATION : string) (env : InventoryService.Env)
         (pid gid origin : string) (w : InventoryService.World),
    exists new,
      appended w
        (snd (InventoryService.handleProductSoldStatus LOCATION env pid gid
                origin w)) new
      /\ sale_update env gid origin new.
Proof.
  intros LOCATION env pid gid origin w.
  destruct (handler_calls LOCATION env pid gid origin w)
    as (new & Hnew & inv & rest & -> & Hinv & Hrest).
  exists (inv ++ rest)%list. split; [exact Hnew|].
  unfold sale_update. rewrite product_updates_app.
  rewrite (inventory_calls_no_update inv Hinv). cbn [List.app].
  destruct Hrest as [->|(p & input & Hp & -> & H)].
  - now left.
  - right. exists p, input. split; [exact Hp|]. split; [reflexivity|exact H].
Qed.

(** ** The cancellation engine and its hooks *)

Section EngineFacts.
Import JS Remote OrderCancellationService.
Variable json : Type.
Variable JSON_parse : string -> option json.
Variable length_positive : json -> option bool.
Variable config : Config.

Lemma hasError_spec (tags : list string) :
  hasError (checkBunjangOrderErrors tags)
  = existsb matches_error_pattern tags.
Proof.
  rewrite checkBunjangOrderErrors_find.
  induction tags as [|tag tags IH]; simpl; auto.
  destruct (matches_error_pattern tag); simpl; auto.
Qed.

Lemma cancelEntireOrder_calls (env : Env) (order : Order) (options : Options) :
  exists first rest,
    snd (cancelEntireOrder config env order options) = first :: rest /\
    is_OrderCancel first = true /\ no_restock first = true /\
    tagging order rest.
Proof.
  unfold cancelEntireOrder, tagging.
  destruct (r_orderCancel env) as [response|e]; cbn [snd].
  2:{ eexists _, []. cbn. auto. }
  destruct (nonempty (orderCancelUserErrors response)); cbn [snd].
  { eexists _, []. cbn. auto. }
  destruct (job response) as [j|]; cbn [snd].
  2:{ eexists _, []. cbn. auto. }
  destruct (r_updateOrder env); cbn [snd];
    eexists _, [_]; cbn; repeat split; auto; right;
    eexists _, _; (split; [|reflexivity]); discriminate.
Qed.

Lemma cancelFailedLineItems_calls (env : Env) (order : Order)
    (items : list LineItem) (options : Options) :
  exists first rest,
    snd (cancelFailedLineItems config env order items options) = first :: rest
    /\ is_RefundCreate first = true /\ no_restock first = true /\
    tagging order rest.
Proof.
  assert (Hno : forallb (fun item => (restockType item =? "NO_RESTOCK")%string)
                  (map (fun item => {| lineItemId := li_id item;
                                       rl_quantity := li_quantity item;
                                       restockType := "NO_RESTOCK" |}) items)
                = true).
  { induction items as [|x xs IH]; simpl; auto. }
  unfold cancelFailedLineItems, tagging.
  destruct (r_refundCreate env) as [response|e]; cbn [snd].
  2:{ eexists _, []. cbn. auto. }
  destruct (nonempty (userErrors response)); cbn [snd].
  { eexists _, []. cbn. auto. }
  destruct (refund response) as [j|]; cbn [snd].
  2:{ eexists _, []. cbn. auto. }
  destruct (r_updateOrder env); cbn [snd];
    eexists _, [_]; cbn; repeat split; auto; right;
    eexists _, _; (split; [|reflexivity]); discriminate.
Qed.

(** The decision, once the order is read, live, tagged with an error and its
    marker is parsed. *)
Lemma decision (env : Env) (options : Options) (order : Order)
    (recorded : bool) :
  r_order env = Returns (Some order) ->
  isCancelled order = false ->
  existsb matches_error_pattern (o_tags order) = true ->
  hasSuccessfulBunjangOrders json JSON_parse length_positive order
    = Some recorded ->
  processCancellationForOrder json JSON_parse length_positive config env options
  = if existsb (failed_item (o_tags order)) (lineItems order)
       && existsb (succeeded_item (o_tags order) recorded) (lineItems order)
    then cancelFailedLineItems config env order
           (filter (failed_item (o_tags order)) (lineItems order)) options
    else if existsb (failed_item (o_tags order)) (lineItems order)
         then cancelEntireOrder config env order options
         else (Returns NoFailedItems, []).
Proof.
  intros Horder Hlive Herr Hrec. unfold processCancellationForOrder.
  rewrite Horder, Hlive, hasError_spec, Herr, Hrec. cbn [negb].
  rewrite partition_items_spec. cbn [fst snd].
  now rewrite !nonempty_filter.
Qed.

Lemma engine_calls (env : Env) (options : Options) :
  let r := processCancellationForOrder json JSON_parse length_positive config
             env options in
  snd r = [] \/
  exists order first rest,
    r_order env = Returns (Some order) /\
    isCancelled order = false /\
    existsb matches_error_pattern (o_tags order) = true /\
    existsb (failed_item (o_tags order)) (lineItems order) = true /\
    snd r = first :: rest /\
    mutation first = true /\ no_restock first = true /\
    tagging order rest.
Proof.
  intros r. subst r.
  destruct (r_order env) as [[order|]|e] eqn:Horder;
    try (left; unfold processCancellationForOrder; now rewrite Horder).
  destruct (isCancelled order) eqn:Hlive;
    [left; unfold processCancellationForOrder; now rewrite Horder, Hlive|].
  destruct (existsb matches_error_pattern (o_tags order)) eqn:Herr.
  2:{ left. unfold processCancellationForOrder.
      now rewrite Horder, Hlive, hasError_spec, Herr. }
  destruct (hasSuccessfulBunjangOrders json JSON_parse length_positive order)
    as [recorded|] eqn:Hrec.
  2:{ left. unfold processCancellationForOrder.
      now rewrite Horder, Hlive, hasError_spec, Herr, Hrec. }
  rewrite (decision env options order recorded Horder Hlive Herr Hrec).
  destruct (existsb (failed_item _) _) eqn:Hfailed; cbn [andb];
    [|now left].
  right. exists order.
  destruct (existsb (succeeded_item _ _) _).
  - destruct (cancelFailedLineItems_calls env order
                (filter (failed_item (o_tags order)) (lineItems order)) options)
      as (first & rest & Hs & Hm & Hr & Ht).
    exists first, rest. unfold mutation. rewrite Hm, orb_true_r. auto 10.
  - destruct (cancelEntireOrder_calls env order options)
      as (first & rest & Hs & Hm & Hr & Ht).
    exists first, rest. unfold mutation. rewrite Hm. auto 10.
Qed.
End EngineFacts.

(** X14.  A run of the cancellation engine sends nothing, or it sends one
    mutation (an order cancellation or a refund) for an order that is not
    cancelled, has an error tag and has a failed line item; the mutation
    comes first and restocks nothing, and only one tag update of that order,
    which repeats its tags before the added ones, can follow it. *)
Theorem cancellation_sends_one_mutation_without_restock :
  forall (json : Type) (JSON_parse : string -> option json)
         (length_positive : json -> option bool)
         (config : OrderCancellationService.Config)
         (env : OrderCancellationService.Env)
         (options : OrderCancellationService.Options),
    let r :=
      OrderCancellationService.processCancellationForOrder
        json JSON_parse length_positive config env options in
    snd r = [] \/
    exists order first rest,
      OrderCancellationService.r_order env = JS.Returns (Some order) /\
      OrderCancellationService.isCancelled order = false /\
      existsb OrderCancellationService.matches_error_pattern
        (OrderCancellationService.o_tags order) = true /\
      existsb (failed_item (OrderCancellationService.o_tags order))
        (OrderCancellationService.lineItems order) = true /\
      snd r = first :: rest /\
      mutation first = true /\ no_restock first = true /\
      tagging order rest.
Proof. intros. apply engine_calls. Qed.

(** X15.  The recorded downstream order ids decide between cancellation and
    refund, for an order that is not cancelled and has an error tag.  When
    the read of the marker fails the run throws before it sends anything;
    when no ids are recorded no refund is requested: the run is the
    cancellation of the whole order if some line item failed, and the
    answer [NoFailedItems] otherwise; when ids are recorded, a refund is
    requested only if some line item failed and some line item
    succeeded. *)
Theorem without_recorded_ids_no_partial_refund :
  forall (json : Type) (JSON_parse : string -> option json)
         (length_positive : json -> option bool)
         (config : OrderCancellationService.Config)
         (env : OrderCancellationService.Env)
         (options : OrderCancellationService.Options)
         (order : OrderCancellationService.Order),
    let r :=
      OrderCancellationService.processCancellationForOrder
        json JSON_parse length_positive config env options in
    OrderCancellationService.r_order env = JS.Returns (Some order) ->
    OrderCancellationService.isCancelled order = false ->
    existsb OrderCancellationService.matches_error_pattern
      (OrderCancellationService.o_tags order) = true ->
    match OrderCancellationService.hasSuccessfulBunjangOrders
            json JSON_parse length_positive order with
    | None => r = (JS.Throws None, [])
    | Some false =>
        existsb is_RefundCreate (snd r) = false /\
        r = if existsb (failed_item (OrderCancellationService.o_tags order))
                 (OrderCancellationService.lineItems order)
            then OrderCancellationService.cancelEntireOrder
                   config env order options
            else (JS.Returns OrderCancellationService.NoFailedItems, [])
    | Some true =>
        existsb is_RefundCreate (snd r) = true ->
        existsb (failed_item (OrderCancellationService.o_tags order))
          (OrderCancellationService.lineItems order) = true /\
        existsb (succeeded_item (OrderCancellationService.o_tags order) true)
          (OrderCancellationService.lineItems order) = true
    end.
Proof.
  intros json JSON_parse length_positive config env options order r
         Horder Hlive Herr. subst r.
  destruct (OrderCancellationService.hasSuccessfulBunjangOrders _ _ _ order)
    as [[|]|] eqn:Hrec.
  - rewrite (decision _ _ _ config env options order true Horder Hlive Herr
               Hrec).
    destruct (existsb (failed_item _) _); cbn [andb snd existsb];
      [|discriminate].
    destruct (existsb (succeeded_item _ _) _); auto.
    destruct (cancelEntireOrder_sends config env order options)
      as (rest & -> & Hr & _).
    cbn [existsb is_RefundCreate orb]. congruence.
  - rewrite (decision _ _ _ config env options order false Horder Hlive Herr
               Hrec).
    assert (Hs : existsb (succeeded_item (OrderCancellationService.o_tags order)
                            false)
                   (OrderCancellationService.lineItems order) = false).
    { induction (OrderCancellationService.lineItems order) as [|x xs IH];
        simpl; auto.
      unfold succeeded_item at 1. now rewrite andb_false_r. }
    rewrite Hs, andb_false_r. split; [|reflexivity].
    destruct (existsb (failed_item _) _); [|reflexivity].
    destruct (cancelEntireOrder_sends config env order options)
      as (rest & -> & Hr & _).
    cbn [existsb is_RefundCreate orb]. exact Hr.
  - unfold OrderCancellationService.processCancellationForOrder.
    now rewrite Horder, Hlive, hasError_spec, Herr, Hrec.
Qed.

Lemma without_recorded_ids_no_partial_refund_witness :
  let item n :=
    {| OrderCancellationService.li_id := "gid://shopify/LineItem/" ++ n;
       OrderCancellationService.li_title := "item " ++ n;
       OrderCancellationService.li_quantity := 1;
       OrderCancellationService.li_sku := Some ("BJ-" ++ n) |} in
  let order :=
    {| OrderCancellationService.o_id := "gid://shopify/Order/77";
       OrderCancellationService.o_name := "#1077";
       OrderCancellationService.cancelledAt := None;
       OrderCancellationService.o_tags :=
         ["BunjangOrder-77_Error"; "PID-2-AuthenticationError"];
       OrderCancellationService.lineItems := [item "1"; item "2"; item "3"];
       OrderCancellationService.metafield := None |} in
  let env :=
    {| OrderCancellationService.r_order := JS.Returns (Some order);
       OrderCancellationService.r_orderCancel :=
         JS.Returns
           {| OrderCancellationService.orderCancelUserErrors := [];
              OrderCancellationService.job :=
                Some {| OrderCancellationService.job_id := "J1";
                        OrderCancellationService.job_done := false |} |};
       OrderCancellationService.r_refundCreate := JS.Throws None;
       OrderCancellationService.r_updateOrder := JS.Returns tt;
       OrderCancellationService.now_iso := "2026-01-01T00:00:00.000Z" |} in
  let options :=
    {| OrderCancellationService.opt_notifyCustomer := None;
       OrderCancellationService.opt_autoRefund := None |} in
  existsb is_RefundCreate
    (snd (OrderCancellationService.processCancellationForOrder
            (list string) JsonIds.parse JsonIds.length_positive
            (OrderCancellationService.CANCELLATION_CONFIG true) env options))
  = false.
Proof.
  intros item order env options.
  exact (proj1 (without_recorded_ids_no_partial_refund
                  (list string) JsonIds.parse JsonIds.length_positive
                  (OrderCancellationService.CANCELLATION_CONFIG true)
                  env options order eq_refl eq_refl eq_refl)).
Defined.

Section OutcomeFacts.
Import JS Remote OrderCancellationService.
Variable config : Config.

Lemma cancelEntireOrder_outcome (env : Env) (order : Order)
    (options : Options) :
  let r := cancelEntireOrder config env order options in
  match fst r with
  | Returns (Cancelled jobId orderName) =>
      exists response j metafields,
        r_orderCancel env = Returns response /\
        orderCancelUserErrors response = [] /\
        job response = Some j /\ jobId = job_id j /\
        orderName = o_name order /\
        r_updateOrder env = Returns tt /\
        snd r = [OrderCancel (o_id order)
                   (nullish (opt_notifyCustomer options)
                      (notifyCustomer config))
                   "OTHER"
                   (nullish (opt_autoRefund options) (autoRefund config))
                   false;
                 UpdateOrder (o_id order)
                   (o_tags order ++ ["auto-cancelled"; "bunjang-order-failed"])
                   metafields]
  | Returns Undefined =>
      exists response,
        r_orderCancel env = Returns response /\
        orderCancelUserErrors response = [] /\ job response = None /\
        existsb is_OrderCancel (snd r) = true /\ List.length (snd r) = 1%nat
  | Returns _ => False
  | Throws _ => True
  end.
Proof.
  unfold cancelEntireOrder.
  destruct (r_orderCancel env) as [response|e]; cbn [fst snd]; auto.
  destruct (orderCancelUserErrors response) as [|x xs] eqn:He;
    cbn [nonempty fst snd]; auto.
  destruct (job response) as [j|] eqn:Hj; cbn [fst snd].
  - destruct (r_updateOrder env) as [[]|e]; cbn [fst snd]; auto.
    exists response, j. eexists. repeat split; auto.
  - exists response. auto.
Qed.

Lemma cancelFailedLineItems_outcome (env : Env) (order : Order)
    (items : list LineItem) (options : Options) :
  let r := cancelFailedLineItems config env order items options in
  match fst r with
  | Returns (Refunded refundId refundedAmount itemsRefunded) =>
      exists response refunded,
        r_refundCreate env = Returns response /\
        userErrors response = [] /\
        refund response = Some refunded /\
        refundId = refund_id refunded /\
        refundedAmount = refund_amount refunded /\
        itemsRefunded = List.length items /\
        r_updateOrder env = Returns tt /\
        snd r = [RefundCreate (o_id order)
                   "Automatic refund due to Bunjang order creation failure"
                   (nullish (opt_notifyCustomer options)
                      (notifyCustomer config))
                   (map refund_of items);
                 UpdateOrder (o_id order)
                   (o_tags order ++ ["partial-refund"; "bunjang-items-refunded"])
                   []]
  | Returns Undefined =>
      exists response,
        r_refundCreate env = Returns response /\
        userErrors response = [] /\ refund response = None /\
        existsb is_RefundCreate (snd r) = true /\ List.length (snd r) = 1%nat
  | Returns _ => False
  | Throws _ => True
  end.
Proof.
  unfold cancelFailedLineItems.
  destruct (r_refundCreate env) as [response|e]; cbn [fst snd]; auto.
  destruct (userErrors response) as [|x xs] eqn:He;
    cbn [nonempty fst snd]; auto.
  destruct (refund response) as [j|] eqn:Hj; cbn [fst snd].
  - destruct (r_updateOrder env) as [[]|e]; cbn [fst snd]; auto.
    exists response, j. repeat split; auto.
  - exists response. auto.
Qed.
End OutcomeFacts.

Section RunFacts.
Import JS Remote OrderCancellationService.
Variable json : Type.
Variable JSON_parse : string -> option json.
Variable length_positive : json -> option bool.
Variable config : Config.

Lemma engine_cases (env : Env) (options : Options) :
  let r := processCancellationForOrder json JSON_parse length_positive config
             env options in
  (snd r = [] /\
   match fst r with
   | Returns (Cancelled _ _) | Returns (Refunded _ _ _) | Returns Undefined =>
       False
   | _ => True
   end)
  \/
  exists order,
    r_order env = Returns (Some order) /\
    (r = cancelEntireOrder config env order options \/
     r = cancelFailedLineItems config env order
           (filter (failed_item (o_tags order)) (lineItems order)) options).
Proof.
  intros r. subst r. unfold processCancellationForOrder.
  destruct (r_order env) as [[order|]|e]; cbn [fst snd]; auto.
  destruct (isCancelled order); cbn [fst snd]; auto.
  destruct (negb _); cbn [fst snd]; auto.
  destruct (hasSuccessfulBunjangOrders _ _ _ order) as [recorded|];
    cbn [fst snd]; auto.
  rewrite partition_items_spec. cbn [fst snd].
  destruct (nonempty (filter (failed_item _) _)); cbn [andb fst snd]; auto.
  destruct (nonempty _); right; exists order; auto.
Qed.
End RunFacts.

(** X16.  An outcome that the engine reports was accepted by the storefront.  A
    reported cancellation means that [orderCancel] answered without user
    errors and with the job reported, that the tag update went through, and
    that exactly the cancellation, without restock, and the tagging with
    [auto-cancelled] and [bunjang-order-failed] were sent; a reported refund
    means the same for [refundCreate] over the failed line items and the
    tags [partial-refund] and [bunjang-items-refunded]; an undefined result
    comes with one mutation sent and nothing else; every other answer comes
    with nothing sent. *)
Theorem reported_outcome_was_accepted :
  forall (json : Type) (JSON_parse : string -> option json)
         (length_positive : json -> option bool)
         (config : OrderCancellationService.Config)
         (env : OrderCancellationService.Env)
         (options : OrderCancellationService.Options),
    let r :=
      OrderCancellationService.processCancellationForOrder
        json JSON_parse length_positive config env options in
    match fst r with
    | JS.Returns (OrderCancellationService.Cancelled jobId orderName) =>
        exists order response j notify refund metafields,
          OrderCancellationService.r_order env = JS.Returns (Some order) /\
          OrderCancellationService.r_orderCancel env = JS.Returns response /\
          OrderCancellationService.orderCancelUserErrors response = [] /\
          OrderCancellationService.job response = Some j /\
          jobId = OrderCancellationService.job_id j /\
          orderName = OrderCancellationService.o_name order /\
          OrderCancellationService.r_updateOrder env = JS.Returns tt /\
          snd r
          = [Remote.OrderCancel (OrderCancellationService.o_id order)
               notify "OTHER" refund false;
             Remote.UpdateOrder (OrderCancellationService.o_id order)
               (OrderCancellationService.o_tags order
                ++ ["auto-cancelled"; "bunjang-order-failed"])
               metafields]
    | JS.Returns (OrderCancellationService.Refunded refundId amount
                    itemsRefunded) =>
        exists order response refunded notify,
          let failed :=
            filter (failed_item (OrderCancellationService.o_tags order))
              (OrderCancellationService.lineItems order) in
          OrderCancellationService.r_order env = JS.Returns (Some order) /\
          OrderCancellationService.r_refundCreate env = JS.Returns response /\
          OrderCancellationService.userErrors response = [] /\
          OrderCancellationService.refund response = Some refunded /\
          refundId = OrderCancellationService.refund_id refunded /\
          amount = OrderCancellationService.refund_amount refunded /\
          itemsRefunded = List.length failed /\
          OrderCancellationService.r_updateOrder env = JS.Returns tt /\
          snd r
          = [Remote.RefundCreate (OrderCancellationService.o_id order)
               "Automatic refund due to Bunjang order creation failure"
               notify (map refund_of failed);
             Remote.UpdateOrder (OrderCancellationService.o_id order)
               (OrderCancellationService.o_tags order
                ++ ["partial-refund"; "bunjang-items-refunded"])
               []]
    | JS.Returns OrderCancellationService.Undefined =>
        existsb mutation (snd r) = true /\ List.length (snd r) = 1%nat
    | JS.Returns _ => snd r = []
    | JS.Throws _ => True
    end.
Proof.
  intros json JSON_parse length_positive config env options r. subst r.
  destruct (engine_cases json JSON_parse length_positive config env options)
    as [[Hnil H]|(order & Horder & [E|E])].
  - destruct (fst _) as [[]|]; tauto.
  - rewrite E.
    pose proof (cancelEntireOrder_outcome config env order options) as H.
    cbv zeta in H.
    destruct (fst (OrderCancellationService.cancelEntireOrder _ _ _ _))
      as [[]|]; try tauto.
    + destruct H as (response & j & mf & H1 & H2 & H3 & H4 & H5 & H6 & H7).
      exists order, response, j. eexists _, _, mf. repeat split; eauto.
    + destruct H as (response & _ & _ & _ & H4 & H5). split; auto.
      unfold mutation.
      destruct (snd _) as [|ev [|? ?]]; try discriminate.
      cbn in *. now rewrite orb_false_r in *; rewrite H4.
  - rewrite E.
    pose proof (cancelFailedLineItems_outcome config env order
                  (filter (failed_item (OrderCancellationService.o_tags order))
                     (OrderCancellationService.lineItems order)) options) as H.
    cbv zeta in H.
    destruct (fst (OrderCancellationService.cancelFailedLineItems _ _ _ _ _))
      as [[]|]; try tauto.
    + destruct H as (response & refunded & H1 & H2 & H3 & H4 & H5 & H6 & H7
                     & H8).
      exists order, response, refunded. eexists. cbv zeta.
      repeat split; eauto.
    + destruct H as (response & _ & _ & _ & H4 & H5). split; auto.
      unfold mutation.
      destruct (snd _) as [|ev [|? ?]]; try discriminate.
      cbn in *. rewrite orb_false_r in *. rewrite H4. apply orb_true_r.
Qed.

(** X17.  A manual cancellation reaches the same run for a numeric id, its gid,
    or the order name.  For an id that starts neither with [gid://] nor
    with [#], [manualCancelOrder] runs the engine on
    [gid://shopify/Order/<id>]; giving it the gid is the same;
    [triggerManualCancellation] with the id is the same, whatever the search
    by name would answer; with the name [#<id>] it is the same when the
    search finds the order, and it throws without sending anything when the
    search finds none. *)
Theorem manual_cancellation_accepts_id_gid_or_name :
  forall (json : Type) (JSON_parse : string -> option json)
         (length_positive : json -> option bool)
         (config : OrderCancellationService.Config)
         (getOrderDetails :
            string -> JS.call (option OrderCancellationService.Order))
         (env : OrderCancellationService.Env)
         (options : OrderCancellationService.Options) (orderId : string),
    let manual :=
      OrderCancellationService.manualCancelOrder json JSON_parse
        length_positive config getOrderDetails env in
    let trigger found :=
      OrderCancellationHooks.triggerManualCancellation json JSON_parse
        length_positive config found getOrderDetails env in
    let run gid :=
      OrderCancellationService.processCancellationForOrder json JSON_parse
        length_positive config
        (OrderCancellationService.for_order getOrderDetails env gid) options in
    JS.startsWith orderId "gid://" = false ->
    JS.startsWith orderId "#" = false ->
    manual orderId options = run ("gid://shopify/Order/" ++ orderId)
    /\ manual ("gid://shopify/Order/" ++ orderId) options
       = manual orderId options
    /\ (forall found, trigger found orderId options = manual orderId options)
    /\ trigger (JS.Returns (Some ("gid://shopify/Order/" ++ orderId)))
         ("#" ++ orderId) options
       = manual orderId options
    /\ trigger (JS.Returns None) ("#" ++ orderId) options = (JS.Throws None, []).
Proof.
  intros json JSON_parse length_positive config getOrderDetails env options
         orderId manual trigger run Hgid Hname.
  subst manual trigger run.
  unfold OrderCancellationHooks.triggerManualCancellation,
    OrderCancellationService.manualCancelOrder.
  rewrite Hgid, Hname.
  change (JS.startsWith ("gid://shopify/Order/" ++ orderId) "gid://") with true.
  assert (Hhash : JS.startsWith ("#" ++ orderId) "#" = true)
    by (destruct orderId; reflexivity).
  rewrite Hhash. repeat split; reflexivity.
Qed.

Lemma manual_cancellation_accepts_id_gid_or_name_witness :
  let details (gid : string) : JS.call (option OrderCancellationService.Order) :=
    JS.Returns None in
  let env :=
    {| OrderCancellationService.r_order := JS.Returns None;
       OrderCancellationService.r_orderCancel := JS.Throws None;
       OrderCancellationService.r_refundCreate := JS.Throws None;
       OrderCancellationService.r_updateOrder := JS.Returns tt;
       OrderCancellationService.now_iso := "2026-01-01T00:00:00.000Z" |} in
  let options :=
    {| OrderCancellationService.opt_notifyCustomer := None;
       OrderCancellationService.opt_autoRefund := None |} in
  OrderCancellationService.manualCancelOrder (list string) JsonIds.parse
    JsonIds.length_positive (OrderCancellationService.CANCELLATION_CONFIG true)
    details env "gid://shopify/Order/5001" options
  = OrderCancellationService.manualCancelOrder (list string) JsonIds.parse
      JsonIds.length_positive
      (OrderCancellationService.CANCELLATION_CONFIG true)
      details env "5001" options.
Proof.
  cbv zeta.
  refine (proj1 (proj2 (manual_cancellation_accepts_id_gid_or_name
                          (list string) JsonIds.parse JsonIds.length_positive
                          _ _ _ _ "5001" _ _))); reflexivity.
Defined.

(** X18.  The creation hook on the result of the orchestrator.  Whatever
    [processShopifyOrderForBunjang] returned, [handleOrderCreationResult]
    schedules a cancellation exactly when a tag of the order matches an
    error pattern, and then as a partial cancellation with the reason
    [partial_bunjang_failure] after 5000 ms: its branch for a run that
    created no order never applies, because the failure result of the
    orchestrator has no [bunjangOrderIds]. *)
Theorem creation_hook_on_orchestrator_result :
  forall (json : Type) (ids_length : json -> option Z)
         (order : OrderCancellationHooks.CreatedOrder)
         (result : OrderService.Result json),
    let gid :=
      if JS.truthy (OrderCancellationHooks.c_admin_graphql_api_id order)
      then OrderCancellationHooks.c_admin_graphql_api_id order
      else "gid://shopify/Order/" ++ OrderCancellationHooks.c_id order in
    let tagged :=
      match OrderCancellationHooks.c_tags order with
      | Some tags =>
          existsb OrderCancellationService.matches_error_pattern tags
      | None => false
      end in
    OrderCancellationHooks.handleOrderCreationResult order
      (result_fields ids_length result)
    = if tagged
      then Some {| OrderCancellationHooks.cs_orderId := gid;
                   OrderCancellationHooks.cs_reason := "partial_bunjang_failure";
                   OrderCancellationHooks.cs_partialCancel := true;
                   OrderCancellationHooks.cs_delay := 5000 |}
      else None.
Proof.
  intros json ids_length order result gid tagged. subst gid tagged.
  unfold OrderCancellationHooks.handleOrderCreationResult.
  destruct result; reflexivity.
Qed.

(** ** Error-tag patterns *)

Section PatternFacts.
Import JS.

Lemma compile_append (p q : string) :
  compile (p ++ q) = (compile p ++ compile q)%list.
Proof. induction p as [|c p IH]; simpl; congruence. Qed.

Lemma match_here_literal (a : string) (rest : list token) :
  star_free a = true ->
  forall s, match_here (compile a ++ rest) s = true <->
            exists s', s = a ++ s' /\ match_here rest s' = true.
Proof.
  induction a as [|c a IH]; simpl.
  - intros _ s. split; eauto. now intros (s' & -> & H).
  - intros H. apply andb_true_iff in H as [Hc Ha].
    apply negb_true_iff in Hc. rewrite Hc. cbn [match_here].
    intros [|c' s].
    + split; [discriminate|]. intros (s' & E & _). discriminate.
    + rewrite andb_true_iff, (IH Ha), Ascii.eqb_eq. split.
      * intros (-> & s' & -> & H). eauto.
      * intros (s' & [= -> ->] & H). eauto.
Qed.

(** A line terminator at the start of a text is one at the start of every
    text that extends it. *)
Lemma line_terminator_at_app (u s : string) :
  line_terminator_at u = true -> line_terminator_at (u ++ s) = true.
Proof.
  destruct u as [|c [|d [|e u]]]; cbn; try discriminate.
  - rewrite andb_false_r, orb_false_r. now intros ->.
  - rewrite andb_false_r, orb_false_r. now intros ->.
  - auto.
Qed.

(** And the other way round, when what follows starts with a plain
    character or is empty. *)
Lemma line_terminator_at_stable (c : ascii) (m s : string) :
  match s with String x _ => plain x = true | EmptyString => True end ->
  line_terminator_at (String c m ++ s) = line_terminator_at (String c m).
Proof.
  intros Hs. destruct m as [|d [|e m]]; cbn.
  - destruct s as [|x [|y s]]; cbn; auto.
    unfold plain in Hs. apply negb_true_iff in Hs.
    apply orb_false_iff in Hs as [Hs _]. apply orb_false_iff in Hs as [Hs _].
    now rewrite Hs.
  - destruct s as [|x s]; cbn; auto.
    unfold plain in Hs. apply negb_true_iff in Hs.
    apply orb_false_iff in Hs as [Hs H169]. apply orb_false_iff in Hs as [_ H168].
    now rewrite H168, H169, andb_false_r.
  - reflexivity.
Qed.

Lemma match_here_plain (c : ascii) (rest : list token) (s : string) :
  match_here (Lit c :: rest) s = true ->
  exists s', s = String c s'.
Proof.
  destruct s as [|c' s]; cbn; [discriminate|].
  intros H. apply andb_true_iff in H as [H _].
  apply Ascii.eqb_eq in H. subst. eauto.
Qed.

Lemma match_here_star (c0 : ascii) (rest : list token) (s : string) :
  plain c0 = true ->
  (match_here (AnyStar :: Lit c0 :: rest) s = true <->
   exists m s', s = m ++ s' /\ one_line m = true
                /\ match_here (Lit c0 :: rest) s' = true).
Proof.
  intros Hplain. induction s as [|c s IH].
  - cbn. split.
    + discriminate.
    + intros (m & s' & E & _ & H).
      destruct m; [|discriminate]. simpl in E. subst s'. discriminate.
  - change (match_here (AnyStar :: Lit c0 :: rest) (String c s))
      with (match_here (Lit c0 :: rest) (String c s)
            || negb (line_terminator_at (String c s))
               && match_here (AnyStar :: Lit c0 :: rest) s).
    rewrite orb_true_iff, andb_true_iff, IH. split.
    + intros [H|(Hc & m & s' & -> & Hm & H)].
      * exists EmptyString, (String c s). auto.
      * exists (String c m), s'. split; [reflexivity|]. split; auto.
        cbn [one_line]. rewrite Hm, andb_true_r.
        apply negb_true_iff. apply negb_true_iff in Hc.
        destruct (line_terminator_at (String c m)) eqn:E; auto.
        apply (line_terminator_at_app _ s') in E. cbn [append] in E.
        congruence.
    + intros ([|c' m] & s' & E & Hm & H); simpl in E.
      * subst s'. now left.
      * injection E as -> ->. cbn [one_line] in Hm.
        apply andb_true_iff in Hm as [Hc Hm]. right. split; [|eauto 6].
        change (String c' (m ++ s')) with (String c' m ++ s').
        rewrite line_terminator_at_stable; auto.
        destruct (match_here_plain c0 rest s' H) as (s2 & ->). exact Hplain.
Qed.

Lemma search_anywhere (p : list token) (s : string) :
  search p s = true <->
  exists x s', s = x ++ s' /\ match_here p s' = true.
Proof.
  induction s as [|c s IH]; cbn [search].
  - rewrite orb_false_r. split.
    + intros H. exists EmptyString, EmptyString. auto.
    + intros (x & s' & E & H). destruct x; [|discriminate].
      simpl in E. now subst.
  - rewrite orb_true_iff, IH. split.
    + intros [H|(x & s' & -> & H)].
      * exists EmptyString, (String c s). auto.
      * exists (String c x), s'. auto.
    + intros ([|c' x] & s' & E & H); simpl in E.
      * subst s'. now left.
      * injection E as -> ->. right. eauto.
Qed.

Lemma literal_pattern (a tag : string) :
  star_free a = true ->
  (RegExp_test a tag = true <-> contains a tag).
Proof.
  intros Ha. unfold RegExp_test, contains. rewrite search_anywhere.
  rewrite <- (app_nil_r (compile a)).
  split.
  - intros (x & s' & -> & H). apply (match_here_literal a [] Ha) in H.
    destruct H as (y & -> & _). eauto.
  - intros (x & y & ->). exists x, (a ++ y). split; auto.
    apply (match_here_literal a [] Ha). eauto.
Qed.

Lemma one_star_pattern (a b tag : string) :
  star_free a = true -> star_free b = true -> plain_start b = true ->
  (RegExp_test (a ++ "*" ++ b) tag = true <-> between a b tag).
Proof.
  intros Ha Hb Hp. unfold RegExp_test, between.
  rewrite search_anywhere, compile_append.
  change (compile ("*" ++ b)) with (AnyStar :: compile b).
  rewrite <- (app_nil_r (compile b)).
  assert (Hlit : exists c0 rest, (compile b ++ [])%list = Lit c0 :: rest
                                 /\ plain c0 = true).
  { destruct b as [|c0 b]; [discriminate|]. cbn in Hb, Hp |- *.
    apply andb_true_iff in Hb as [Hc _]. apply negb_true_iff in Hc.
    rewrite Hc. eauto. }
  destruct Hlit as (c0 & rest & Hrest & Hc0).
  split.
  - intros (x & s1 & -> & H).
    apply (match_here_literal a _ Ha) in H as (s2 & -> & H).
    rewrite Hrest in H.
    apply (match_here_star c0 rest _ Hc0) in H as (m & s3 & -> & Hm & H).
    rewrite <- Hrest in H.
    apply (match_here_literal b [] Hb) in H as (y & -> & _).
    exists x, m, y. auto.
  - intros (x & m & y & -> & Hm). exists x, (a ++ m ++ b ++ y).
    split; auto.
    apply (match_here_literal a _ Ha). eexists. split; [reflexivity|].
    rewrite Hrest.
    apply (match_here_star c0 rest _ Hc0). exists m, (b ++ y).
    repeat split; auto. rewrite <- Hrest.
    apply (match_here_literal b [] Hb). eauto.
Qed.

Lemma matches_error_pattern_spec (tag : string) :
    OrderCancellationService.matches_error_pattern tag = true <->
    between "BunjangOrder-" "_Error" tag \/
    between "PID-" "-NotAvailable" tag \/
    between "PID-" "-InsufficientStock" tag \/
    between "PID-" "-NotFound" tag \/
    between "PID-" "-CreateFail" tag \/
    between "PID-" "-Exception" tag \/
    contains "URGENT-InsufficientPoints" tag \/
    contains "URGENT-AuthenticationError" tag.
Proof.
  unfold OrderCancellationService.matches_error_pattern,
    OrderCancellationService.errorTagPatterns.
  cbn [existsb]. rewrite orb_false_r, !orb_true_iff.
  rewrite (one_star_pattern "BunjangOrder-" "_Error") by reflexivity.
  rewrite (one_star_pattern "PID-" "-NotAvailable") by reflexivity.
  rewrite (one_star_pattern "PID-" "-InsufficientStock") by reflexivity.
  rewrite (one_star_pattern "PID-" "-NotFound") by reflexivity.
  rewrite (one_star_pattern "PID-" "-CreateFail") by reflexivity.
  rewrite (one_star_pattern "PID-" "-Exception") by reflexivity.
  rewrite (literal_pattern "URGENT-InsufficientPoints") by reflexivity.
  rewrite (literal_pattern "URGENT-AuthenticationError") by reflexivity.
  tauto.
Qed.
End PatternFacts.

(** X19.  What the configured error tag patterns accept.  A tag matches one of
    them exactly when it holds [BunjangOrder-] and behind it on the same
    line [_Error], or [PID-] and behind it on the same line one of
    [-NotAvailable], [-InsufficientStock], [-NotFound], [-CreateFail] and
    [-Exception], or one of [URGENT-InsufficientPoints] and
    [URGENT-AuthenticationError]; the patterns are not anchored, so text
    before and after is accepted.  On the same line: with none of line feed,
    carriage return, U+2028 and U+2029 in between. *)
Theorem error_tag_patterns_meaning :
  forall tag : string,
    OrderCancellationService.matches_error_pattern tag = true <->
    between "BunjangOrder-" "_Error" tag \/
    between "PID-" "-NotAvailable" tag \/
    between "PID-" "-InsufficientStock" tag \/
    between "PID-" "-NotFound" tag \/
    between "PID-" "-CreateFail" tag \/
    between "PID-" "-Exception" tag \/
    contains "URGENT-InsufficientPoints" tag \/
    contains "URGENT-AuthenticationError" tag.
Proof. exact matches_error_pattern_spec. Qed.

(** A line separator between [PID-] and [-NotFound] is not stepped over,
    another character of three bytes (an em dash) is. *)
Example separator_in_a_tag :
  let separator := String "226" (String "128" (String "168" EmptyString)) in
  let dash := String "226" (String "128" (String "148" EmptyString)) in
  OrderCancellationService.matches_error_pattern
    ("PID-1" ++ separator ++ "-NotFound") = false
  /\ OrderCancellationService.matches_error_pattern
       ("PID-1" ++ dash ++ "-NotFound") = true.
Proof. split; reflexivity. Qed.

(** ** What the orchestrator sends, and when it returns *)

Section SendsFacts.
Import JS Remote Eff OrderService.
Variable P : event -> Prop.

Lemma sends_only_ret {A : Type} (a : A) : sends_only P (ret a).
Proof. intros s. exists []. cbn. now rewrite app_nil_r. Qed.

Lemma sends_only_await {A : Type} (o : call A) : sends_only P (await o).
Proof. intros s. exists []. cbn. now rewrite app_nil_r. Qed.

Lemma sends_only_throw {A : Type} (e : option string) :
  sends_only P (@throw Run A e).
Proof. intros s. exists []. cbn. now rewrite app_nil_r. Qed.

Lemma sends_only_get : sends_only P (@get Run).
Proof. intros s. exists []. cbn. now rewrite app_nil_r. Qed.

Lemma sends_only_bind {A B : Type} (m : M Run A) (k : A -> M Run B) :
  sends_only P m -> (forall a, sends_only P (k a)) ->
  sends_only P (bind m k).
Proof.
  intros Hm Hk s. unfold bind. destruct (Hm s) as (new & Hs & Hn).
  destruct (m s) as [[a|e] s']; cbn [snd] in *; [|eauto].
  destruct (Hk a s') as (new' & Hs' & Hn').
  exists (new ++ new')%list. rewrite Hs', Hs, app_assoc. split; auto.
  apply Forall_app. auto.
Qed.

Lemma sends_only_try_catch {A : Type} (m : M Run A)
    (h : option string -> M Run A) :
  sends_only P m -> (forall e, sends_only P (h e)) ->
  sends_only P (try_catch m h).
Proof.
  intros Hm Hh s. unfold try_catch. destruct (Hm s) as (new & Hs & Hn).
  destruct (m s) as [[a|e] s']; cbn [snd] in *; [eauto|].
  destruct (Hh e s') as (new' & Hs' & Hn').
  exists (new ++ new')%list. rewrite Hs', Hs, app_assoc. split; auto.
  apply Forall_app. auto.
Qed.

Lemma sends_only_send (ev : event) : P ev -> sends_only P (send ev).
Proof. intros H s. exists [ev]. cbn. auto. Qed.

Lemma sends_only_record_created (id : string) :
  sends_only P (record_created id).
Proof. intros s. exists []. cbn. now rewrite app_nil_r. Qed.

Lemma sends_only_updateOrder gid tags metafields outcome :
  P (UpdateOrder gid tags metafields) ->
  sends_only P (updateOrder gid tags metafields outcome).
Proof.
  intros H. unfold updateOrder.
  apply sends_only_bind; [now apply sends_only_send|]. intros _.
  apply sends_only_bind; [apply sends_only_await|]. intros _.
  unfold store_order_ids. destruct (find _ metafields).
  - intros s. exists []. cbn. now rewrite app_nil_r.
  - apply sends_only_ret.
Qed.
End SendsFacts.

Section OrchestratedFacts.
Import JS Remote Eff OrderService.
Variable json : Type.
Variable JSON_parse : string -> option json.
Variable JSON_stringify : list string -> string.
Variable config : Config.
Variable order : ShopifyOrder.

Let P := orchestrated config order.

Lemma failure_tagging (tag : string) :
  P (UpdateOrder (admin_graphql_api_id order)
       [bunjangOrderIdentifier config order ++ "_Error"; tag] []).
Proof. split; auto. left. split; auto. now left. Qed.

Lemma order_item_sends (e : ItemEnv) (l : Linked) :
  sends_only P (order_item config order e l).
Proof.
  unfold order_item.
  apply sends_only_try_catch;
    [|intros; apply sends_only_updateOrder, failure_tagging].
  apply sends_only_bind; [apply sends_only_await|]. intros [d|].
  2: apply sends_only_updateOrder, failure_tagging.
  destruct (negb _ && negb _);
    [apply sends_only_updateOrder, failure_tagging|].
  destruct (negb _ && (_ =? 0));
    [apply sends_only_updateOrder, failure_tagging|].
  apply sends_only_bind; [apply sends_only_await|]. intros payload.
  apply sends_only_try_catch;
    [|intros; apply sends_only_updateOrder, failure_tagging].
  apply sends_only_bind; [now apply sends_only_send|]. intros _.
  apply sends_only_bind; [apply sends_only_await|]. intros [id|].
  2: apply sends_only_updateOrder, failure_tagging.
  destruct (truthy id); [|apply sends_only_updateOrder, failure_tagging].
  apply sends_only_bind; [apply sends_only_record_created|]. intros _.
  unfold after_created.
  apply sends_only_bind.
  { apply sends_only_updateOrder. split; auto. right. left. eauto. }
  intros _. apply sends_only_bind.
  { apply sends_only_try_catch; [|intros; apply sends_only_ret].
    apply sends_only_bind; [apply sends_only_await|]. intros [balance|];
      [|apply sends_only_ret].
    destruct (_ <? _); [|apply sends_only_ret].
    apply sends_only_updateOrder. split; auto. right. right. left. eauto. }
  intros _. apply sends_only_bind; [|intros; apply sends_only_await].
  now apply sends_only_send.
Qed.

Lemma process_items_sends (env : RunEnv) (items : list LineItem) :
  forall i, sends_only P (process_items config order env i items).
Proof.
  induction items as [|item rest IH]; intros i; simpl.
  - apply sends_only_ret.
  - apply sends_only_bind; [|intros; apply IH].
    unfold process_item. apply sends_only_bind.
    + intros s. exists []. rewrite resolve_state, app_nil_r. auto.
    + intros [l|]; [|apply sends_only_ret].
      destruct (negb _); [apply sends_only_ret | apply order_item_sends].
Qed.

Lemma run_sends (env : RunEnv) :
  sends_only P (run json JSON_parse JSON_stringify config order env).
Proof.
  unfold run. destruct (_ || _); [apply sends_only_throw|].
  apply sends_only_bind.
  { intros s. exists [].
    destruct (already_processed_state json JSON_parse env s) as [-> _].
    rewrite app_nil_r. auto. }
  intros [ids|]; [apply sends_only_ret|].
  apply sends_only_bind; [apply process_items_sends|]. intros _.
  apply sends_only_bind.
  { unfold record_order_ids.
    apply sends_only_bind; [apply sends_only_get|]. intros s.
    destruct (createdBunjangOrderIds s); [apply sends_only_ret|].
    apply sends_only_updateOrder. split; auto. right. right. right. eauto. }
  intros _. apply sends_only_bind; [apply sends_only_get|]. intros s.
  destruct (bunjangOrderSuccessfullyCreatedOverall s); apply sends_only_ret.
Qed.
End OrchestratedFacts.

(** X20.  What [processShopifyOrderForBunjang] can send.  Whatever the
    collaborators answer, every call that a run adds to the log is a request
    for a downstream order, a sold-status call of origin [shopify], or a tag
    update of the order being processed: a failure tagging with the error
    tag of the order and no metafield, the success tagging of one item, the
    low-balance tagging, or the final tagging. *)
Theorem orchestrator_sends_only_its_own_calls :
  forall (json : Type) (JSON_parse : string -> option json)
         (JSON_stringify : list string -> string)
         (config : OrderService.Config) (order : OrderService.ShopifyOrder)
         (env : OrderService.RunEnv) (before : OrderService.Shop),
    exists new,
      OrderService.sent
        (snd (OrderService.processShopifyOrderForBunjang json JSON_parse
                JSON_stringify config order env before))
      = (OrderService.sent before ++ new)%list
      /\ Forall (orchestrated config order) new.
Proof.
  intros. unfold OrderService.processShopifyOrderForBunjang. cbn [snd].
  apply (run_sends json JSON_parse JSON_stringify config order env).
Qed.

Section ReturnsFacts.
Import JS Remote Eff OrderService.

Lemma returns_ret {A : Type} (a : A) : returns (ret a).
Proof. intros s. now exists a. Qed.

Lemma returns_get : returns (@get Run).
Proof. intros s. now exists s. Qed.

Lemma returns_bind {A B : Type} (m : M Run A) (k : A -> M Run B) :
  returns m -> (forall a, returns (k a)) -> returns (bind m k).
Proof.
  intros Hm Hk s. unfold bind. destruct (Hm s) as (a & Ha).
  destruct (m s) as [[a'|e] s']; cbn [fst] in *; [|discriminate].
  apply Hk.
Qed.

(** A [try] whose [catch] block returns, returns. *)
Lemma returns_try_catch {A : Type} (m : M Run A)
    (h : option string -> M Run A) :
  (forall e, returns (h e)) -> returns (try_catch m h).
Proof.
  intros Hh s. unfold try_catch.
  destruct (m s) as [[a|e] s']; cbn [fst]; [eauto|apply Hh].
Qed.

Lemma returns_updateOrder gid tags metafields :
  returns (updateOrder gid tags metafields (Returns tt)).
Proof.
  intros s. exists tt.
  cbv beta iota delta [updateOrder bind send modify await store_order_ids ret].
  cbn [fst snd]. now destruct (find _ metafields).
Qed.
End ReturnsFacts.

Section RobustFacts.
Import JS Remote Eff OrderService.
Variable json : Type.
Variable JSON_parse : string -> option json.
Variable JSON_stringify : list string -> string.
Variable config : Config.
Variable order : ShopifyOrder.

Lemma process_item_returns (e : ItemEnv) (item : LineItem) :
  (exists found, r_findOne e = Returns found) ->
  r_updateOrder_exception e = Returns tt ->
  returns (process_item config order e item).
Proof.
  intros (found & Hf) Hx. unfold process_item.
  apply returns_bind.
  - unfold resolve. rewrite Hf. intros s. unfold bind, await. cbn.
    destruct found as [l|]; [now exists (Some l)|].
    apply returns_try_catch. intros _. apply returns_ret.
  - intros [l|]; [|apply returns_ret].
    destruct (negb _); [apply returns_ret|].
    unfold order_item. apply returns_try_catch. intros _.
    rewrite Hx. apply returns_updateOrder.
Qed.

Lemma process_items_returns (env : RunEnv) (items : list LineItem) :
  (forall i, (exists found, r_findOne (item_env env i) = Returns found) /\
             r_updateOrder_exception (item_env env i) = Returns tt) ->
  forall i, returns (process_items config order env i items).
Proof.
  intros H. induction items as [|item rest IH]; intros i; simpl.
  - apply returns_ret.
  - apply returns_bind; [|intros; apply IH].
    destruct (H i). now apply process_item_returns.
Qed.

Lemma run_returns (env : RunEnv) :
  valid_order order ->
  (forall i, (exists found, r_findOne (item_env env i) = Returns found) /\
             r_updateOrder_exception (item_env env i) = Returns tt) ->
  r_updateOrder_final env = Returns tt ->
  returns (run json JSON_parse JSON_stringify config order env).
Proof.
  intros Hvalid Hitems Hfinal. unfold run.
  rewrite (valid_order_passes order Hvalid).
  apply returns_bind.
  { intros s. apply (already_processed_state json JSON_parse env s). }
  intros [ids|]; [apply returns_ret|].
  apply returns_bind; [now apply process_items_returns|]. intros _.
  apply returns_bind.
  { unfold record_order_ids. apply returns_bind; [apply returns_get|].
    intros s. destruct (createdBunjangOrderIds s); [apply returns_ret|].
    rewrite Hfinal. apply returns_updateOrder. }
  intros _. apply returns_bind; [apply returns_get|]. intros s.
  destruct (bunjangOrderSuccessfullyCreatedOverall s); apply returns_ret.
Qed.

Lemma invalid_order_throws (env : RunEnv) (s : Run) :
  ~ valid_order order ->
  run json JSON_parse JSON_stringify config order env s = (Throws None, s).
Proof.
  intros H. unfold run, valid_order in *.
  destruct (truthy (id order)); cbn [negb orb]; auto.
  destruct (truthy (admin_graphql_api_id order)); cbn [negb orb]; auto.
  destruct (line_items order); auto.
  exfalso. apply H. repeat split; auto. discriminate.
Qed.
End RobustFacts.

(** X21.  Failures inside an item do not abort the run.  When
    [SyncedProduct.findOne] answers for every item, and the tag update of
    the outer [catch] and the final tag update go through,
    [processShopifyOrderForBunjang] returns a result for every order that
    has an id, a gid and line items, whatever the other calls do; for any
    other order it throws and leaves the storefront state as it was. *)
Theorem item_failures_do_not_abort_the_run :
  forall (json : Type) (JSON_parse : string -> option json)
         (JSON_stringify : list string -> string)
         (config : OrderService.Config) (order : OrderService.ShopifyOrder)
         (env : OrderService.RunEnv) (before : OrderService.Shop),
    (forall i,
       (exists found,
          OrderService.r_findOne (OrderService.item_env env i)
          = JS.Returns found) /\
       OrderService.r_updateOrder_exception (OrderService.item_env env i)
       = JS.Returns tt) ->
    OrderService.r_updateOrder_final env = JS.Returns tt ->
    let r :=
      OrderService.processShopifyOrderForBunjang json JSON_parse
        JSON_stringify config order env before in
    (valid_order order -> exists result, fst r = JS.Returns result)
    /\ (~ valid_order order -> r = (JS.Throws None, before)).
Proof.
  intros json JSON_parse JSON_stringify config order env before Hitems Hfinal r.
  subst r. unfold OrderService.processShopifyOrderForBunjang. cbn [fst].
  split.
  - intros Hvalid.
    apply (run_returns json JSON_parse JSON_stringify config order env
             Hvalid Hitems Hfinal).
  - intros Hinvalid.
    now rewrite (invalid_order_throws json JSON_parse JSON_stringify config
                   order env _ Hinvalid).
Qed.

Lemma item_failures_do_not_abort_the_run_witness :
  exists result,
    fst (Scenario.process Scenario.order
           (Scenario.delivery (JS.Returns tt) "B1" "B3") Scenario.fresh)
    = JS.Returns result.
Proof.
  refine (proj1 (item_failures_do_not_abort_the_run (list string)
                   JsonIds.parse JsonIds.stringify Scenario.config
                   Scenario.order
                   (Scenario.delivery (JS.Returns tt) "B1" "B3")
                   Scenario.fresh _ _) _).
  - intros [|[|i]]; (split; [eexists|]; reflexivity).
  - reflexivity.
  - repeat split; simpl; auto. discriminate.
Defined.

(** ** From the orchestrator's tags to the cancellation engine *)

Section ContainmentFacts.
Import JS.

Lemma prefix_spec (sub s : string) :
  String.prefix sub s = true <-> exists y, s = sub ++ y.
Proof.
  revert s. induction sub as [|c sub IH]; intros s.
  - split; [|now destruct s]. intros _. now exists s.
  - destruct s as [|c' s]; simpl.
    + split; [discriminate|]. intros (y & E). discriminate.
    + destruct (Ascii.ascii_dec c c') as [->|Hne].
      * rewrite IH. split.
        -- intros (y & ->). now exists y.
        -- intros (y & [= ->]). now exists y.
      * split; [discriminate|]. intros (y & [= E _]). congruence.
Qed.

Lemma includes_spec (s sub : string) :
  includes s sub = true <-> contains sub s.
Proof.
  unfold contains. induction s as [|c s IH]; cbn [includes].
  - rewrite orb_false_r, prefix_spec. split.
    + intros (y & E). now exists EmptyString, y.
    + intros (x & y & E). destruct x; [|discriminate]. now exists y.
  - rewrite orb_true_iff, prefix_spec, IH. split.
    + intros [(y & E)|(x & y & ->)].
      * now exists EmptyString, y.
      * now exists (String c x), y.
    + intros ([|c' x] & y & E); simpl in E.
      * left. now exists y.
      * injection E as -> ->. right. now exists x, y.
Qed.

Lemma has_char_append (c : ascii) (a b : string) :
  has_char c (a ++ b) = has_char c a || has_char c b.
Proof.
  induction a as [|x a IH]; simpl; auto. now rewrite IH, orb_assoc.
Qed.

Lemma includes_has_char (s sub : string) (c : ascii) :
  includes s sub = true -> has_char c sub = true -> has_char c s = true.
Proof.
  intros H Hc. apply includes_spec in H as (x & y & ->).
  rewrite !has_char_append, Hc. apply orb_true_iff. right. reflexivity.
Qed.

Lemma no_tag_with_both_marks (tags : list string) (pid : string) :
  Forall (fun tag => has_char "r" tag = false \/ has_char "P" tag = false)
    tags ->
  OrderCancellationService.hasErrorTag tags pid = false.
Proof.
  unfold OrderCancellationService.hasErrorTag.
  induction 1 as [|tag tags Htag _ IH]; cbn [existsb]; auto.
  rewrite IH, orb_false_r. apply andb_false_iff.
  destruct Htag as [Hr|Hp].
  - right. destruct (includes tag "Error") eqn:E; auto.
    rewrite (includes_has_char tag "Error" "r" E) in Hr by reflexivity.
    discriminate.
  - left. destruct (includes tag ("PID-" ++ pid ++ "-")) eqn:E; auto.
    rewrite (includes_has_char tag _ "P" E) in Hp by reflexivity.
    discriminate.
Qed.
End ContainmentFacts.

(** X22.  The error tag that the orchestrator writes on a failure is recognised
    by the cancellation side.  With the default identifier prefix
    [BunjangOrder-] and an order id without line terminator, tags that hold
    [<identifier>_Error] make [checkBunjangOrderErrors] report an error,
    make [handleOrderCreationResult] schedule a cancellation whatever the
    result given, and make [handleOrderUpdate] schedule one when no tag was
    there before. *)
Theorem failure_taggings_are_recognised :
  forall (config : OrderService.Config) (order : OrderService.ShopifyOrder)
         (tags : list string),
    OrderService.or_else (OrderService.orderIdentifierPrefix config)
      "BunjangOrder-" = "BunjangOrder-" ->
    one_line (OrderService.id order) = true ->
    In (OrderService.bunjangOrderIdentifier config order ++ "_Error") tags ->
    OrderCancellationService.hasError
      (OrderCancellationService.checkBunjangOrderErrors tags) = true
    /\ (forall (hook_order : OrderCancellationHooks.CreatedOrder)
               (result : OrderCancellationHooks.BunjangResult),
          OrderCancellationHooks.c_tags hook_order = Some tags ->
          OrderCancellationHooks.handleOrderCreationResult hook_order result
          <> None)
    /\ (forall hook_order : OrderCancellationHooks.UpdatedOrder,
          OrderCancellationHooks.tags hook_order = tags ->
          OrderCancellationHooks.handleOrderUpdate hook_order [] <> None).
Proof.
  intros config order tags Hprefix Hid Hin.
  assert (Hm : existsb OrderCancellationService.matches_error_pattern tags
               = true).
  { apply existsb_exists. eexists. split; [exact Hin|].
    apply matches_error_pattern_spec. left.
    unfold OrderService.bunjangOrderIdentifier. rewrite Hprefix.
    exists EmptyString, (OrderService.id order), EmptyString.
    split; auto. }
  split; [|split].
  - now rewrite hasError_spec.
  - intros hook_order result Htags.
    unfold OrderCancellationHooks.handleOrderCreationResult.
    rewrite Htags, Hm. now destruct (_ && _).
  - intros hook_order Htags.
    unfold OrderCancellationHooks.handleOrderUpdate. rewrite Htags.
    assert (E : filter (fun tag => negb (JS.array_includes [] tag)) tags
                = tags).
    { clear. induction tags as [|t l IH]; [reflexivity|].
      cbn [filter]. change (JS.array_includes [] t) with false.
      cbn [negb]. now rewrite IH. }
    rewrite E, hasError_spec, Hm. discriminate.
Qed.

Lemma failure_taggings_are_recognised_witness :
  OrderCancellationService.hasError
    (OrderCancellationService.checkBunjangOrderErrors
       ["BunjangOrder-77_Error"; "PID-102-NoStock"]) = true.
Proof.
  refine (proj1 (failure_taggings_are_recognised Scenario.config
                   Scenario.order _ _ _ _)).
  - reflexivity.
  - reflexivity.
  - simpl. auto.
Defined.

(** X23.  The failure tags of the orchestrator mark no line item as failed.
    When the tags of the order are failure taggings of the orchestrator
    ([<identifier>_Error] and [PID-<pid>-<kind>], with the default prefix,
    no [P] in the order id and no [r] in the product ids and the kinds, as
    in [NotFound], [NoStock], [InvalidResponse], [Exception]), the engine
    finds no failed line item, and its run on that order sends nothing:
    neither a cancellation nor a refund. *)
Theorem orchestrator_failure_tags_mark_no_item_failed :
  forall (json : Type) (JSON_parse : string -> option json)
         (length_positive : json -> option bool)
         (cancellation : OrderCancellationService.Config)
         (env : OrderCancellationService.Env)
         (options : OrderCancellationService.Options)
         (order : OrderCancellationService.Order)
         (config : OrderService.Config)
         (shopifyOrder : OrderService.ShopifyOrder)
         (failures : list (string * string)),
    OrderCancellationService.r_order env = JS.Returns (Some order) ->
    OrderCancellationService.o_tags order
      = flat_map (failure_tags config shopifyOrder) failures ->
    OrderService.or_else (OrderService.orderIdentifierPrefix config)
      "BunjangOrder-" = "BunjangOrder-" ->
    has_char "P" (OrderService.id shopifyOrder) = false ->
    Forall (fun failure => has_char "r" (fst failure) = false /\
                           has_char "r" (snd failure) = false) failures ->
    (forall item,
       failed_item (OrderCancellationService.o_tags order) item = false)
    /\ snd (OrderCancellationService.processCancellationForOrder
              json JSON_parse length_positive cancellation env options) = [].
Proof.
  intros json JSON_parse length_positive cancellation env options order
         config shopifyOrder failures Horder Htags Hprefix Hid Hfailures.
  assert (Hmarks : Forall (fun tag => has_char "r" tag = false
                                      \/ has_char "P" tag = false)
                     (OrderCancellationService.o_tags order)).
  { rewrite Htags. clear Htags.
    induction Hfailures as [|[pid detail] rest [Hpid Hdetail] _ IH];
      cbn [flat_map]; [constructor|].
    unfold failure_tags at 1, OrderService.bunjangOrderIdentifier.
    rewrite Hprefix. cbn [fst snd List.app] in *.
    constructor; [|constructor; [|exact IH]].
    - right. rewrite !has_char_append, Hid. reflexivity.
    - left. rewrite !has_char_append, Hpid, Hdetail. reflexivity. }
  assert (Hfailed : forall item,
            failed_item (OrderCancellationService.o_tags order) item = false).
  { intros item. unfold failed_item.
    rewrite no_tag_with_both_marks by exact Hmarks. apply andb_false_r. }
  split; [exact Hfailed|].
  destruct (engine_calls json JSON_parse length_positive cancellation env
              options) as [H|(o & first & rest & Ho & _ & _ & Hex & _)];
    [exact H|].
  rewrite Horder in Ho. injection Ho as <-.
  apply existsb_exists in Hex as (item & _ & Hitem).
  rewrite Hfailed in Hitem. discriminate.
Qed.

Lemma orchestrator_failure_tags_mark_no_item_failed_witness :
  let order :=
    {| OrderCancellationService.o_id := "gid://shopify/Order/77";
       OrderCancellationService.o_name := "#1077";
       OrderCancellationService.cancelledAt := None;
       OrderCancellationService.o_tags :=
         ["BunjangOrder-77_Error"; "PID-102-NoStock"];
       OrderCancellationService.lineItems :=
         [ {| OrderCancellationService.li_id := "gid://shopify/LineItem/2";
              OrderCancellationService.li_title := "item";
              OrderCancellationService.li_quantity := 1;
              OrderCancellationService.li_sku := Some "BJ-102" |} ];
       OrderCancellationService.metafield := None |} in
  let env :=
    {| OrderCancellationService.r_order := JS.Returns (Some order);
       OrderCancellationService.r_orderCancel := JS.Throws None;
       OrderCancellationService.r_refundCreate := JS.Throws None;
       OrderCancellationService.r_updateOrder := JS.Returns tt;
       OrderCancellationService.now_iso := "2026-01-01T00:00:00.000Z" |} in
  snd (OrderCancellationService.processCancellationForOrder
         (list string) JsonIds.parse JsonIds.length_positive
         (OrderCancellationService.CANCELLATION_CONFIG true) env
         {| OrderCancellationService.opt_notifyCustomer := None;
            OrderCancellationService.opt_autoRefund := None |})
  = [].
Proof.
  intros order env.
  refine (proj2 (orchestrator_failure_tags_mark_no_item_failed
                   (list string) JsonIds.parse JsonIds.length_positive
                   _ env _ order Scenario.config Scenario.order
                   [("102", "NoStock")] _ _ _ _ _)).
  - reflexivity.
  - reflexivity.
  - reflexivity.
  - reflexivity.
  - repeat constructor.
Defined.

(** ** The batch over failed orders *)

Section BatchFacts.
Import JS Remote OrderCancellationService.
Variable json : Type.
Variable JSON_parse : string -> option json.
Variable length_positive : json -> option bool.
Variable config : Config.

Lemma tagging_is_no_mutation (order : Order) (rest : list event) :
  tagging order rest ->
  filter mutation rest = [] /\ forallb no_restock rest = true.
Proof. intros [->|(added & mf & _ & ->)]; auto. Qed.

Lemma run_mutations (env : Env) (options : Options) :
  let r := processCancellationForOrder json JSON_parse length_positive config
             env options in
  (List.length (filter mutation (snd r)) <= 1)%nat /\
  forallb no_restock (snd r) = true /\
  match fst r with
  | Returns result =>
      cancelled_or_refunded result = Some true ->
      List.length (filter mutation (snd r)) = 1%nat
  | Throws _ => True
  end.
Proof.
  intros r. subst r.
  destruct (engine_cases json JSON_parse length_positive config env options)
    as [[Hnil H]|(order & _ & [E|E])].
  - rewrite Hnil. cbn. repeat split; auto.
    destruct (fst _) as [[]|]; cbn; auto; try discriminate; tauto.
  - rewrite E.
    destruct (cancelEntireOrder_calls config env order options)
      as (first & rest & -> & Hm & Hr & Ht).
    apply tagging_is_no_mutation in Ht as [Hf Hn].
    assert (Hmut : mutation first = true) by (unfold mutation; now rewrite Hm).
    cbn [filter forallb]. rewrite Hmut, Hf, Hr, Hn.
    cbn. repeat split; auto. now destruct (fst _).
  - rewrite E.
    destruct (cancelFailedLineItems_calls config env order
                (filter (failed_item (o_tags order)) (lineItems order)) options)
      as (first & rest & -> & Hm & Hr & Ht).
    apply tagging_is_no_mutation in Ht as [Hf Hn].
    assert (Hmut : mutation first = true)
      by (unfold mutation; rewrite Hm; apply orb_true_r).
    cbn [filter forallb]. rewrite Hmut, Hf, Hr, Hn.
    cbn. repeat split; auto. now destruct (fst _).
Qed.

Lemma process_edges_consistent
    (getOrderDetails : string -> call (option Order)) (runs : nat -> Env)
    (options : Options) (orders : list OrderNode) :
  forall acc,
    batch_consistent acc ->
    batch_consistent
      (process_edges json JSON_parse length_positive config getOrderDetails
         runs options orders acc).
Proof.
  induction orders as [|order rest IH]; intros acc Hacc; cbn [process_edges];
    auto.
  cbv zeta. destruct (hasError _); [|now apply IH].
  apply IH. destruct Hacc as [[H1 H2] H3].
  pose proof (run_mutations
                (for_order getOrderDetails (runs (processedCount (fst acc)))
                   (n_id order)) options) as H.
  cbv zeta in H. destruct H as (Hle & Hno & Hcount).
  unfold batch_consistent. cbn [fst snd processedCount cancelledCount].
  rewrite filter_app, length_app, forallb_app, H3, Hno.
  split; [|reflexivity].
  destruct (fst (processCancellationForOrder _ _ _ _ _ _)) as [result|e];
    [|lia].
  destruct (cancelled_or_refunded result) as [[|]|]; try lia.
  specialize (Hcount eq_refl). lia.
Qed.

Lemma fetch_pages_consistent (pages : nat -> call Page)
    (getOrderDetails : string -> call (option Order)) (runs : nat -> Env)
    (options : Options) (fuel : nat) :
  forall n acc r,
    fetch_pages json JSON_parse length_positive config fuel pages
      getOrderDetails runs options n acc = Some r ->
    batch_consistent acc -> batch_consistent r.
Proof.
  induction fuel as [|fuel IH]; intros n acc r; cbn [fetch_pages];
    [discriminate|].
  destruct (pages n) as [page|e]; [|now intros [= <-]].
  cbv zeta. intros H Hacc.
  pose proof (process_edges_consistent getOrderDetails runs options
                (edges page) acc Hacc) as Hnext.
  destruct (hasNextPage page); [now apply (IH _ _ _ H)|].
  now injection H as <-.
Qed.

Lemma fetch_pages_ends (pages : nat -> call Page)
    (getOrderDetails : string -> call (option Order)) (runs : nat -> Env)
    (options : Options) (last : nat) :
  last_page pages last ->
  forall fuel n acc,
    (n <= last)%nat -> (last - n < fuel)%nat ->
    fetch_pages json JSON_parse length_positive config fuel pages
      getOrderDetails runs options n acc <> None.
Proof.
  intros [Hmore Hlast]. induction fuel as [|fuel IH]; intros n acc Hn Hfuel;
    [lia|].
  cbn [fetch_pages]. destruct (Nat.eq_dec n last) as [->|Hne].
  - destruct Hlast as [(e & ->)|(page & -> & Hp)]; [discriminate|].
    cbv zeta. rewrite Hp. discriminate.
  - destruct (Hmore n) as (page & -> & Hp); [lia|].
    cbv zeta. rewrite Hp. apply IH; lia.
Qed.
End BatchFacts.

(** X24.  The counters of [processFailedOrders] agree with what was sent: in
    every result the orders counted as cancelled are at most the mutations
    sent, these are at most the orders processed, and no call restocks
    anything.  The search loop ends: when some page request fails or is
    answered with a last page, the batch returns its result. *)
Theorem processFailedOrders_counts :
  forall (json : Type) (JSON_parse : string -> option json)
         (length_positive : json -> option bool)
         (config : OrderCancellationService.Config)
         (pages : nat -> JS.call OrderCancellationService.Page)
         (getOrderDetails :
            string -> JS.call (option OrderCancellationService.Order))
         (runs : nat -> OrderCancellationService.Env)
         (options : OrderCancellationService.Options),
    let run fuel :=
      OrderCancellationService.processFailedOrders json JSON_parse
        length_positive config fuel pages getOrderDetails runs options in
    (forall fuel r, run fuel = Some r -> batch_consistent r)
    /\ (forall last fuel,
          last_page pages last -> (last < fuel)%nat -> run fuel <> None).
Proof.
  intros json JSON_parse length_positive config pages getOrderDetails runs
         options run. subst run.
  unfold OrderCancellationService.processFailedOrders. split.
  - intros fuel r H.
    apply (fetch_pages_consistent json JSON_parse length_positive config
             pages getOrderDetails runs options fuel _ _ _ H).
    split; cbn; auto.
  - intros last fuel Hlast Hfuel.
    apply (fetch_pages_ends json JSON_parse length_positive config pages
             getOrderDetails runs options last Hlast); lia.
Qed.

(** ** Sold products revisited, and the order test *)

Section SoldCheckFacts.
Import JS Eff OrderService.

Lemma check_sold_products_effect (details : nat -> call (option Details))
    (products : list SyncedProduct.t) :
  forall (i : nat) (s : SoldCheck),
    let r := check_sold_products details i products s in
    fst r = Returns tt /\
    sc_ledger (snd r) = sc_ledger s /\
    checkedCount (snd r)
    = checkedCount s
      + count still_sold (lookups details i (List.length products)) /\
    needsUpdateCount (snd r)
    = needsUpdateCount s
      + count back_on_sale (lookups details i (List.length products)).
Proof.
  unfold count, lookups. cbv zeta.
  induction products as [|product rest IH]; intros i s.
  - cbn. repeat split; lia.
  - cbn [check_sold_products List.length seq map filter].
    cbv beta iota zeta delta [bind check_sold_product try_catch await modify
                              ret restoreProductStatus throw].
    destruct (details i) as [[d|]|e]; cbn [fst snd back_on_sale still_sold].
    + destruct (match status d with
                | Some x => (x =? "SELLING")%string
                | None => false
                end); cbn [fst snd negb];
        specialize (IH (S i));
        match goal with
        | |- context [check_sold_products details (S i) rest ?s1] =>
            destruct (IH s1) as (H1 & H2 & H3 & H4)
        end; rewrite H1, H2, H3, H4; cbn [sc_ledger checkedCount
          needsUpdateCount List.length]; repeat split; lia.
    + specialize (IH (S i));
        match goal with
        | |- context [check_sold_products details (S i) rest ?s1] =>
            destruct (IH s1) as (H1 & H2 & H3 & H4)
        end; rewrite H1, H2, H3, H4; cbn [sc_ledger checkedCount
          needsUpdateCount List.length negb]; repeat split; lia.
    + specialize (IH (S i));
        match goal with
        | |- context [check_sold_products details (S i) rest ?s1] =>
            destruct (IH s1) as (H1 & H2 & H3 & H4)
        end; rewrite H1, H2, H3, H4; cbn [sc_ledger checkedCount
          needsUpdateCount List.length]; repeat split; lia.
Qed.

Lemma archive_products_effect (products : list SyncedProduct.t) :
  forall s : ArchiveRun, archive_products products s = (Returns tt, s).
Proof.
  induction products as [|product rest IH]; intros s; [reflexivity|].
  cbn [archive_products].
  cbv beta iota zeta delta [bind archive_product try_catch modify ret
                            updateProductStatus throw].
  apply IH.
Qed.
End SoldCheckFacts.

(** X25.  [checkSoldProductsStatus] restores nothing.  The inventory service
    exports no [restoreProductStatus], so the call throws inside the loop:
    the job returns, the ledger is left as it was, [needsUpdate] counts the
    products whose lookup found them on sale again, and [checked] counts
    only the products whose lookup answered otherwise; a product that is on
    sale again is never counted as checked. *)
Theorem checkSoldProductsStatus_restores_nothing :
  forall (details : nat -> JS.call (option OrderService.Details))
         (c : list SyncedProduct.t),
    let seen :=
      lookups details 0
        (List.length (OrderService.sold_on_bunjang_in_draft c)) in
    OrderService.checkSoldProductsStatus details c
    = (JS.Returns (count still_sold seen, count back_on_sale seen), c).
Proof.
  intros details c seen. subst seen.
  unfold OrderService.checkSoldProductsStatus.
  pose proof (check_sold_products_effect details
                (OrderService.sold_on_bunjang_in_draft c) 0
                {| OrderService.sc_ledger := c;
                   OrderService.checkedCount := 0;
                   OrderService.needsUpdateCount := 0 |}) as H.
  cbv zeta in *. destruct H as (H1 & H2 & H3 & H4).
  rewrite H1, H2, H3, H4. reflexivity.
Qed.

(** X26.  [archiveOldSoldProducts] archives nothing.  The storefront service
    exports no [updateProductStatus], so the call throws for every product
    before its entry is changed: the job returns, the ledger is left as it
    was, and the result reports every product found as failed and none as
    archived.  The products found are the first hundred entries in [DRAFT]
    whose stored document has a [soldFrom] key and whose [soldAt] is earlier
    than the cutoff date. *)
Theorem archiveOldSoldProducts_archives_nothing :
  forall (has_key : SyncedProduct.t -> bool) (cutoffDate : Z)
         (c : list SyncedProduct.t),
    let n :=
      Z.of_nat
        (List.length (OrderService.old_sold_in_draft has_key cutoffDate c)) in
    OrderService.archiveOldSoldProducts has_key cutoffDate c
    = (JS.Returns {| OrderService.found := n;
                     OrderService.archived := 0;
                     OrderService.failed := n |}, c).
Proof.
  intros has_key cutoffDate c n. subst n.
  unfold OrderService.archiveOldSoldProducts. cbv zeta.
  rewrite archive_products_effect. cbn [fst snd OrderService.archivedCount
    OrderService.ar_ledger].
  now rewrite Z.sub_0_r.
Qed.

(** Two old entries in [DRAFT] without a [soldFrom] value, the first stored
    with [soldFrom: null], the second without the key: the query finds the
    first one only. *)
Example archive_skips_a_document_without_the_key :
  let entry id :=
    SyncedProduct.mk id "342351629" None (Some SyncedProduct.DRAFT) 1 None
      None SyncedProduct.idle None None None
      None (Some 1000) None None false [] 0 0 in
  let has_key d := Nat.eqb (SyncedProduct._id d) 1 in
  OrderService.archiveOldSoldProducts has_key 2000 [entry 1%nat; entry 2%nat]
  = (JS.Returns {| OrderService.found := 1;
                   OrderService.archived := 0;
                   OrderService.failed := 1 |},
     [entry 1%nat; entry 2%nat]).
Proof. reflexivity. Qed.

Section VerdictFacts.
Import JS Remote Eff OrderService.
Variable config : Config.

Lemma orderable_spec (product : PricedProduct) (r_balance : call (option Z)) :
  testBunjangProductOrder (Returns (Some product)) r_balance = Orderable ->
  match status (listing product) with
  | Some x => if truthy x then Some x else saleStatus (listing product)
  | None => saleStatus (listing product)
  end = Some "SELLING"
  /\ quantity (listing product) <> Some 0.
Proof.
  unfold testBunjangProductOrder. cbv zeta.
  destruct (match status (listing product) with
            | Some x => if truthy x then Some x else saleStatus (listing product)
            | None => saleStatus (listing product)
            end) as [x|]; cbn [negb]; [|discriminate].
  destruct (String.eqb_spec x "SELLING") as [->|]; cbn [negb];
    [|discriminate].
  destruct (quantity (listing product)) as [q|]; [|split; congruence].
  destruct (Z.eqb_spec q 0); [discriminate|]. split; congruence.
Qed.
End VerdictFacts.

Ltac sends :=
  repeat first
    [ apply sends_only_ret | apply sends_only_await | apply sends_only_get
    | apply sends_only_throw | apply sends_only_record_created
    | apply sends_only_updateOrder; exact I
    | apply sends_only_send; exact I
    | apply sends_only_bind; [|intros ?]
    | apply sends_only_try_catch; [|intros ?]
    | progress cbv zeta
    | match goal with
      | |- sends_only _ (if ?x then _ else _) => destruct x
      | |- sends_only _ (match ?x with _ => _ end) => destruct x
      end ].

Section FirstCallFacts.
Import JS Remote Eff OrderService.
Variable config : Config.

Let anything (ev : event) : Prop := True.

Lemma sends_first_send {A : Type} (ev : event) (k : unit -> M Run A) :
  sends_only anything (k tt) -> sends_first ev (bind (send ev) k).
Proof.
  intros Hk s. cbv beta iota delta [bind send modify]. cbn [fst snd].
  match goal with |- context [k tt ?s1] => destruct (Hk s1) as (new & H & _) end.
  exists new. rewrite H. cbn. now rewrite <- app_assoc.
Qed.

Lemma sends_first_try_catch {A : Type} (ev : event) (m : M Run A)
    (h : option string -> M Run A) :
  sends_first ev m -> (forall e, sends_only anything (h e)) ->
  sends_first ev (try_catch m h).
Proof.
  intros Hm Hh s. unfold try_catch. destruct (Hm s) as (rest & H).
  destruct (m s) as [[a|e] s1]; cbn [snd] in *; [eauto|].
  destruct (Hh e s1) as (new & H' & _).
  exists (rest ++ new)%list. rewrite H', H, <- app_assoc. reflexivity.
Qed.

Lemma sends_first_await {A B : Type} (ev : event) (a : A)
    (k : A -> M Run B) :
  sends_first ev (k a) -> sends_first ev (bind (await (Returns a)) k).
Proof. intros H s. apply H. Qed.

End FirstCallFacts.

(** X27.  The verdict of [testBunjangProductOrder] against the stock check of
    the orchestrator, with the status check on and the same listing read by
    both.  For a listing that the test finds orderable: when its quantity is
    given and the payload is built, the first call of the orchestrator for
    the item is the order request; when its quantity is missing the
    orchestrator refuses the item that the test approved: its first call is
    the [NoStock] failure tagging, it creates no downstream order and
    records no id. *)
Theorem test_verdict_against_the_orchestrator :
  forall (config : OrderService.Config) (order : OrderService.ShopifyOrder)
         (e : OrderService.ItemEnv) (l : OrderService.Linked)
         (product : OrderService.PricedProduct)
         (r_balance : JS.call (option Z)) (s : OrderService.Run),
    let after := snd (OrderService.order_item config order e l s) in
    let gid := OrderService.admin_graphql_api_id order in
    let pid := OrderService.l_bunjangPid l in
    let no_stock :=
      Remote.UpdateOrder gid
        [OrderService.bunjangOrderIdentifier config order ++ "_Error";
         "PID-" ++ pid ++ "-NoStock"] [] in
    OrderService.SKIP_STATUS_CHECK config = false ->
    OrderService.r_details e = JS.Returns (Some (OrderService.listing product)) ->
    OrderService.testBunjangProductOrder (JS.Returns (Some product)) r_balance
      = OrderService.Orderable ->
    match OrderService.quantity (OrderService.listing product) with
    | Some _ =>
        forall payload,
          OrderService.r_payload e = JS.Returns payload ->
          exists rest,
            OrderService.sent (OrderService.shop after)
            = List.app (OrderService.sent (OrderService.shop s))
                (Remote.CreateBunjangOrderV2 pid payload
                   (OrderService.r_createOrder e) :: rest)
    | None =>
        exists rest,
          OrderService.sent (OrderService.shop after)
          = List.app (OrderService.sent (OrderService.shop s))
              (no_stock :: rest)
          /\ OrderService.created_orders rest = []
          /\ OrderService.createdBunjangOrderIds after
             = OrderService.createdBunjangOrderIds s
    end.
Proof.
  intros config order e l product r_balance s after gid pid no_stock Hskip
         Hdetails Htest. subst after gid pid no_stock.
  destruct (orderable_spec product r_balance Htest) as [Hstatus Hq].
  destruct (OrderService.quantity (OrderService.listing product)) as [q|]
    eqn:Hquantity.
  - intros payload Hpayload.
    assert (H : sends_first
                  (Remote.CreateBunjangOrderV2 (OrderService.l_bunjangPid l)
                     payload (OrderService.r_createOrder e))
                  (OrderService.order_item config order e l)).
    { unfold OrderService.order_item. rewrite Hdetails.
      apply sends_first_try_catch; [|intros; sends].
      apply sends_first_await. rewrite Hskip, Hstatus, Hquantity.
      destruct (Z.eqb_spec q 0) as [->|_]; [congruence|].
      cbn [negb andb String.eqb Ascii.eqb Bool.eqb]. rewrite Hpayload.
      apply sends_first_await.
      apply sends_first_try_catch; [|intros; sends].
      apply sends_first_send. sends. }
    apply H.
  - unfold OrderService.order_item.
    cbv beta iota zeta delta [Eff.try_catch Eff.bind Eff.await].
    rewrite Hdetails, Hskip, Hstatus, Hquantity.
    cbn [negb andb String.eqb Ascii.eqb Bool.eqb Z.eqb].
    cbv beta iota zeta delta [OrderService.updateOrder OrderService.send
      Eff.modify Eff.bind Eff.await OrderService.store_order_ids Eff.ret].
    cbn [find fst snd].
    destruct (OrderService.r_updateOrder_tag e) as [[]|err]; cbn [fst snd].
    + exists []. cbn. auto.
    + destruct (OrderService.r_updateOrder_exception e) as [[]|err'];
        cbn [fst snd]; eexists [_]; cbn; rewrite <- app_assoc;
        (split; [reflexivity | split; reflexivity]).
Qed.

Lemma test_verdict_against_the_orchestrator_witness :
  let l :=
    {| OrderService.l_bunjangPid := "101";
       OrderService.l_shopifyGid := Some "gid://shopify/Product/101" |} in
  let unknown_quantity :=
    {| OrderService.status := Some "SELLING";
       OrderService.saleStatus := None;
       OrderService.quantity := None |} in
  let s :=
    {| OrderService.shop := Scenario.fresh;
       OrderService.createdBunjangOrderIds := [];
       OrderService.bunjangOrderSuccessfullyCreatedOverall := false |} in
  let after :=
    snd (OrderService.order_item Scenario.config Scenario.order
           (Scenario.item "101" (Some unknown_quantity) "B1") l s) in
  OrderService.testBunjangProductOrder
    (JS.Returns (Some {| OrderService.listing := unknown_quantity;
                         OrderService.price := Some 10000;
                         OrderService.shippingFee := None |}))
    (JS.Returns (Some 5000000))
  = OrderService.Orderable
  /\ exists rest,
       OrderService.sent (OrderService.shop after)
       = List.app (OrderService.sent (OrderService.shop s))
           (Remote.UpdateOrder "gid://shopify/Order/77"
              ["BunjangOrder-77_Error"; "PID-101-NoStock"] [] :: rest)
       /\ OrderService.created_orders rest = []
       /\ OrderService.createdBunjangOrderIds after
          = OrderService.createdBunjangOrderIds s.
Proof.
  cbv zeta. split; [reflexivity|].
  match goal with
  | |- exists rest,
         OrderService.sent
           (OrderService.shop
              (snd (OrderService.order_item ?config ?order ?e ?l ?s)))
         = _ /\ _ =>
      exact (test_verdict_against_the_orchestrator config order e l
               {| OrderService.listing :=
                    {| OrderService.status := Some "SELLING";
                       OrderService.saleStatus := None;
                       OrderService.quantity := None |};
                  OrderService.price := Some 10000;
                  OrderService.shippingFee := None |}
               (JS.Returns (Some 5000000)) s eq_refl eq_refl eq_refl)
  end.
Defined.

(** ** Line items, one by one *)

Section ObliviousFacts.
Import JS Remote Eff OrderService.










Variable config : Config.
Variable order : ShopifyOrder.





End ObliviousFacts.

Section IndependenceFacts.
Import JS Remote Eff OrderService.
Variable json : Type.
Variable JSON_parse : string -> option json.
Variable JSON_stringify : list string -> string.
Variable config : Config.
Variable order : ShopifyOrder.







End IndependenceFacts.



